(** * VipBotGate: the payment reconciliation engine

    A shallow embedding of the Bitcoin payment engine of the bot
    (database.py, bot/btc_api.py, bot/services/payment_service.py,
    bot/payment_checker.py, bot/handlers.py, bot/admin.py, bot/models.py,
    bot/core/config.py) and the properties of it that the specification
    states.

    Conventions of the embedding.
    - A Python [float] is a binary64 value: Rocq's primitive [float], with
      the IEEE operations Python uses ([/] is [PrimFloat.div], [<] is
      [PrimFloat.ltb], [==] is [PrimFloat.eqb], [abs] is [PrimFloat.abs]).
    - A [datetime] is a number of seconds ([Z]); [timedelta(minutes=m)] is
      [60 * m] and [timedelta(days=d)] is [86400 * d].  One operation runs
      at one instant [now]: [datetime.utcnow()] and the server's
      [CURRENT_TIMESTAMP] are both [now].
    - A table with a primary key is a [gmap] from the key to the row; a
      table that is only appended to and scanned is a list.
    - Each SQL statement is one function on the store.  The store is
      reliable: statements do not fail, and the rounding of the DECIMAL
      columns is not modelled (a column holds the float it was given).
      An amount is therefore stated of the value the code returns or
      shows, not of the row, and where a row is created, for prices
      whose amounts the columns take ([Schema.storable]).
    - The network is an oracle: the reply to the n-th request, sent to a
      given URL.  Functions that use the network thread the list of the
      URLs requested so far.
    - Messages sent to Telegram are left out: every send happens after the
      store was written or inside its own try/except, so no send changes
      what is stored. *)

From Stdlib Require Import ZArith List String Bool Lia Floats.
From stdpp Require Import gmap strings list sorting.

Set Warnings "-inexact-float".

Local Open Scope string_scope.
Local Open Scope Z_scope.

(** ** Python values *)

Module Py.

(** [int -> float]: the nearest binary64 value (exact up to 2^53). *)
Definition float_of_Z (z : Z) : float :=
  SF2Prim (SpecFloat.binary_normalize FloatOps.prec FloatOps.emax z 0 false).

(** [a / b] on two ints (true division).  Python rounds the exact
    quotient; dividing the converted operands is the same value whenever
    both are below 2^53 in magnitude, which every amount of satoshis is. *)
Definition truediv_int (a b : Z) : float :=
  PrimFloat.div (float_of_Z a) (float_of_Z b).

(** [needle in hay] on strings. *)
Fixpoint contains (needle hay : string) : bool :=
  String.prefix needle hay
  || match hay with
     | EmptyString => false
     | String _ rest => contains needle rest
     end.

End Py.

(** ** bot/models.py *)

Module Models.

(** [class PlanType(Enum)]: a plain [Enum], not a [str] mixin. *)
Inductive PlanType := VIP1 | VIP2 | VIP3.

(** [plan_type.value] *)
Definition value (p : PlanType) : string :=
  match p with VIP1 => "VIP1" | VIP2 => "VIP2" | VIP3 => "VIP3" end.

(** [PlanType(s)]: [None] stands for the [ValueError] of an unknown value. *)
Definition PlanType_of_value (s : string) : option PlanType :=
  if String.eqb s "VIP1" then Some VIP1
  else if String.eqb s "VIP2" then Some VIP2
  else if String.eqb s "VIP3" then Some VIP3
  else None.

Definition PlanType_eqb (p q : PlanType) : bool :=
  match p, q with
  | VIP1, VIP1 | VIP2, VIP2 | VIP3, VIP3 => true
  | _, _ => false
  end.

(** The two kinds of object that [initiate_purchase] compares with [==]:
    the [plan_type] column of a row (a [str]) and the [PlanType] member
    built by [handle_callback]. *)
Inductive pyobj :=
| PyStr (s : string)
| PyPlanType (p : PlanType).

(** Python's [==].  [Enum] defines no [__eq__] against other types and
    [str.__eq__] answers [NotImplemented] for a non-[str], so a [str] and
    a [PlanType] member never compare equal. *)
Definition py_eq (a b : pyobj) : bool :=
  match a, b with
  | PyStr s, PyStr t => String.eqb s t
  | PyPlanType p, PyPlanType q => PlanType_eqb p q
  | _, _ => false
  end.

Inductive TransactionStatus := PENDING | CONFIRMED | EXPIRED | CANCELLED.

Inductive SubscriptionStatus := ACTIVE | SUB_EXPIRED | SUB_CANCELLED.

Definition TransactionStatus_eqb (a b : TransactionStatus) : bool :=
  match a, b with
  | PENDING, PENDING | CONFIRMED, CONFIRMED
  | EXPIRED, EXPIRED | CANCELLED, CANCELLED => true
  | _, _ => false
  end.

(** [get_plan_configs()[p]["price_usd"]] *)
Definition price_usd (p : PlanType) : float :=
  match p with VIP1 => 50%float | VIP2 => 100%float | VIP3 => 200%float end.

(** [get_plan_configs()[p]["duration_days"]]; [None] is the lifetime plan. *)
Definition duration_days (p : PlanType) : option Z :=
  match p with VIP1 => Some 30 | VIP2 => Some 30 | VIP3 => None end.

End Models.

(** ** bot/core/config.py *)

Module Config.

Definition PAYMENT_TIMEOUT_MINUTES : Z := 30.
Definition PAYMENT_CHECK_INTERVAL_MINUTES : Z := 5.

End Config.

(** ** database.py *)

Module Database.
Import Models.

(** A row of [btc_addresses], keyed by [address]. *)
Record btc_address_row := {
  is_used : bool;
  assigned_to : option Z;
  assigned_at : option Z
}.

(** A row of [transactions], keyed by [id].  [status] holds one of the four
    strings of [TransactionStatus]: no writer passes anything else. *)
Record transaction := {
  user_id : Z;
  plan_type : string;
  btc_address : string;
  btc_amount : float;
  usd_amount : float;
  btc_rate : float;
  status : TransactionStatus;
  created_at : Z;
  expires_at : Z;
  confirmed_at : option Z
}.

(** A row of [subscriptions]. *)
Record subscription := {
  sub_user_id : Z;
  sub_plan_type : string;
  sub_transaction_id : Z;
  sub_status : SubscriptionStatus;
  sub_created_at : Z;
  sub_expires_at : option Z
}.

Record db := {
  btc_addresses : gmap string btc_address_row;
  transactions : gmap Z transaction;
  subscriptions : list subscription
}.

Definition empty_db : db :=
  {| btc_addresses := ∅; transactions := ∅; subscriptions := [] |}.

Definition set_btc_addresses (m : gmap string btc_address_row) (d : db) : db :=
  {| btc_addresses := m;
     transactions := transactions d;
     subscriptions := subscriptions d |}.

Definition set_transactions (m : gmap Z transaction) (d : db) : db :=
  {| btc_addresses := btc_addresses d;
     transactions := m;
     subscriptions := subscriptions d |}.

Definition set_subscriptions (l : list subscription) (d : db) : db :=
  {| btc_addresses := btc_addresses d;
     transactions := transactions d;
     subscriptions := l |}.

Definition is_pending (t : transaction) : bool :=
  TransactionStatus_eqb (status t) PENDING.

(** [SELECT address FROM btc_addresses WHERE is_used = FALSE] *)
Definition available (d : db) : list string :=
  (filter (λ kv, is_used kv.2 = false) (map_to_list (btc_addresses d))).*1.

(** [get_available_btc_address]: [ORDER BY RANDOM() LIMIT 1]; [rnd] is the
    random draw. *)
Definition get_available_btc_address (rnd : nat) (d : db) : option string :=
  let rows := available d in
  rows !! (rnd mod length rows)%nat.

(** [assign_btc_address]: the conditional [UPDATE ... WHERE address = $2
    AND is_used = FALSE]; the result is [result != "UPDATE 0"]. *)
Definition assign_btc_address (address : string) (user : Z) (now : Z) (d : db)
  : db * bool :=
  match btc_addresses d !! address with
  | Some r =>
      if is_used r then (d, false)
      else (set_btc_addresses
              (<[address := {| is_used := true;
                               assigned_to := Some user;
                               assigned_at := Some now |}]> (btc_addresses d)) d,
            true)
  | None => (d, false)
  end.

(** [release_btc_address]: the unconditional [UPDATE ... WHERE address = $1]. *)
Definition release_btc_address (address : string) (d : db) : db :=
  set_btc_addresses
    (alter (λ _, {| is_used := false; assigned_to := None; assigned_at := None |})
       address (btc_addresses d)) d.

(** [id SERIAL PRIMARY KEY]: rows are never deleted, so the next value of
    the sequence is above every stored id. *)
Definition next_id (m : gmap Z transaction) : Z :=
  1 + foldr Z.max 0 (map_to_list m).*1.

(** [create_transaction]: the [INSERT ... RETURNING id]; [status] and
    [created_at] take their column defaults, and a missing [expires_at] is
    30 minutes from now.  The three amounts are kept as the floats given:
    their columns are DECIMAL, which round them and refuse those out of
    range. *)
Definition create_transaction (user : Z) (plan : string) (address : string)
    (amount usd rate : float) (expires : option Z) (now : Z) (d : db) : db * Z :=
  let expires_at := default (now + 60 * 30) expires in
  let i := next_id (transactions d) in
  (set_transactions
     (<[i := {| user_id := user; plan_type := plan; btc_address := address;
                btc_amount := amount; usd_amount := usd; btc_rate := rate;
                status := PENDING; created_at := now; expires_at := expires_at;
                confirmed_at := None |}]> (transactions d)) d,
   i).

(** [get_transaction] *)
Definition get_transaction (i : Z) (d : db) : option transaction :=
  transactions d !! i.

Definition older_first (a b : Z * transaction) : Prop :=
  created_at a.2 ≤ created_at b.2.

Definition newer_first (a b : Z * transaction) : Prop :=
  created_at b.2 ≤ created_at a.2.

#[global] Instance older_first_dec a b : Decision (older_first a b).
Proof. unfold older_first. apply _. Defined.

#[global] Instance newer_first_dec a b : Decision (newer_first a b).
Proof. unfold newer_first. apply _. Defined.

(** [get_user_transactions]: [WHERE user_id = $1 ORDER BY created_at DESC] *)
Definition get_user_transactions (user : Z) (d : db) : list (Z * transaction) :=
  merge_sort newer_first
    (filter (λ kv, user_id kv.2 = user) (map_to_list (transactions d))).

(** [get_pending_transactions]: [WHERE status = 'pending' ORDER BY
    created_at ASC] *)
Definition get_pending_transactions (d : db) : list (Z * transaction) :=
  merge_sort older_first
    (filter (λ kv, is_pending kv.2 = true) (map_to_list (transactions d))).

(** [update_transaction_status]: [UPDATE transactions SET status = $1
    [, confirmed_at = $2] WHERE id = $3], with no condition on the
    current status. *)
Definition update_transaction_status (i : Z) (st : TransactionStatus)
    (confirmed : option Z) (d : db) : db :=
  set_transactions
    (alter (λ t, {| user_id := user_id t; plan_type := plan_type t;
                    btc_address := btc_address t; btc_amount := btc_amount t;
                    usd_amount := usd_amount t; btc_rate := btc_rate t;
                    status := st; created_at := created_at t;
                    expires_at := expires_at t;
                    confirmed_at := match confirmed with
                                    | Some c => Some c
                                    | None => confirmed_at t
                                    end |})
       i (transactions d)) d.

(** [expire_old_transactions]: one [UPDATE ... WHERE status = 'pending' AND
    expires_at < CURRENT_TIMESTAMP RETURNING btc_address], then a release
    of every returned address. *)
Definition expire_old_transactions (now : Z) (d : db) : db * nat :=
  let rows :=
    filter (λ kv, is_pending kv.2 = true ∧ expires_at kv.2 < now)
      (map_to_list (transactions d)) in
  let d1 := foldl (λ acc kv, update_transaction_status kv.1 EXPIRED None acc) d rows in
  (foldl (λ acc kv, release_btc_address (btc_address kv.2) acc) d1 rows,
   length rows).

(** [create_subscription] *)
Definition create_subscription (user : Z) (plan : string) (tx : Z)
    (expires : option Z) (now : Z) (d : db) : db :=
  set_subscriptions
    (subscriptions d ++
       [{| sub_user_id := user; sub_plan_type := plan; sub_transaction_id := tx;
           sub_status := ACTIVE; sub_created_at := now;
           sub_expires_at := expires |}]) d.

Definition is_active (user : Z) (now : Z) (s : subscription) : bool :=
  (sub_user_id s =? user)
  && match sub_status s with ACTIVE => true | _ => false end
  && match sub_expires_at s with None => true | Some e => now <? e end.

Definition newer_sub_first (a b : subscription) : Prop :=
  sub_created_at b ≤ sub_created_at a.

#[global] Instance newer_sub_first_dec a b : Decision (newer_sub_first a b).
Proof. unfold newer_sub_first. apply _. Defined.

(** [get_active_subscription]: [WHERE user_id = $1 AND status = 'active'
    AND (expires_at IS NULL OR expires_at > CURRENT_TIMESTAMP) ORDER BY
    created_at DESC LIMIT 1] *)
Definition get_active_subscription (user : Z) (now : Z) (d : db)
  : option subscription :=
  head (merge_sort newer_sub_first
          (filter (λ s, is_active user now s = true) (subscriptions d))).

(** [get_pending_transaction]: [WHERE user_id = $1 AND status = 'pending'
    ORDER BY created_at DESC LIMIT 1] *)
Definition get_pending_transaction (user : Z) (d : db) : option (Z * transaction) :=
  head (merge_sort newer_first
          (filter (λ kv, user_id kv.2 = user ∧ is_pending kv.2 = true)
             (map_to_list (transactions d)))).

(** The first statement of [get_next_btc_address]: [SELECT btc_address
    FROM transactions WHERE user_id = $1 AND status = 'pending' LIMIT 1]. *)
Definition pending_address (user : Z) (d : db) : option string :=
  head (map (λ kv, btc_address kv.2)
          (filter (λ kv, user_id kv.2 = user ∧ is_pending kv.2 = true)
             (map_to_list (transactions d)))).

(** [get_next_btc_address]: refuse a user who has a pending transaction,
    otherwise draw an available address and assign it.  The addresses of
    the pool are non-empty strings ([init_btc_addresses] drops empty
    lines), so [if existing:] is the test for a row. *)
Definition get_next_btc_address (user : Z) (rnd : nat) (now : Z) (d : db)
  : db * option string :=
  match pending_address user d with
  | Some _ => (d, None)
  | None =>
      match get_available_btc_address rnd d with
      | Some address =>
          let '(d1, success) := assign_btc_address address user now d in
          if success then (d1, Some address) else (d1, None)
      | None => (d, None)
      end
  end.

End Database.

(** ** bot/btc_api.py *)

Module BtcApi.

(** An entry of [price_apis] or [blockchain_apis]; its parser is fixed by
    its [url]. *)
Record api := { url : string; name : string }.

(** What one [session.get] yields.  [Response status payload]: the server
    answered; [payload] is what [response.json()] followed by the code's
    reading of it gives, [None] when either raises.  The other three are
    the exceptions the code catches. *)
Inductive http_reply (B : Type) :=
| Response (status : Z) (payload : option B)
| TimeoutError
| ClientConnectorError
| OtherException.

Arguments Response {B} status payload.
Arguments TimeoutError {B}.
Arguments ClientConnectorError {B}.
Arguments OtherException {B}.

(** The transaction history of blockstream.info, as far as
    [check_double_spend] reads it.  A [...Malformed] item is one on which
    [.get] raises (not a JSON object).  An absent key is [None]; [value]
    is an integer number of satoshis. *)
Inductive vin_json :=
| Vin (address : option string)
| VinMalformed.

Inductive vout_json :=
| Vout (scriptpubkey_address : option string) (value : option Z)
| VoutMalformed.

Inductive tx_json :=
| Tx (vin : list vin_json) (vout : list vout_json)
| TxMalformed.

(** The network: the reply to request number [n] (counting from 0), sent
    to [url].  For a price source the payload is the price its parser
    returns; for a balance source it is the number of satoshis its parser
    reads (a balance field, or the sum of the unspent outputs) before the
    division by 10^8. *)
Record network := {
  price_reply : nat → string → http_reply float;
  balance_reply : nat → string → http_reply Z;
  history_reply : nat → string → http_reply (list tx_json)
}.

(** [class BTCPriceAPI]: the two source lists, in configuration order, and
    the value of [FALLBACK_BTC_PRICE] (92000 when unset). *)
Record BTCPriceAPI := {
  price_apis : list api;
  blockchain_apis : list api;
  FALLBACK_BTC_PRICE : float
}.

Definition default_fallback : float := 92000%float.

(** The loop of [get_btc_price] over the remaining sources. *)
Fixpoint price_from (net : network) (apis : list api) (fallback : float)
    (log : list string) : float * list string :=
  match apis with
  | [] => (fallback, log)
  | a :: rest =>
      let log1 := (log ++ [url a])%list in
      match price_reply net (length log) (url a) with
      | Response status (Some price) =>
          if (status =? 200) && PrimFloat.ltb 0 price then (price, log1)
          else price_from net rest fallback log1
      | _ => price_from net rest fallback log1
      end
  end.

Definition get_btc_price (net : network) (self : BTCPriceAPI)
    (log : list string) : float * list string :=
  price_from net (price_apis self) (FALLBACK_BTC_PRICE self) log.

(** The URL shape of a balance source; [None] is the unsupported source
    that the loop skips. *)
Definition balance_url (a : api) (address : string) : option string :=
  if Py.contains "blockstream" (url a) || Py.contains "mempool.space" (url a)
  then Some (url a ++ "/address/" ++ address ++ "/utxo")
  else if Py.contains "blockcypher" (url a)
  then Some (url a ++ "/addrs/" ++ address ++ "/balance")
  else if Py.contains "blockchain.info" (url a)
  then Some (url a ++ "/rawaddr/" ++ address)
  else if Py.contains "blockchair" (url a)
  then Some (url a ++ "/dashboards/address/" ++ address)
  else None.

(** The loop of [check_address_balance] over the remaining sources. *)
Fixpoint balance_from (net : network) (apis : list api) (address : string)
    (log : list string) : float * list string :=
  match apis with
  | [] => (0%float, log)
  | a :: rest =>
      match balance_url a address with
      | None => balance_from net rest address log
      | Some u =>
          let log1 := (log ++ [u])%list in
          match balance_reply net (length log) u with
          | Response status (Some satoshis) =>
              if status =? 200
              then (Py.truediv_int satoshis 100000000, log1)
              else balance_from net rest address log1
          | _ => balance_from net rest address log1
          end
      end
  end.

(** [check_address_balance]; [address = None] is Python's [None]. *)
Definition check_address_balance (net : network) (self : BTCPriceAPI)
    (address : option string) (log : list string) : float * list string :=
  match address with
  | None => (0%float, log)
  | Some a =>
      if (String.length a <? 26)%nat then (0%float, log)
      else balance_from net (blockchain_apis self) a log
  end.

Definition history_url (address : string) : string :=
  "https://blockstream.info/api/address/" ++ address ++ "/txs".

(** [abs(amount_satoshis / 100000000 - expected_amount) < 0.00001] *)
Definition close_to (expected : float) (amount_satoshis : Z) : bool :=
  PrimFloat.ltb
    (PrimFloat.abs
       (PrimFloat.sub (Py.truediv_int amount_satoshis 100000000) expected))
    0.00001%float.

(** How the scan of the history ends: [return True] inside the loop, an
    exception, or the end of the data with [relevant_tx_count]. *)
Inductive scan :=
| ReturnedTrue
| Raised
| Counted (relevant_tx_count : nat).

Definition to_address (address : string) (a : option string) : bool :=
  match a with
  | Some s => String.eqb s address
  | None => false
  end.

(** [for vin in tx.get('vin', [])]: the body does nothing, but [.get]
    raises on a malformed item. *)
Fixpoint scan_vin (vins : list vin_json) : bool :=
  match vins with
  | [] => true
  | Vin _ :: rest => scan_vin rest
  | VinMalformed :: _ => false
  end.

(** [for vout in tx.get('vout', [])] *)
Fixpoint scan_vout (address : string) (expected : float)
    (vouts : list vout_json) (count : nat) : scan :=
  match vouts with
  | [] => Counted count
  | VoutMalformed :: _ => Raised
  | Vout a v :: rest =>
      if to_address address a && close_to expected (default 0 v)
      then if (1 <? S count)%nat then ReturnedTrue
           else scan_vout address expected rest (S count)
      else scan_vout address expected rest count
  end.

(** [for tx in txs] *)
Fixpoint scan_txs (address : string) (expected : float)
    (txs : list tx_json) (count : nat) : scan :=
  match txs with
  | [] => Counted count
  | TxMalformed :: _ => Raised
  | Tx vins vouts :: rest =>
      if scan_vin vins
      then match scan_vout address expected vouts count with
           | Counted n => scan_txs address expected rest n
           | stop => stop
           end
      else Raised
  end.

(** [check_double_spend] *)
Definition check_double_spend (net : network) (address : option string)
    (expected_amount : float) (log : list string) : bool * list string :=
  match address with
  | None => (false, log)
  | Some a =>
      if String.eqb a "" then (false, log)
      else
        let u := history_url a in
        let log1 := (log ++ [u])%list in
        match history_reply net (length log) u with
        | Response status payload =>
            if status =? 200 then
              match payload with
              | Some txs =>
                  match scan_txs a expected_amount txs 0 with
                  | ReturnedTrue => (true, log1)
                  | Raised => (true, log1)
                  | Counted _ => (false, log1)
                  end
              | None => (true, log1)
              end
            else if status =? 404 then (false, log1)
            else (true, log1)
        | TimeoutError => (true, log1)
        | ClientConnectorError => (true, log1)
        | OtherException => (true, log1)
        end
  end.

End BtcApi.

(** ** The state the engine runs on *)

Module Engine.

(** The store and the requests sent so far. *)
Record state := {
  store : Database.db;
  requests : list string
}.

(** What an operation is given from outside: the network, the configured
    sources, the random draw of the address selection and the clock. *)
Record world := {
  net : BtcApi.network;
  btc_api : BtcApi.BTCPriceAPI;
  rnd : nat;
  now : Z
}.

End Engine.

(** ** bot/services/payment_service.py *)

Module PaymentService.
Import Models Database.

(** The dict that [create_payment] returns. *)
Record payment := {
  pay_id : Z;
  pay_plan_type : string;
  pay_btc_address : string;
  pay_btc_amount : float;
  pay_usd_amount : float;
  pay_btc_price : float;
  pay_expires_at : Z
}.

(** [PaymentService.create_payment].  Every exception is caught and turned
    into [None]; the one the model can raise is the [ZeroDivisionError] of
    [usd_amount / btc_price].  An [INSERT] that a DECIMAL column refuses
    raises too, once the address is assigned: the model has no such
    failure, and [Schema.storable] tells the prices at which there is
    none. *)
Definition create_payment (user : Z) (plan : PlanType) (btc_price : float)
    (rnd : nat) (now : Z) (d : db) : db * option payment :=
  match get_active_subscription user now d with
  | Some _ => (d, None)
  | None =>
      match get_next_btc_address user rnd now d with
      | (d1, None) => (d1, None)
      | (d1, Some address) =>
          let usd := price_usd plan in
          if PrimFloat.eqb btc_price 0 then (d1, None)
          else
            let amount := PrimFloat.div usd btc_price in
            let expires := now + 60 * Config.PAYMENT_TIMEOUT_MINUTES in
            let '(d2, tx_id) :=
              create_transaction user (value plan) address amount usd
                btc_price (Some expires) now d1 in
            (d2, Some {| pay_id := tx_id;
                         pay_plan_type := value plan;
                         pay_btc_address := address;
                         pay_btc_amount := amount;
                         pay_usd_amount := usd;
                         pay_btc_price := btc_price;
                         pay_expires_at := expires |})
      end
  end.

(** The expiry of the subscription a confirmation creates; [None] both for
    the lifetime plan and when [PlanType(plan_type)] raises. *)
Definition subscription_expiry (now : Z) (p : PlanType) : option Z :=
  match duration_days p with
  | Some days => Some (now + 86400 * days)
  | None => None
  end.

(** [PaymentService.confirm_payment]: no caller in the repository.  It
    writes the status of the transaction it is handed without reading the
    stored one. *)
Definition confirm_payment (tx : Z * transaction) (now : Z) (d : db) : db * bool :=
  let d1 := update_transaction_status tx.1 CONFIRMED (Some now) d in
  match PlanType_of_value (plan_type tx.2) with
  | None => (d1, false)
  | Some p =>
      (create_subscription (user_id tx.2) (plan_type tx.2) tx.1
         (subscription_expiry now p) now d1, true)
  end.

End PaymentService.

(** ** bot/payment_checker.py *)

Module PaymentChecker.
Import Models Database Engine.

(** [confirm_payment]: the status is written first; a [plan_type] that is
    no [PlanType] raises before the subscription is created. *)
Definition confirm_payment (now : Z) (tx : Z * transaction) (d : db) : db :=
  let d1 := update_transaction_status tx.1 CONFIRMED (Some now) d in
  match PlanType_of_value (plan_type tx.2) with
  | None => d1
  | Some p =>
      create_subscription (user_id tx.2) (plan_type tx.2) tx.1
        (PaymentService.subscription_expiry now p) now d1
  end.

(** [check_single_payment] *)
Definition check_single_payment (w : world) (tx : Z * transaction) (s : state)
  : state :=
  let '(balance, log1) :=
    BtcApi.check_address_balance (net w) (btc_api w)
      (Some (btc_address tx.2)) (requests s) in
  let expected_amount := btc_amount tx.2 in
  if PrimFloat.leb expected_amount balance then
    let '(is_double_spend, log2) :=
      BtcApi.check_double_spend (net w) (Some (btc_address tx.2))
        expected_amount log1 in
    if is_double_spend
    then {| store := store s; requests := log2 |}
    else {| store := confirm_payment (now w) tx (store s); requests := log2 |}
  else {| store := store s; requests := log1 |}.

(** The body of the loop of [handle_expired_transactions]. *)
Definition expire_one (w : world) (s : state) (tx : Z * transaction) : state :=
  let '(balance, log1) :=
    BtcApi.check_address_balance (net w) (btc_api w)
      (Some (btc_address tx.2)) (requests s) in
  let d1 :=
    if PrimFloat.eqb balance 0
    then release_btc_address (btc_address tx.2) (store s)
    else store s in
  {| store := update_transaction_status tx.1 EXPIRED None d1;
     requests := log1 |}.

(** [SELECT * FROM transactions WHERE status = 'pending' AND expires_at <=
    CURRENT_TIMESTAMP] *)
Definition expired_transactions (now : Z) (d : db) : list (Z * transaction) :=
  filter (λ kv, is_pending kv.2 = true ∧ expires_at kv.2 ≤ now)
    (map_to_list (transactions d)).

(** [handle_expired_transactions] *)
Definition handle_expired_transactions (w : world) (s : state) : state :=
  foldl (expire_one w) s (expired_transactions (now w) (store s)).

(** [check_payments_job]: the balance pass over the pending transactions
    read at the start, then the expiry sweep. *)
Definition check_payments_job (w : world) (s : state) : state :=
  let pending_txs := get_pending_transactions (store s) in
  let s1 := foldl (λ acc tx, check_single_payment w tx acc) s pending_txs in
  handle_expired_transactions w s1.

End PaymentChecker.

(** ** bot/handlers.py *)

Module Handlers.
Import Models Database Engine.

(** The body of the loop of [cancel_plan]. *)
Definition cancel_one (w : world) (s : state) (tx : Z * transaction) : state :=
  let '(balance, log1) :=
    BtcApi.check_address_balance (net w) (btc_api w)
      (Some (btc_address tx.2)) (requests s) in
  let d1 :=
    if PrimFloat.eqb balance 0
    then release_btc_address (btc_address tx.2) (store s)
    else store s in
  {| store := update_transaction_status tx.1 CANCELLED None d1;
     requests := log1 |}.

(** [cancel_plan] *)
Definition cancel_plan (user : Z) (w : world) (s : state) : state :=
  let transactions := get_user_transactions user (store s) in
  let pending_transactions := filter (λ tx, is_pending tx.2 = true) transactions in
  foldl (cancel_one w) s pending_transactions.

(** What [initiate_purchase] shows. *)
Inductive purchase_outcome :=
| PriceUnavailable
| AlreadySubscribed
| ShowExisting (pending_tx : Z * transaction)
| ShowPayment (p : PaymentService.payment)
| PaymentFailed.

(** [initiate_purchase].  [plan] is the [PlanType] member that
    [handle_callback] builds; the [plan_type] of a stored row is a
    [str]. *)
Definition initiate_purchase (user : Z) (plan : PlanType) (w : world) (s : state)
  : state * purchase_outcome :=
  let '(btc_price, log1) :=
    BtcApi.get_btc_price (net w) (btc_api w) (requests s) in
  if PrimFloat.eqb btc_price 0
  then ({| store := store s; requests := log1 |}, PriceUnavailable)
  else
    let already :=
      match get_active_subscription user (now w) (store s) with
      | Some active => py_eq (PyStr (sub_plan_type active)) (PyPlanType plan)
      | None => false
      end in
    if already
    then ({| store := store s; requests := log1 |}, AlreadySubscribed)
    else
      let create d :=
        let '(d1, r) :=
          PaymentService.create_payment user plan btc_price (rnd w) (now w) d in
        ({| store := d1; requests := log1 |},
         match r with Some p => ShowPayment p | None => PaymentFailed end) in
      match get_pending_transaction user (store s) with
      | Some pending_tx =>
          if py_eq (PyStr (plan_type pending_tx.2)) (PyPlanType plan)
          then ({| store := store s; requests := log1 |}, ShowExisting pending_tx)
          else
            create
              (release_btc_address (btc_address pending_tx.2)
                 (update_transaction_status pending_tx.1 CANCELLED None (store s)))
      | None => create (store s)
      end.

End Handlers.

(** ** bot/admin.py *)

Module Admin.
Import Models Database.

(** [force_approve_transaction] *)
Definition force_approve_transaction (tx_id : Z) (now : Z) (d : db) : db :=
  match transactions d !! tx_id with
  | None => d
  | Some tx =>
      if negb (is_pending tx) then d
      else
        let d1 := update_transaction_status tx_id CONFIRMED (Some now) d in
        match PlanType_of_value (plan_type tx) with
        | None => d1
        | Some p =>
            create_subscription (user_id tx) (plan_type tx) tx_id
              (PaymentService.subscription_expiry now p) now d1
        end
  end.

(** [force_reject_transaction] *)
Definition force_reject_transaction (tx_id : Z) (d : db) : db :=
  match transactions d !! tx_id with
  | None => d
  | Some tx =>
      if negb (is_pending tx) then d
      else
        release_btc_address (btc_address tx)
          (update_transaction_status tx_id CANCELLED None d)
  end.

End Admin.

(** ** The entry points that write the store *)

Module Operations.
Import Models Database Engine.

(** The operations through which the bot changes the store: the periodic
    job, the two user actions, the allocator, the two admin overrides and
    the cleanup of [database.py]. Each carries what it is given from
    outside. *)
Inductive operation :=
| CheckPaymentsJob (w : world)
| CancelPlan (user : Z) (w : world)
| InitiatePurchase (user : Z) (plan : PlanType) (w : world)
| CreatePayment (user : Z) (plan : PlanType) (btc_price : float) (rnd : nat) (now : Z)
| ForceApprove (tx_id : Z) (now : Z)
| ForceReject (tx_id : Z)
| ExpireOldTransactions (now : Z).

Definition on_store (f : db → db) (s : state) : state :=
  {| store := f (store s); requests := requests s |}.

(** One operation, run from start to end with nothing in between. *)
Definition run (op : operation) (s : state) : state :=
  match op with
  | CheckPaymentsJob w => PaymentChecker.check_payments_job w s
  | CancelPlan user w => Handlers.cancel_plan user w s
  | InitiatePurchase user plan w => (Handlers.initiate_purchase user plan w s).1
  | CreatePayment user plan btc_price rnd now =>
      on_store (λ d, (PaymentService.create_payment user plan btc_price rnd now d).1) s
  | ForceApprove tx_id now => on_store (Admin.force_approve_transaction tx_id now) s
  | ForceReject tx_id => on_store (Admin.force_reject_transaction tx_id) s
  | ExpireOldTransactions now => on_store (λ d, (expire_old_transactions now d).1) s
  end.

(** A history of the bot: operations run one after another. *)
Definition run_all (ops : list operation) (s : state) : state :=
  foldl (λ acc op, run op acc) s ops.

End Operations.

(** ** Two calls of [get_next_btc_address] at once *)

Module Interleaving.
Import Database.

(** Where a call of [get_next_btc_address] stands.  Between two of these
    points the call runs one SQL statement, which the server executes as
    a unit; at each point the other call may run. *)
Inductive position :=
| AtPendingCheck
| AtSelect
| AtAssign (address : string)
| Returned (result : option string).

Record call := {
  caller : Z;
  draw : nat;
  at_position : position
}.

Definition start (user : Z) (rnd : nat) : call :=
  {| caller := user; draw := rnd; at_position := AtPendingCheck |}.

Definition move (c : call) (p : position) : call :=
  {| caller := caller c; draw := draw c; at_position := p |}.

(** The next statement of a call. *)
Definition step (now : Z) (c : call) (d : db) : call * db :=
  match at_position c with
  | AtPendingCheck =>
      match pending_address (caller c) d with
      | Some _ => (move c (Returned None), d)
      | None => (move c AtSelect, d)
      end
  | AtSelect =>
      match get_available_btc_address (draw c) d with
      | Some address => (move c (AtAssign address), d)
      | None => (move c (Returned None), d)
      end
  | AtAssign address =>
      let '(d1, success) := assign_btc_address address (caller c) now d in
      (move c (Returned (if success then Some address else None)), d1)
  | Returned _ => (c, d)
  end.

(** Two calls under a schedule: [true] lets the first call run its next
    statement, [false] the second. *)
Fixpoint interleave (now : Z) (schedule : list bool) (c1 c2 : call) (d : db)
  : call * call * db :=
  match schedule with
  | [] => (c1, c2, d)
  | true :: rest =>
      let '(c1', d') := step now c1 d in interleave now rest c1' c2 d'
  | false :: rest =>
      let '(c2', d') := step now c2 d in interleave now rest c1 c2' d'
  end.

End Interleaving.

(** ** Stores, networks and payloads used in the examples *)

Module Fixtures.
Import Models Database Engine BtcApi.

Definition address_A : string := "1AAAAAAAAAAAAAAAAAAAAAAAAAAAAAAAAA".
Definition address_B : string := "1BBBBBBBBBBBBBBBBBBBBBBBBBBBBBBBBB".

Definition source_1 : api :=
  {| url := "https://api.coingecko.com/api/v3/simple/price"; name := "API_1" |}.
Definition source_2 : api :=
  {| url := "https://api.binance.com/api/v3/ticker/price"; name := "API_2" |}.
Definition blockstream : api :=
  {| url := "https://blockstream.info/api"; name := "BLOCKCHAIN_API_1" |}.
Definition blockcypher : api :=
  {| url := "https://api.blockcypher.com/v1/btc/main"; name := "BLOCKCHAIN_API_2" |}.

(** A configuration with two price sources and two balance sources. *)
Definition sources (fallback : float) : BTCPriceAPI :=
  {| price_apis := [source_1; source_2];
     blockchain_apis := [blockstream; blockcypher];
     FALLBACK_BTC_PRICE := fallback |}.

(** Every request times out. *)
Definition net_down : network :=
  {| price_reply := λ _ _, TimeoutError;
     balance_reply := λ _ _, TimeoutError;
     history_reply := λ _ _, TimeoutError |}.

(** The first price source answers 0, the second 50000; every balance
    source reports [satoshis]; the history is [txs]. *)
Definition net_up (satoshis : Z) (txs : list tx_json) : network :=
  {| price_reply := λ n _, Response 200 (Some (if (n =? 0)%nat then 0%float else 50000%float));
     balance_reply := λ _ _, Response 200 (Some satoshis);
     history_reply := λ _ _, Response 200 (Some txs) |}.

(** A history answered with the given status and no readable body. *)
Definition net_history_status (status : Z) : network :=
  {| price_reply := λ _ _, TimeoutError;
     balance_reply := λ _ _, TimeoutError;
     history_reply := λ _ _, Response status None |}.

(** One transaction paying [satoshis] to [address_A]. *)
Definition pays (satoshis : Z) : tx_json :=
  Tx [Vin None] [Vout (Some address_A) (Some satoshis)].

Definition free_row : btc_address_row :=
  {| is_used := false; assigned_to := None; assigned_at := None |}.

(** A pool of two available addresses and nothing else. *)
Definition pool_AB : db :=
  {| btc_addresses := <[address_A := free_row]> (<[address_B := free_row]> ∅);
     transactions := ∅;
     subscriptions := [] |}.

(** Transaction 1: user 7 asked for [plan] at time 1000, at 50000 USD per
    BTC, and was given [address_A]. *)
Definition transaction_1 (plan : PlanType) (st : TransactionStatus) : transaction :=
  {| user_id := 7; plan_type := value plan; btc_address := address_A;
     btc_amount := PrimFloat.div (price_usd plan) 50000%float;
     usd_amount := price_usd plan; btc_rate := 50000%float;
     status := st; created_at := 1000; expires_at := 2800;
     confirmed_at := None |}.

(** The store after that request: [address_A] assigned to user 7,
    [address_B] available, transaction 1 in status [st]. *)
Definition store_1 (plan : PlanType) (st : TransactionStatus) : db :=
  {| btc_addresses :=
       <[address_A := {| is_used := true; assigned_to := Some 7;
                         assigned_at := Some 1000 |}]>
         (<[address_B := free_row]> ∅);
     transactions := <[1 := transaction_1 plan st]> ∅;
     subscriptions := [] |}.

(** The world at time [now]: the price is 50000, every balance source
    reports [satoshis], the history is empty, and the draw is [rnd]. *)
Definition world_at (now : Z) (rnd : nat) (satoshis : Z) : world :=
  {| net := net_up satoshis []; btc_api := sources default_fallback;
     rnd := rnd; now := now |}.

End Fixtures.

(** ** The vocabulary of the properties *)

Module Notions.
Import Models Database Engine BtcApi PaymentService Interleaving.

(** The price a reply is accepted with: status 200 and a parsed value that
    is strictly positive. *)
Definition accepted_price (r : http_reply float) : option float :=
  match r with
  | Response status (Some price) =>
      if (status =? 200) && PrimFloat.ltb 0 price then Some price else None
  | _ => None
  end.

(** The satoshis a reply is used with: status 200 and a body the source's
    parser could read. *)
Definition usable_balance (r : http_reply Z) : option Z :=
  match r with
  | Response status (Some satoshis) =>
      if status =? 200 then Some satoshis else None
  | _ => None
  end.

(** The outputs of a history that the code counts: directed at the address
    and within the code's tolerance of the expected amount. *)
Definition counted (address : string) (expected : float) (v : vout_json) : bool :=
  match v with
  | Vout a value => to_address address a && close_to expected (default 0 value)
  | VoutMalformed => false
  end.

Definition outputs (txs : list tx_json) : list vout_json :=
  concat (map (λ tx, match tx with Tx _ vouts => vouts | TxMalformed => [] end) txs).

Definition matching_outputs (address : string) (expected : float)
    (txs : list tx_json) : nat :=
  length (filter (λ v, counted address expected v = true) (outputs txs)).

(** No item of the history raises when it is read. *)
Definition well_formed_vout (v : vout_json) : bool :=
  match v with Vout _ _ => true | VoutMalformed => false end.

Definition well_formed_tx (tx : tx_json) : bool :=
  match tx with
  | Tx vins vouts => scan_vin vins && forallb well_formed_vout vouts
  | TxMalformed => false
  end.

Definition well_formed (txs : list tx_json) : bool := forallb well_formed_tx txs.

(** What the scan answers, read as the function's result. *)
Definition verdict (s : scan) : bool :=
  match s with
  | ReturnedTrue | Raised => true
  | Counted _ => false
  end.

(** The answer as a function of the reply to the one request made. *)
Definition answer_to (address : string) (expected : float)
    (r : http_reply (list tx_json)) : bool :=
  match r with
  | Response status payload =>
      if status =? 200 then
        match payload with
        | Some txs => verdict (scan_txs address expected txs 0)
        | None => true
        end
      else negb (status =? 404)
  | _ => true
  end.

(** The failures of the history request: a timeout, a connection error, any
    other exception, a status other than 200 and 404, a body that is not
    JSON, and a body with an item that cannot be read. *)
Definition fetch_failed (r : http_reply (list tx_json)) : bool :=
  match r with
  | Response status payload =>
      if status =? 200 then
        match payload with
        | Some txs => negb (well_formed txs)
        | None => true
        end
      else negb (status =? 404)
  | _ => true
  end.

(** The tolerance the comment in the code documents: one satoshi. *)
Definition within_one_satoshi (expected_satoshis amount_satoshis : Z) : Prop :=
  Z.abs (amount_satoshis - expected_satoshis) ≤ 1.

(** The address is in the pool and assigned. *)
Definition used (d : db) (address : string) : Prop :=
  ∃ r, btc_addresses d !! address = Some r ∧ is_used r = true.

(** The address is in the pool and available. *)
Definition free (d : db) (address : string) : Prop :=
  ∃ r, btc_addresses d !! address = Some r ∧ is_used r = false.

(** What holds between the two calls and the store at every point of a
    schedule: a returned address is assigned in the store, and the two
    calls have not returned the same address. *)
Definition consistent (c1 c2 : call) (d : db) : Prop :=
  (∀ a, at_position c1 = Returned (Some a) → used d a)
  ∧ (∀ a, at_position c2 = Returned (Some a) → used d a)
  ∧ (∀ a1 a2, at_position c1 = Returned (Some a1)
       → at_position c2 = Returned (Some a2) → a1 ≠ a2).

(** The user has a pending transaction. *)
Definition has_pending (user : Z) (d : db) : Prop :=
  ∃ i t, transactions d !! i = Some t ∧ user_id t = user ∧ status t = PENDING.

(** The user holds an active subscription at [now], for whatever plan. *)
Definition has_active (user : Z) (now : Z) (d : db) : Prop :=
  ∃ s, s ∈ subscriptions d ∧ is_active user now s = true.

(** The row and the dict of a payment created at [now]. *)
Definition new_transaction (user : Z) (plan : PlanType) (btc_price : float)
    (address : string) (now : Z) : transaction :=
  {| user_id := user; plan_type := value plan; btc_address := address;
     btc_amount := PrimFloat.div (price_usd plan) btc_price;
     usd_amount := price_usd plan; btc_rate := btc_price;
     status := PENDING; created_at := now;
     expires_at := now + 60 * Config.PAYMENT_TIMEOUT_MINUTES;
     confirmed_at := None |}.

Definition new_payment (tx_id : Z) (plan : PlanType) (btc_price : float)
    (address : string) (now : Z) : payment :=
  {| pay_id := tx_id; pay_plan_type := value plan; pay_btc_address := address;
     pay_btc_amount := PrimFloat.div (price_usd plan) btc_price;
     pay_usd_amount := price_usd plan; pay_btc_price := btc_price;
     pay_expires_at := now + 60 * Config.PAYMENT_TIMEOUT_MINUTES |}.

(** The balance the sweep or the handler observes for a transaction. *)
Definition observed_balance (w : world) (s : state) (tx : Z * transaction) : float :=
  (BtcApi.check_address_balance (net w) (btc_api w)
     (Some (btc_address tx.2)) (requests s)).1.

(** Every transaction that has left [pending] in [d] is the same row in
    [d']. *)
Definition settled_kept (d d' : db) : Prop :=
  ∀ i t, transactions d !! i = Some t → status t ≠ PENDING →
         transactions d' !! i = Some t.

(** [d'] has the transactions of [d], except for the row [i]. *)
Definition only_at (i : Z) (d d' : db) : Prop :=
  ∀ j, j ≠ i → transactions d' !! j = transactions d !! j.

(** No user has two pending transactions. *)
Definition single_pending (d : db) : Prop :=
  ∀ i j t u,
    transactions d !! i = Some t → transactions d !! j = Some u →
    status t = PENDING → status u = PENDING → user_id t = user_id u → i = j.

(** Every pending transaction of [d'] is the same pending transaction in
    [d]. *)
Definition no_new_pending (d d' : db) : Prop :=
  ∀ i t, transactions d' !! i = Some t → status t = PENDING →
         transactions d !! i = Some t.

End Notions.

(** ** database.py: the DECIMAL columns of [transactions] *)

Module Schema.
Import Models Database.

(** [n / d] rounded to the nearest integer, a tie going up, for
    [0 <= n] and [0 < d]. *)
Definition half_up (n d : Z) : Z := (2 * n + d) / (2 * d).

(** What a column of [scale] decimals makes of a float parameter, in
    units of [10 ^ - scale].  The driver sends the binary value as it is
    ([Decimal(x)]), and the server rounds it to [scale] decimals, a tie
    going away from zero.  [None] for an infinity, which no column with a
    precision holds, and for a NaN. *)
Definition scaled (scale : Z) (x : float) : option Z :=
  match Prim2SF x with
  | S754_zero _ => Some 0
  | S754_finite negative m e =>
      let n := Z.pos m * 10 ^ scale in
      let q := if 0 <=? e then n * 2 ^ e else half_up n (2 ^ (- e)) in
      Some (if negative then - q else q)
  | S754_infinity _ | S754_nan => None
  end.

(** [DECIMAL(precision, scale)] takes [x]: rounded to [scale] decimals
    it has at most [precision] digits.  Otherwise the [INSERT] raises
    (numeric field overflow). *)
Definition fits (precision scale : Z) (x : float) : bool :=
  match scaled scale x with
  | Some n => Z.abs n <? 10 ^ precision
  | None => false
  end.

(** The three amounts [create_payment] inserts are taken by their
    columns: [btc_amount DECIMAL(16,8)], [usd_amount DECIMAL(10,2)] and
    [btc_rate DECIMAL(12,2)]. *)
Definition storable (plan : PlanType) (btc_price : float) : bool :=
  fits 16 8 (PrimFloat.div (price_usd plan) btc_price)
  && fits 10 2 (price_usd plan)
  && fits 12 2 btc_price.

(** The row of a payment created at [now] for [address], the three
    amounts apart, which the columns round. *)
Definition created_row (user : Z) (plan : PlanType) (address : string)
    (now : Z) (t : transaction) : Prop :=
  user_id t = user ∧ plan_type t = value plan ∧ btc_address t = address
  ∧ status t = PENDING ∧ created_at t = now
  ∧ expires_at t = now + 60 * Config.PAYMENT_TIMEOUT_MINUTES
  ∧ confirmed_at t = None.

End Schema.

(** ** database.py: seeding the pool and cleaning up *)

Module Maintenance.
Import Models Database.

(** [INSERT INTO btc_addresses (address) VALUES ($1) ON CONFLICT DO
    NOTHING]: the new row takes the column defaults. *)
Definition insert_address (d : db) (address : string) : db :=
  match btc_addresses d !! address with
  | Some _ => d
  | None =>
      set_btc_addresses
        (<[address := {| is_used := false; assigned_to := None;
                         assigned_at := None |}]> (btc_addresses d)) d
  end.

(** [s.split(sep)] for a separator of one character. *)
Fixpoint split_on (sep : Ascii.ascii) (s : string) : list string :=
  match s with
  | EmptyString => [EmptyString]
  | String c rest =>
      if Ascii.eqb c sep then EmptyString :: split_on sep rest
      else match split_on sep rest with
           | [] => [String c EmptyString]
           | first :: others => String c first :: others
           end
  end.

(** The character [","]. *)
Definition comma : Ascii.ascii := Ascii.ascii_of_nat 44.

Section Loading.

(** [str.strip]: what it removes is not modelled; the code below uses only
    its result. *)
Variable strip : string → string.

(** [[x.strip() for x in items if x.strip()]] *)
Definition cleaned (items : list string) : list string :=
  map strip (filter (λ x, strip x ≠ "") items).

(** The addresses [init_btc_addresses] collects: the lines of the
    addresses file ([None] when there is no file or it cannot be read),
    then the entries of [BTC_ADDRESSES] (the empty string when unset). *)
Definition load_addresses (file_lines : option (list string)) (env : string)
  : list string :=
  (match file_lines with
   | Some lines => cleaned lines
   | None => []
   end ++ cleaned (split_on comma env))%list.

(** [init_btc_addresses]: every collected address is inserted unless it is
    already a row (the batches of 1000 are one after another). *)
Definition init_btc_addresses (file_lines : option (list string)) (env : string)
    (d : db) : db :=
  foldl insert_address d (load_addresses file_lines env).

End Loading.

(** The subscriptions [expire_subscriptions] marks: active, with an expiry
    that is before [now]. *)
Definition overdue (now : Z) (s : subscription) : bool :=
  match sub_status s, sub_expires_at s with
  | ACTIVE, Some e => e <? now
  | _, _ => false
  end.

(** [expire_subscriptions]: the [UPDATE subscriptions SET status =
    'expired' WHERE status = 'active' AND expires_at IS NOT NULL AND
    expires_at < CURRENT_TIMESTAMP]; the result is the number of rows
    updated. *)
Definition expire_subscriptions (now : Z) (d : db) : db * nat :=
  (set_subscriptions
     (map (λ s, if overdue now s
                then {| sub_user_id := sub_user_id s;
                        sub_plan_type := sub_plan_type s;
                        sub_transaction_id := sub_transaction_id s;
                        sub_status := SUB_EXPIRED;
                        sub_created_at := sub_created_at s;
                        sub_expires_at := sub_expires_at s |}
                else s)
        (subscriptions d)) d,
   length (filter (λ s, overdue now s = true) (subscriptions d))).

(** [cleanup_database]: the two statements run one after the other, each
    with its own [CURRENT_TIMESTAMP]. *)
Definition cleanup_database (now_txs now_subs : Z) (d : db) : db * (nat * nat) :=
  let '(d1, expired_txs) := expire_old_transactions now_txs d in
  let '(d2, expired_subs) := expire_subscriptions now_subs d1 in
  (d2, (expired_txs, expired_subs)).

End Maintenance.

(** ** bot/btc_api.py: masking addresses in the log *)

Module Logging.

(** [SecureBTCLogger.mask_address] *)
Definition mask_address (address : string) : string :=
  if (16 <? String.length address)%nat
  then substring 0 8 address ++ "***MASKED***"
       ++ substring (String.length address - 4) 4 address
  else "***MASKED***".

(** [if address:] on an argument that is [None] or a [str]. *)
Definition given (address : option string) : option string :=
  match address with
  | Some a => if String.eqb a "" then None else Some a
  | None => None
  end.

(** [SecureBTCLogger.log_api_call]: the line handed to [logger.debug]. *)
Definition log_api_call (url : string) (address : option string) : string :=
  match given address with
  | Some a => "BTC API call to " ++ url ++ " for address " ++ mask_address a
  | None => "BTC price API call to " ++ url
  end.

(** [SecureBTCLogger.log_error]: the line handed to [logger.warning]. *)
Definition log_error (error : string) (address : option string) : string :=
  match given address with
  | Some a => "BTC API error for address " ++ mask_address a ++ ": " ++ error
  | None => "BTC API error: " ++ error
  end.

(** The lines of [check_address_balance]: the call to a source, and the
    error when the source times out. *)
Definition balance_call_line (u : string) (address : string) : string :=
  log_api_call u (Some address).

Definition balance_timeout_line (a : BtcApi.api) (address : string) : string :=
  log_error (BtcApi.name a ++ " timed out for address " ++ address)
    (Some address).

(** The string occurs in the line. *)
Definition occurs_in (part line : string) : Prop :=
  ∃ before after, line = before ++ part ++ after.

End Logging.

(** ** The store over a history of the bot *)

Module Lifecycle.
Import Models Database Engine Operations Maintenance Notions.

(** A row with its status replaced. *)
Definition with_status (st : TransactionStatus) (t : transaction) : transaction :=
  {| user_id := user_id t; plan_type := plan_type t;
     btc_address := btc_address t; btc_amount := btc_amount t;
     usd_amount := usd_amount t; btc_rate := btc_rate t;
     status := st; created_at := created_at t; expires_at := expires_at t;
     confirmed_at := confirmed_at t |}.

(** A row confirmed at [now]. *)
Definition confirmed (now : Z) (t : transaction) : transaction :=
  {| user_id := user_id t; plan_type := plan_type t;
     btc_address := btc_address t; btc_amount := btc_amount t;
     usd_amount := usd_amount t; btc_rate := btc_rate t;
     status := CONFIRMED; created_at := created_at t;
     expires_at := expires_at t; confirmed_at := Some now |}.

(** A subscription row marked expired. *)
Definition sub_expired (s : subscription) : subscription :=
  {| sub_user_id := sub_user_id s; sub_plan_type := sub_plan_type s;
     sub_transaction_id := sub_transaction_id s; sub_status := SUB_EXPIRED;
     sub_created_at := sub_created_at s; sub_expires_at := sub_expires_at s |}.

(** The subscription a confirmation at [now] creates for the row [t] of
    id [i]. *)
Definition granted (now : Z) (i : Z) (t : transaction) (p : PlanType)
  : subscription :=
  {| sub_user_id := user_id t; sub_plan_type := plan_type t;
     sub_transaction_id := i; sub_status := ACTIVE; sub_created_at := now;
     sub_expires_at := PaymentService.subscription_expiry now p |}.

(** The kinds of change the store goes through: an available address is
    assigned and a pending transaction created on it, for a user who has
    none; an available address is assigned with no transaction; a pending
    transaction is expired or cancelled, its address released or not; a
    pending transaction is confirmed; an address is added to the pool;
    the overdue subscriptions are marked. *)
Inductive change : db → db → Prop :=
| Allocate user (plan : PlanType) address amount usd rate expires now d :
    ¬ has_pending user d → free d address →
    change d
      (create_transaction user (value plan) address amount usd rate expires
         now (assign_btc_address address user now d).1).1
| Reserve user address now d :
    free d address →
    change d (assign_btc_address address user now d).1
| Retire i t st (released : bool) d :
    transactions d !! i = Some t → status t = PENDING →
    st = EXPIRED ∨ st = CANCELLED →
    change d
      (update_transaction_status i st None
         (if released then release_btc_address (btc_address t) d else d))
| Confirm i t now d :
    transactions d !! i = Some t → status t = PENDING →
    change d (PaymentChecker.confirm_payment now (i, t) d)
| Seed address d :
    change d (insert_address d address)
| MarkOverdue now d :
    change d (expire_subscriptions now d).1.

(** What happens to the store: an operation of the bot, the seeding of the
    pool at start-up, and the two cleanups of [database.py]. *)
Inductive event :=
| Run (op : operation)
| InitBtcAddresses (strip : string → string) (file_lines : option (list string))
    (env : string)
| ExpireSubscriptions (now : Z)
| CleanupDatabase (now_txs now_subs : Z).

Definition occur (e : event) (s : state) : state :=
  match e with
  | Run op => run op s
  | InitBtcAddresses strip file_lines env =>
      on_store (init_btc_addresses strip file_lines env) s
  | ExpireSubscriptions now => on_store (λ d, (expire_subscriptions now d).1) s
  | CleanupDatabase now_txs now_subs =>
      on_store (λ d, (cleanup_database now_txs now_subs d).1) s
  end.

(** Events one after another. *)
Definition history (es : list event) (s : state) : state :=
  foldl (λ acc e, occur e acc) s es.

(** The transaction keeps its address from other buyers: it awaits
    payment or has been paid. *)
Definition holds_address (t : transaction) : bool :=
  match status t with
  | PENDING | CONFIRMED => true
  | _ => false
  end.

(** Every transaction that awaits payment or has been paid has its address
    marked as used in the pool and assigned to its user, and no two such
    transactions have the same address. *)
Definition exclusive (d : db) : Prop :=
  (∀ i t, transactions d !! i = Some t → holds_address t = true →
     ∃ r, btc_addresses d !! btc_address t = Some r
          ∧ is_used r = true ∧ assigned_to r = Some (user_id t))
  ∧ (∀ i j t u, transactions d !! i = Some t → transactions d !! j = Some u →
       holds_address t = true → holds_address u = true →
       btc_address t = btc_address u → i = j).

(** Every subscription was created for a transaction that is confirmed,
    of the same user and plan, and no transaction has two subscriptions. *)
Definition backed (d : db) : Prop :=
  (∀ s, s ∈ subscriptions d →
     ∃ t, transactions d !! sub_transaction_id s = Some t
          ∧ status t = CONFIRMED
          ∧ user_id t = sub_user_id s ∧ plan_type t = sub_plan_type s)
  ∧ NoDup (map sub_transaction_id (subscriptions d)).

(** Every transaction is for one of the plans, and every confirmed
    transaction has a subscription. *)
Definition served (d : db) : Prop :=
  ∀ i t, transactions d !! i = Some t →
    is_Some (PlanType_of_value (plan_type t))
    ∧ (status t = CONFIRMED →
       ∃ s, s ∈ subscriptions d ∧ sub_transaction_id s = i).

(** The transaction is pending and its deadline is before [now]: what
    [expire_old_transactions] selects. *)
Definition lapsed (now : Z) (t : transaction) : bool :=
  is_pending t && (expires_at t <? now).

(** The transaction is pending and its deadline is [now] or before: what
    [handle_expired_transactions] selects. *)
Definition due (now : Z) (t : transaction) : bool :=
  is_pending t && (expires_at t <=? now).

(** The transaction is a pending one of the user: what [cancel_plan]
    selects. *)
Definition pending_of (user : Z) (t : transaction) : bool :=
  (user_id t =? user) && is_pending t.

(** What [check_single_payment] decides for a transaction when the
    requests sent so far are [log]: the balance of its address covers the
    expected amount and the double-spend detector does not object. *)
Definition paid (w : world) (log : list string) (t : transaction) : bool :=
  let '(balance, log1) :=
    BtcApi.check_address_balance (net w) (btc_api w)
      (Some (btc_address t)) log in
  PrimFloat.leb (btc_amount t) balance
  && negb (BtcApi.check_double_spend (net w) (Some (btc_address t))
             (btc_amount t) log1).1.

(** The subscription is in force at [now']: it was granted at [now] for
    the plan [p] and has not run out, or is for life. *)
Definition in_force (now : Z) (p : PlanType) (now' : Z) : Prop :=
  match duration_days p with
  | Some days => now' < now + 86400 * days
  | None => True
  end.

End Lifecycle.

(** ** bot/payment_checker.py and main.py: the alerts *)

Module Alerts.
Import Models Database.

(** A row of [users], as far as the alerts read it. *)
Record user_row := {
  u_user_id : Z;
  u_first_name : string;
  u_username : option string;
  u_created_at : Z
}.

(** [users u LEFT JOIN transactions t ON u.user_id = t.user_id]: a user
    with no transaction gives one row with no [t]. *)
Definition left_join (users : list user_row) (d : db)
  : list (user_row * option (Z * transaction)) :=
  concat
    (map (λ u,
            match filter (λ kv : Z * transaction, user_id kv.2 = u_user_id u)
                    (map_to_list (transactions d)) with
            | [] => [(u, None)]
            | rows => map (λ kv, (u, Some kv)) rows
            end)
       users).

Definition newer_user_first (a b : user_row * option (Z * transaction)) : Prop :=
  u_created_at b.1 ≤ u_created_at a.1.

#[global] Instance newer_user_first_dec a b : Decision (newer_user_first a b).
Proof. unfold newer_user_first. apply _. Defined.

(** The [WHERE] of the query of [notify_admin_unpaid_users], with
    [INTERVAL '10 minutes'] as 600 seconds. *)
Definition unpaid_where (now : Z) (row : user_row * option (Z * transaction))
  : Prop :=
  now - 600 ≤ u_created_at row.1 ∧ u_created_at row.1 ≤ now - 600
  ∧ match row.2 with
    | None => True
    | Some kv => is_pending kv.2 = true
    end.

#[global] Instance unpaid_where_dec now row : Decision (unpaid_where now row).
Proof. unfold unpaid_where. destruct (row.2) as [kv|]; apply _. Defined.

(** The query of [notify_admin_unpaid_users]: [ORDER BY u.created_at DESC
    LIMIT 5]. *)
Definition unpaid_users (now : Z) (users : list user_row) (d : db)
  : list user_row :=
  (take 5 (merge_sort newer_user_first
             (filter (unpaid_where now) (left_join users d)))).*1.

(** The [WHERE] of the query of [run_all_alert_checks]: [confirmed_at
    BETWEEN now - 40 minutes AND now - 35 minutes]; a missing
    [confirmed_at] is [NULL], which is in no range. *)
Definition reminder_where (now : Z) (kv : Z * transaction) : Prop :=
  TransactionStatus_eqb (status kv.2) CONFIRMED = true
  ∧ match confirmed_at kv.2 with
    | Some c => now - 2400 ≤ c ∧ c ≤ now - 2100
    | None => False
    end.

#[global] Instance reminder_where_dec now kv : Decision (reminder_where now kv).
Proof. unfold reminder_where. destruct (confirmed_at kv.2); apply _. Defined.

(** The transactions [run_all_alert_checks] sends the reminder for. *)
Definition reminder_txs (now : Z) (d : db) : list (Z * transaction) :=
  filter (reminder_where now) (map_to_list (transactions d)).

(** [scheduler.add_job(run_all_alert_checks, 'interval', minutes=5)]: the
    time of the run number [k], counted from 1, of a scheduler started at
    [start]. *)
Definition alert_time (start : Z) (k : Z) : Z := start + 300 * k.

End Alerts.

(** ** bot/handlers.py and bot/admin.py: the callbacks *)

Module Callbacks.
Import Models Database Engine Maintenance.

(** What [handle_admin_callback] does with a callback. *)
Inductive admin_action :=
| Denied
| ShowAllUsers
| ShowTotalProfits
| ShowPendingTransactions
| ShowStatistics
| ShowForceActions
| ShowAlerts
| ShowPlanBreakdown
| ForceApprove (tx_id : Z)
| ForceReject (tx_id : Z)
| AdminMainMenu
| AdminRaised
| AdminNothing.

(** What [handle_callback] does with a callback. *)
Inductive action :=
| ToAdmin (a : admin_action)
| ShowComparePlans
| ShowDashboard
| CancelPlan
| ShowSupport
| InitiatePurchase (p : PlanType)
| Raised
| ViewPendingTransaction
| BackToMain
| RequestAdminAccess
| HandleRefresh
| HandleCopyAddress
| Nothing.

(** The character ["_"]. *)
Definition underscore : Ascii.ascii := Ascii.ascii_of_nat 95.

(** [data.split("_")[n]]; [None] is the [IndexError]. *)
Definition segment (n : nat) (data : string) : option string :=
  split_on underscore data !! n.

Section Routing.

(** [str.upper] and [int(s)] ([None] is its [ValueError]): the code below
    uses only their results. *)
Variable upper : string → string.
Variable int : string → option Z.

(** [handle_admin_callback]; [admin_id] is [int(os.getenv("ADMIN_USER_ID",
    0))]. *)
Definition handle_admin_callback (admin_id user_id : Z) (data : string)
  : admin_action :=
  if negb (user_id =? admin_id) then Denied
  else if String.eqb data "admin_users" then ShowAllUsers
  else if String.eqb data "admin_profits" then ShowTotalProfits
  else if String.eqb data "admin_pending" then ShowPendingTransactions
  else if String.eqb data "admin_stats" then ShowStatistics
  else if String.eqb data "admin_force" then ShowForceActions
  else if String.eqb data "admin_alerts" then ShowAlerts
  else if String.eqb data "admin_plan_breakdown" then ShowPlanBreakdown
  else if String.prefix "force_approve_" data then
    match segment 2 data with
    | Some x => match int x with
                | Some tx_id => ForceApprove tx_id
                | None => AdminRaised
                end
    | None => AdminRaised
    end
  else if String.prefix "force_reject_" data then
    match segment 2 data with
    | Some x => match int x with
                | Some tx_id => ForceReject tx_id
                | None => AdminRaised
                end
    | None => AdminRaised
    end
  else if String.eqb data "admin_back" then AdminMainMenu
  else AdminNothing.

(** [handle_callback] *)
Definition handle_callback (admin_id user_id : Z) (data : string) : action :=
  if String.prefix "admin_" data || String.prefix "force_" data
  then ToAdmin (handle_admin_callback admin_id user_id data)
  else if String.eqb data "compare_plans" then ShowComparePlans
  else if String.eqb data "dashboard" then ShowDashboard
  else if String.eqb data "cancel_plan" then CancelPlan
  else if String.eqb data "support" then ShowSupport
  else if String.prefix "buy_" data then
    match segment 1 data with
    | Some x => match PlanType_of_value (upper x) with
                | Some p => InitiatePurchase p
                | None => Raised
                end
    | None => Raised
    end
  else if String.eqb data "view_pending" then ViewPendingTransaction
  else if String.eqb data "back_to_main" then BackToMain
  else if String.eqb data "request_admin_access" then RequestAdminAccess
  else if String.eqb data "refresh" then HandleRefresh
  else if String.prefix "copy_address_" data then HandleCopyAddress
  else Nothing.

End Routing.

(** What an action does to the store: only the cancellation, the
    purchase and the two admin overrides write. *)
Definition perform (a : action) (user_id : Z) (w : world) (s : state) : state :=
  match a with
  | CancelPlan => Handlers.cancel_plan user_id w s
  | InitiatePurchase p => (Handlers.initiate_purchase user_id p w s).1
  | ToAdmin (ForceApprove tx_id) =>
      Operations.on_store (Admin.force_approve_transaction tx_id (now w)) s
  | ToAdmin (ForceReject tx_id) =>
      Operations.on_store (Admin.force_reject_transaction tx_id) s
  | _ => s
  end.

End Callbacks.

(** * Properties *)

(** ** bot/btc_api.py: the price oracle *)

Module PriceFacts.
Import BtcApi Notions.

Lemma price_from_accepted net apis fallback log :
  (price_from net apis fallback log).1 = fallback
  ∨ ∃ n a, a ∈ apis
      ∧ accepted_price (price_reply net n (url a))
        = Some (price_from net apis fallback log).1.
Proof.
  revert log. induction apis as [|a rest IH]; intros log; simpl.
  - by left.
  - assert (Hrest : ∀ log1,
        (price_from net rest fallback log1).1 = fallback
        ∨ ∃ n a0, a0 ∈ a :: rest
            ∧ accepted_price (price_reply net n (url a0))
              = Some (price_from net rest fallback log1).1).
    { intros log1. destruct (IH log1) as [H|(n & a0 & Hin & H)]; [by left|].
      right. exists n, a0. split; [by apply list_elem_of_further|done]. }
    destruct (price_reply net (length log) (url a)) as [status [price|]| | |] eqn:E;
      try apply Hrest.
    destruct ((status =? 200) && PrimFloat.ltb 0 price) eqn:Hok; [|apply Hrest].
    right. exists (length log), a. split; [apply list_elem_of_here|].
    rewrite E. simpl. by rewrite Hok.
Qed.

Lemma accepted_price_positive r price :
  accepted_price r = Some price → PrimFloat.ltb 0 price = true.
Proof.
  destruct r as [status [p|]| | |]; simpl; try done.
  destruct ((status =? 200) && PrimFloat.ltb 0 p) eqn:Hok; [|done].
  intros [= <-]. by apply andb_prop in Hok as [_ ?].
Qed.

Lemma price_from_exhausted net apis fallback log :
  (∀ n a, a ∈ apis → accepted_price (price_reply net n (url a)) = None) →
  price_from net apis fallback log
  = (fallback, (log ++ map url apis)%list).
Proof.
  revert log. induction apis as [|a rest IH]; intros log Hnone; simpl.
  - by rewrite app_nil_r.
  - assert (Hrest : price_from net rest fallback (log ++ [url a])
                    = (fallback, (log ++ url a :: map url rest)%list)).
    { rewrite IH; [by rewrite <- app_assoc|].
      intros n a0 Hin. apply Hnone. by apply list_elem_of_further. }
    specialize (Hnone (length log) a (list_elem_of_here _ _)).
    destruct (price_reply net (length log) (url a)) as [status [price|]| | |];
      try exact Hrest.
    simpl in Hnone.
    destruct ((status =? 200) && PrimFloat.ltb 0 price); [done|exact Hrest].
Qed.

(** C6 as stated fails: with no source answering and a configured fallback
    of 0, [get_btc_price] returns 0, which is not positive. *)
Lemma get_btc_price_returns_nonpositive_fallback :
  (get_btc_price Fixtures.net_down (Fixtures.sources 0%float) []).1 = 0%float
  ∧ PrimFloat.ltb 0 (get_btc_price Fixtures.net_down (Fixtures.sources 0%float) []).1
    = false.
Proof. split; reflexivity. Qed.

(** C6, amended: [get_btc_price] returns either a price that one of the
    configured sources reported with status 200 and that is strictly
    positive, or the configured fallback; when no source gives an accepted
    price it returns exactly the fallback, after asking every source in
    order; so the result is positive whenever the configured fallback
    is. *)
Theorem get_btc_price_accepted_or_fallback net self log :
  let price := (get_btc_price net self log).1 in
  (price = FALLBACK_BTC_PRICE self
   ∨ ∃ n a, a ∈ price_apis self
       ∧ accepted_price (price_reply net n (url a)) = Some price
       ∧ PrimFloat.ltb 0 price = true)
  ∧ ((∀ n a, a ∈ price_apis self
        → accepted_price (price_reply net n (url a)) = None)
     → get_btc_price net self log
       = (FALLBACK_BTC_PRICE self, (log ++ map url (price_apis self))%list))
  ∧ (PrimFloat.ltb 0 (FALLBACK_BTC_PRICE self) = true
     → PrimFloat.ltb 0 price = true).
Proof.
  unfold get_btc_price. simpl.
  pose proof (price_from_accepted net (price_apis self)
                (FALLBACK_BTC_PRICE self) log) as Hcases.
  split; [|split].
  - destruct Hcases as [H|(n & a & Hin & H)]; [by left|].
    right. exists n, a. eauto using accepted_price_positive.
  - apply price_from_exhausted.
  - intros Hpos. destruct Hcases as [->|(n & a & _ & H)]; [done|].
    eauto using accepted_price_positive.
Qed.

(** The amended C6 on two configurations: the second source's 50000 is
    returned when the first answers 0, and the default fallback is
    returned, and is positive, when every source times out. *)
Lemma get_btc_price_accepted_or_fallback_witness :
  PrimFloat.ltb 0
    (get_btc_price Fixtures.net_down (Fixtures.sources default_fallback) []).1
  = true
  ∧ get_btc_price Fixtures.net_down (Fixtures.sources default_fallback) []
    = (default_fallback,
       [url Fixtures.source_1; url Fixtures.source_2])
  ∧ (get_btc_price (Fixtures.net_up 0 []) (Fixtures.sources default_fallback) []).1
    = 50000%float.
Proof.
  pose proof (get_btc_price_accepted_or_fallback Fixtures.net_down
                (Fixtures.sources default_fallback) []) as (_ & Hall & Hpos).
  split; [|split].
  - apply Hpos. reflexivity.
  - apply Hall. intros n a _. reflexivity.
  - reflexivity.
Defined.

End PriceFacts.

(** ** bot/btc_api.py: the balance oracle *)

Module BalanceFacts.
Import BtcApi Notions.

Lemma balance_from_exhausted net apis address log :
  (∀ n a u, a ∈ apis → balance_url a address = Some u
     → usable_balance (balance_reply net n u) = None) →
  (balance_from net apis address log).1 = 0%float.
Proof.
  revert log. induction apis as [|a rest IH]; intros log Hnone; simpl; [done|].
  assert (Hrest : ∀ log1, (balance_from net rest address log1).1 = 0%float).
  { intros log1. apply IH. intros n a0 u Hin. apply Hnone.
    by apply list_elem_of_further. }
  destruct (balance_url a address) as [u|] eqn:Hu; [|apply Hrest].
  specialize (Hnone (length log) a u (list_elem_of_here _ _) Hu).
  destruct (balance_reply net (length log) u) as [status [satoshis|]| | |];
    try apply Hrest.
  simpl in Hnone. destruct (status =? 200); [done|apply Hrest].
Qed.

(** The first usable reply is the answer. *)
Lemma balance_from_first_usable net a rest address log u satoshis :
  balance_url a address = Some u →
  usable_balance (balance_reply net (length log) u) = Some satoshis →
  balance_from net (a :: rest) address log
  = (Py.truediv_int satoshis 100000000, (log ++ [u])%list).
Proof.
  intros Hu Hok. simpl. rewrite Hu.
  destruct (balance_reply net (length log) u) as [status [s|]| | |];
    simpl in Hok; try done.
  destruct (status =? 200); [|done]. by injection Hok as ->.
Qed.

(** C8: [check_address_balance] answers 0.0 at once, with no request sent,
    for a missing address and for every address of fewer than 26
    characters; and it answers 0.0 when no configured source gives a
    usable reply (status 200 with a readable body) to the request made to
    it. *)
Theorem check_address_balance_short_or_exhausted net self log :
  check_address_balance net self None log = (0%float, log)
  ∧ (∀ a, (String.length a < 26)%nat
       → check_address_balance net self (Some a) log = (0%float, log))
  ∧ (∀ a, (∀ n src u, src ∈ blockchain_apis self
             → balance_url src a = Some u
             → usable_balance (balance_reply net n u) = None)
       → (check_address_balance net self (Some a) log).1 = 0%float).
Proof.
  split; [done|split].
  - intros a Hshort. unfold check_address_balance.
    by apply Nat.ltb_lt in Hshort as ->.
  - intros a Hnone. unfold check_address_balance.
    destruct (String.length a <? 26)%nat; [done|].
    by apply balance_from_exhausted.
Qed.

(** C8 on an address of 5 characters, and on a 34-character address when
    every balance source times out. *)
Lemma check_address_balance_short_or_exhausted_witness :
  check_address_balance (Fixtures.net_up 50000 [])
    (Fixtures.sources default_fallback) (Some "1Abcd") []
  = (0%float, [])
  ∧ (check_address_balance Fixtures.net_down
       (Fixtures.sources default_fallback) (Some Fixtures.address_A) []).1
    = 0%float.
Proof.
  pose proof (check_address_balance_short_or_exhausted (Fixtures.net_up 50000 [])
                (Fixtures.sources default_fallback) []) as (_ & Hshort & _).
  pose proof (check_address_balance_short_or_exhausted Fixtures.net_down
                (Fixtures.sources default_fallback) []) as (_ & _ & Hnone).
  split.
  - apply Hshort. simpl. lia.
  - apply Hnone. intros n src u _ _. reflexivity.
Defined.

(** A usable reply is divided by 10^8: 50000 satoshis are 0.0005 BTC. *)
Example check_address_balance_usable :
  check_address_balance (Fixtures.net_up 50000 [])
    (Fixtures.sources default_fallback) (Some Fixtures.address_A) []
  = (0.0005%float,
     ["https://blockstream.info/api/address/1AAAAAAAAAAAAAAAAAAAAAAAAAAAAAAAAA/utxo"]).
Proof. reflexivity. Qed.

End BalanceFacts.

(** ** bot/btc_api.py: the double-spend detector *)

Module DoubleSpendFacts.
Import BtcApi Notions.

Lemma scan_vout_counts address expected vouts count :
  forallb well_formed_vout vouts = true →
  (count ≤ 1)%nat →
  let total :=
    (count + length (filter (λ v, counted address expected v = true) vouts))%nat in
  scan_vout address expected vouts count
  = if (2 <=? total)%nat then ReturnedTrue else Counted total.
Proof.
  revert count. induction vouts as [|v rest IH]; intros count Hwf Hcount; simpl.
  - rewrite Nat.add_0_r. by destruct count as [|[|?]]; [..|lia].
  - destruct v as [a value|]; [|done]. simpl in Hwf.
    rewrite filter_cons. simpl.
    destruct (to_address address a && close_to expected (default 0 value)) eqn:Hm.
    + rewrite decide_True by done. simpl length.
      destruct count as [|[|?]]; [| |lia].
      * rewrite IH by (done || lia). by rewrite Nat.add_succ_r.
      * by rewrite Nat.add_succ_r.
    + rewrite decide_False by (by rewrite not_true_iff_false). by apply IH.
Qed.

Lemma scan_vout_malformed address expected vouts count :
  forallb well_formed_vout vouts = false →
  verdict (scan_vout address expected vouts count) = true.
Proof.
  revert count. induction vouts as [|v rest IH]; intros count Hbad; simpl in *.
  - done.
  - destruct v as [a value|]; [|done]. simpl in Hbad.
    destruct (to_address address a && close_to expected (default 0 value)).
    + destruct (1 <? S count)%nat; [done|by apply IH].
    + by apply IH.
Qed.

Lemma scan_txs_counts address expected txs count :
  well_formed txs = true →
  (count ≤ 1)%nat →
  let total := (count + matching_outputs address expected txs)%nat in
  scan_txs address expected txs count
  = if (2 <=? total)%nat then ReturnedTrue else Counted total.
Proof.
  unfold matching_outputs, outputs.
  revert count. induction txs as [|tx rest IH]; intros count Hwf Hcount; simpl.
  - rewrite Nat.add_0_r. by destruct count as [|[|?]]; [..|lia].
  - destruct tx as [vins vouts|]; [|done]. simpl in Hwf.
    apply andb_prop in Hwf as [Htx Hrest]. apply andb_prop in Htx as [-> Hvouts].
    rewrite filter_app, length_app.
    rewrite scan_vout_counts by done. cbv zeta.
    set (here := length (filter _ vouts)).
    set (later := length (filter _ (concat _))).
    destruct (2 <=? count + here)%nat eqn:Hhere.
    + apply Nat.leb_le in Hhere.
      by destruct (count + (here + later))%nat as [|[|?]] eqn:E; [lia..|].
    + apply Nat.leb_gt in Hhere.
      rewrite IH by (done || lia). cbv zeta. fold later.
      by rewrite Nat.add_assoc.
Qed.

Lemma scan_txs_malformed address expected txs count :
  well_formed txs = false →
  verdict (scan_txs address expected txs count) = true.
Proof.
  revert count. induction txs as [|tx rest IH]; intros count Hbad; simpl in *.
  - done.
  - destruct tx as [vins vouts|]; [|done]. simpl in Hbad.
    destruct (scan_vin vins); [|done]. simpl in Hbad.
    destruct (forallb well_formed_vout vouts) eqn:Hvouts; simpl in Hbad.
    + destruct (scan_vout address expected vouts count); try done. by apply IH.
    + pose proof (scan_vout_malformed address expected vouts count Hvouts) as Hv.
      by destruct (scan_vout address expected vouts count).
Qed.

Lemma check_double_spend_answer net a expected log :
  a ≠ "" →
  check_double_spend net (Some a) expected log
  = (answer_to a expected (history_reply net (length log) (history_url a)),
     (log ++ [history_url a])%list).
Proof.
  intros Ha. unfold check_double_spend.
  apply String.eqb_neq in Ha as ->.
  destruct (history_reply net (length log) (history_url a))
    as [status [txs|]| | |]; simpl; try done.
  - destruct (status =? 200); [|by destruct (status =? 404)].
    by destruct (scan_txs a expected txs 0).
  - destruct (status =? 200); [done|by destruct (status =? 404)].
Qed.

(** On a readable history the detector answers true exactly when two or
    more outputs to the address are within the code's tolerance of the
    expected amount. *)
Lemma check_double_spend_counts net a expected log txs :
  a ≠ "" →
  history_reply net (length log) (history_url a) = Response 200 (Some txs) →
  well_formed txs = true →
  (check_double_spend net (Some a) expected log).1
  = (2 <=? matching_outputs a expected txs)%nat.
Proof.
  intros Ha Hr Hwf. rewrite check_double_spend_answer by done. rewrite Hr.
  unfold answer_to. cbn [fst]. change (200 =? 200) with true. cbv iota.
  rewrite scan_txs_counts by (done || lia). cbv zeta. rewrite Nat.add_0_l.
  by destruct (2 <=? matching_outputs a expected txs)%nat.
Qed.

Lemma fetch_failed_answer a expected r :
  fetch_failed r = true → answer_to a expected r = true.
Proof.
  destruct r as [status [txs|]| | |]; simpl; try done.
  destruct (status =? 200); [|done].
  intros Hbad. apply scan_txs_malformed. by apply negb_true_iff.
Qed.

(** The fixture of the specification: two outputs of 0.01 BTC against an
    expected 0.01 BTC are suspicious, one is not, an empty history is
    not. *)
Example check_double_spend_two_outputs :
  (check_double_spend
     (Fixtures.net_up 0 [Fixtures.pays 1000000; Fixtures.pays 1000000])
     (Some Fixtures.address_A) 0.01%float []).1 = true.
Proof. reflexivity. Qed.

Example check_double_spend_one_output :
  (check_double_spend (Fixtures.net_up 0 [Fixtures.pays 1000000])
     (Some Fixtures.address_A) 0.01%float []).1 = false.
Proof. reflexivity. Qed.

Example check_double_spend_no_output :
  (check_double_spend (Fixtures.net_up 0 [])
     (Some Fixtures.address_A) 0.01%float []).1 = false.
Proof. reflexivity. Qed.

(** C4, where the code departs from it: the expected amount is 0.01 BTC
    (1000000 satoshis) and the address received two outputs of 1000500
    satoshis.  Neither is within one satoshi of the expected amount, so no
    output matches in the sense of the claim, yet both pass the code's
    test [abs(amount_btc - expected_amount) < 0.00001], which is a
    tolerance of 1000 satoshis, and the detector answers true. *)
Theorem check_double_spend_tolerance_is_1000_satoshis :
  let txs := [Fixtures.pays 1000500; Fixtures.pays 1000500] in
  Py.truediv_int 1000000 100000000 = 0.01%float
  ∧ ¬ within_one_satoshi 1000000 1000500
  ∧ matching_outputs Fixtures.address_A 0.01%float txs = 2%nat
  ∧ check_double_spend (Fixtures.net_up 0 txs) (Some Fixtures.address_A)
      0.01%float []
    = (true, [history_url Fixtures.address_A]).
Proof.
  cbv zeta. split; [reflexivity|]. split; [unfold within_one_satoshi; lia|].
  split; reflexivity.
Qed.

(** C7: for a non-empty address, every failure of the history request
    makes the detector answer true; a 404 makes it answer false; and it
    answers false only on a 404 or on a history that was read to its end
    with fewer than two matching outputs. *)
Theorem check_double_spend_fails_closed net a expected log :
  a ≠ "" →
  let r := history_reply net (length log) (history_url a) in
  let answer := (check_double_spend net (Some a) expected log).1 in
  (fetch_failed r = true → answer = true)
  ∧ (∀ payload, r = Response 404 payload → answer = false)
  ∧ (answer = false →
     (∃ payload, r = Response 404 payload)
     ∨ (∃ txs, r = Response 200 (Some txs) ∧ well_formed txs = true
          ∧ (matching_outputs a expected txs < 2)%nat)).
Proof.
  intros Ha r answer. subst answer.
  rewrite check_double_spend_answer by done. fold r. simpl.
  split; [apply fetch_failed_answer|split].
  - by intros payload ->.
  - destruct r as [status [txs|]| | |] eqn:Hr; simpl; try done.
    + destruct (status =? 200) eqn:H200.
      * apply Z.eqb_eq in H200 as ->. intros Hanswer. right. exists txs.
        destruct (well_formed txs) eqn:Hwf.
        -- split; [done|split; [done|]].
           rewrite scan_txs_counts in Hanswer by (done || lia).
           cbv zeta in Hanswer. rewrite Nat.add_0_l in Hanswer.
           destruct (2 <=? matching_outputs a expected txs)%nat eqn:Hn; [done|].
           by apply Nat.leb_gt.
        -- by rewrite scan_txs_malformed in Hanswer.
      * intros H404. apply negb_false_iff, Z.eqb_eq in H404 as ->. left. eauto.
    + destruct (status =? 200) eqn:H200; [done|].
      intros H404. apply negb_false_iff, Z.eqb_eq in H404 as ->. left. eauto.
Qed.

(** C7 on a status 500, a timeout and a status 404. *)
Lemma check_double_spend_fails_closed_witness :
  (check_double_spend (Fixtures.net_history_status 500)
     (Some Fixtures.address_A) 0.01%float []).1 = true
  ∧ (check_double_spend Fixtures.net_down
       (Some Fixtures.address_A) 0.01%float []).1 = true
  ∧ (check_double_spend (Fixtures.net_history_status 404)
       (Some Fixtures.address_A) 0.01%float []).1 = false.
Proof.
  assert (Ha : Fixtures.address_A ≠ "") by done.
  split; [|split].
  - apply (check_double_spend_fails_closed (Fixtures.net_history_status 500)
             Fixtures.address_A 0.01%float [] Ha). reflexivity.
  - apply (check_double_spend_fails_closed Fixtures.net_down
             Fixtures.address_A 0.01%float [] Ha). reflexivity.
  - apply (check_double_spend_fails_closed (Fixtures.net_history_status 404)
             Fixtures.address_A 0.01%float [] Ha) with None. reflexivity.
Defined.

(** C10: with a missing or empty address [check_double_spend] answers
    false and sends no request, whereas with an address every failure of
    the history request (timeout, connection error, other exception,
    status other than 200 and 404, unreadable body) makes it answer
    true. *)
Theorem check_double_spend_without_address net expected log :
  check_double_spend net None expected log = (false, log)
  ∧ check_double_spend net (Some "") expected log = (false, log)
  ∧ (∀ a, a ≠ ""
       → fetch_failed (history_reply net (length log) (history_url a)) = true
       → check_double_spend net (Some a) expected log
         = (true, (log ++ [history_url a])%list)).
Proof.
  split; [done|split; [done|]].
  intros a Ha Hfail. rewrite check_double_spend_answer by done.
  by rewrite fetch_failed_answer.
Qed.

(** C10 on a network that is down: no address, no request and false; an
    address, one request and true. *)
Lemma check_double_spend_without_address_witness :
  check_double_spend Fixtures.net_down None 0.01%float [] = (false, [])
  ∧ check_double_spend Fixtures.net_down (Some "") 0.01%float [] = (false, [])
  ∧ check_double_spend Fixtures.net_down (Some Fixtures.address_A) 0.01%float []
    = (true, [history_url Fixtures.address_A]).
Proof.
  pose proof (check_double_spend_without_address Fixtures.net_down
                0.01%float []) as (Hnone & Hempty & Hfail).
  split; [exact Hnone|split; [exact Hempty|]].
  apply Hfail; [done|reflexivity].
Defined.

End DoubleSpendFacts.

(** ** database.py: the address pool *)

Module PoolFacts.
Import Models Database Notions.

Lemma used_not_free d address : used d address → ¬ free d address.
Proof. intros (r & Hr & Hu) (r' & Hr' & Hf). congruence. Qed.

Lemma elem_of_available d address : address ∈ available d ↔ free d address.
Proof.
  unfold available, free. rewrite list_elem_of_fmap. split.
  - intros ([a r] & -> & Hin). apply list_elem_of_filter in Hin as [Hfree Hin].
    apply elem_of_map_to_list in Hin. eauto.
  - intros (r & Hr & Hfree). exists (address, r). split; [done|].
    apply list_elem_of_filter. split; [done|]. by apply elem_of_map_to_list.
Qed.

Lemma get_available_btc_address_Some rnd d address :
  get_available_btc_address rnd d = Some address → free d address.
Proof.
  unfold get_available_btc_address. intros Hlook.
  apply elem_of_available. by eapply list_elem_of_lookup_2.
Qed.

Lemma get_available_btc_address_None rnd d :
  get_available_btc_address rnd d = None ↔ available d = [].
Proof.
  unfold get_available_btc_address. split.
  - intros Hnone. apply lookup_ge_None in Hnone.
    destruct (available d) as [|a rest] eqn:E; [done|].
    exfalso. pose proof (Nat.mod_upper_bound rnd (length (a :: rest))) as Hlt.
    simpl in *. lia.
  - by intros ->.
Qed.

Lemma get_available_btc_address_is_Some rnd d address :
  free d address → is_Some (get_available_btc_address rnd d).
Proof.
  intros Hfree. apply elem_of_available in Hfree.
  destruct (get_available_btc_address rnd d) eqn:E; [done|].
  apply get_available_btc_address_None in E. rewrite E in Hfree.
  by apply elem_of_nil in Hfree.
Qed.

Lemma assign_btc_address_free address user now d :
  free d address →
  assign_btc_address address user now d
  = (set_btc_addresses
       (<[address := {| is_used := true; assigned_to := Some user;
                        assigned_at := Some now |}]> (btc_addresses d)) d,
     true).
Proof. intros (r & Hr & Hfree). unfold assign_btc_address. by rewrite Hr, Hfree. Qed.

Lemma assign_btc_address_not_free address user now d :
  ¬ free d address → assign_btc_address address user now d = (d, false).
Proof.
  intros Hnot. unfold assign_btc_address.
  destruct (btc_addresses d !! address) as [r|] eqn:Hr; [|done].
  destruct (is_used r) eqn:Hu; [done|]. destruct Hnot. by exists r.
Qed.

Lemma assign_btc_address_success address user now d d' :
  assign_btc_address address user now d = (d', true) →
  free d address ∧ used d' address.
Proof.
  unfold assign_btc_address.
  destruct (btc_addresses d !! address) as [r|] eqn:Hr; [|done].
  destruct (is_used r) eqn:Hu; [done|]. intros [= <-]. split.
  - by exists r.
  - eexists. split; [apply lookup_insert_eq|done].
Qed.

Lemma assign_btc_address_keeps_used address user now d other :
  used d other → used (assign_btc_address address user now d).1 other.
Proof.
  intros (r & Hr & Hu). unfold assign_btc_address.
  destruct (btc_addresses d !! address) as [r0|] eqn:Hr0; [|by exists r].
  destruct (is_used r0) eqn:Hu0; [by exists r|]. simpl.
  destruct (decide (address = other)) as [->|Hne].
  - eexists. split; [apply lookup_insert_eq|done].
  - exists r. split; [cbn; by rewrite lookup_insert_ne|done].
Qed.

Lemma assign_btc_address_transactions address user now d :
  transactions (assign_btc_address address user now d).1 = transactions d
  ∧ subscriptions (assign_btc_address address user now d).1 = subscriptions d.
Proof.
  unfold assign_btc_address.
  destruct (btc_addresses d !! address) as [r|]; [|done].
  by destruct (is_used r).
Qed.

(** [release] makes the address available whatever it was, and releasing
    twice is releasing once. *)
Lemma release_btc_address_free address d :
  is_Some (btc_addresses d !! address) →
  free (release_btc_address address d) address.
Proof.
  intros [r Hr]. eexists.
  split; [cbn; by rewrite lookup_alter_eq, Hr|done].
Qed.

Lemma release_btc_address_idempotent address d :
  release_btc_address address (release_btc_address address d)
  = release_btc_address address d.
Proof.
  unfold release_btc_address, set_btc_addresses. simpl. f_equal.
  apply map_eq. intros a. destruct (decide (address = a)) as [->|Hne].
  - rewrite !lookup_alter_eq. by destruct (btc_addresses d !! a).
  - by rewrite !lookup_alter_ne.
Qed.

Lemma release_btc_address_other address d other :
  address ≠ other →
  btc_addresses (release_btc_address address d) !! other
  = btc_addresses d !! other.
Proof. intros Hne. simpl. by rewrite lookup_alter_ne. Qed.

End PoolFacts.

(** ** database.py: allocation under interleaving *)

Module InterleavingFacts.
Import Database Interleaving PoolFacts Notions.

(** A call run alone is [get_next_btc_address]. *)
Lemma interleave_alone now user rnd other d :
  interleave now [true; true; true] (start user rnd) other d
  = (move (start user rnd) (Returned (get_next_btc_address user rnd now d).2),
     other, (get_next_btc_address user rnd now d).1).
Proof.
  unfold get_next_btc_address. simpl. unfold step. simpl.
  destruct (pending_address user d); [done|]. simpl.
  destruct (get_available_btc_address rnd d) as [address|]; [|done]. simpl.
  by destruct (assign_btc_address address user now d) as [d1 [|]].
Qed.

Lemma step_used now c d address :
  used d address → used (step now c d).2 address.
Proof.
  intros Hused. unfold step. destruct (at_position c) as [| |a|r]; simpl.
  - by destruct (pending_address (caller c) d).
  - by destruct (get_available_btc_address (draw c) d).
  - pose proof (assign_btc_address_keeps_used a (caller c) now d address Hused).
    by destruct (assign_btc_address a (caller c) now d).
  - done.
Qed.

(** A call that has just returned an address found it available and left
    it assigned. *)
Lemma step_returned now c d address :
  at_position (step now c d).1 = Returned (Some address) →
  (at_position c = Returned (Some address) ∧ step now c d = (c, d))
  ∨ (free d address ∧ used (step now c d).2 address).
Proof.
  unfold step. destruct (at_position c) as [| |a|r] eqn:Hat; simpl.
  - by destruct (pending_address (caller c) d).
  - by destruct (get_available_btc_address (draw c) d).
  - destruct (assign_btc_address a (caller c) now d) as [d1 [|]] eqn:Hassign;
      simpl; [|done].
    intros [= <-]. right. by apply assign_btc_address_success in Hassign.
  - intros Hc. left. split; [congruence|done].
Qed.

Lemma consistent_sym c1 c2 d : consistent c1 c2 d → consistent c2 c1 d.
Proof.
  intros (H1 & H2 & Hne). repeat split; [done..|].
  intros a1 a2 Ha1 Ha2 Heq. by apply (Hne a2 a1).
Qed.

Lemma step_consistent now c1 c2 d :
  consistent c1 c2 d →
  consistent (step now c1 d).1 c2 (step now c1 d).2.
Proof.
  intros (H1 & H2 & Hne). repeat split.
  - intros a Ha. destruct (step_returned now c1 d a Ha) as [[Hc ->]|[_ ?]]; [|done].
    by apply H1.
  - intros a Ha. by apply step_used, H2.
  - intros a1 a2 Ha1 Ha2.
    destruct (step_returned now c1 d a1 Ha1) as [[Hc _]|[Hfree _]].
    + by apply Hne.
    + intros ->. by apply (used_not_free d a2); [apply H2|].
Qed.

Lemma interleave_consistent now schedule c1 c2 d :
  consistent c1 c2 d →
  let '(c1', c2', d') := interleave now schedule c1 c2 d in
  consistent c1' c2' d'.
Proof.
  revert c1 c2 d. induction schedule as [|[|] rest IH]; intros c1 c2 d Hc; simpl.
  - done.
  - pose proof (step_consistent now c1 c2 d Hc) as Hstep.
    destruct (step now c1 d) as [c1' d']. by apply IH.
  - pose proof (step_consistent now c2 c1 d (consistent_sym _ _ _ Hc)) as Hstep.
    destruct (step now c2 d) as [c2' d']. by apply IH, consistent_sym.
Qed.

(** C9: the conditional update succeeds only on an address that is
    available and leaves it assigned, so of two attempts on the same
    address, one after the other, at most one succeeds; and two calls of
    [get_next_btc_address] whose statements are interleaved in any order
    never both return the same address. *)
Theorem concurrent_allocations_differ :
  (∀ address user1 user2 now1 now2 d,
     let first := assign_btc_address address user1 now1 d in
     let second := assign_btc_address address user2 now2 first.1 in
     first.2 && second.2 = false)
  ∧ (∀ now schedule user1 rnd1 user2 rnd2 d c1 c2 d' a1 a2,
       interleave now schedule (start user1 rnd1) (start user2 rnd2) d
       = (c1, c2, d')
       → at_position c1 = Returned (Some a1)
       → at_position c2 = Returned (Some a2)
       → a1 ≠ a2).
Proof.
  split.
  - intros address user1 user2 now1 now2 d first second. subst first second.
    destruct (assign_btc_address address user1 now1 d) as [d1 [|]] eqn:H1;
      simpl; [|done].
    apply assign_btc_address_success in H1 as [_ Hused].
    rewrite assign_btc_address_not_free; [done|]. by apply used_not_free.
  - intros now schedule user1 rnd1 user2 rnd2 d c1 c2 d' a1 a2 Hrun Hc1 Hc2.
    assert (Hstart : consistent (start user1 rnd1) (start user2 rnd2) d)
      by by repeat split.
    pose proof (interleave_consistent now schedule _ _ d Hstart) as Hend.
    rewrite Hrun in Hend. destruct Hend as (_ & _ & Hne). by apply Hne.
Qed.

(** C9 on a pool of two addresses.  Both calls draw the same address and
    reach the update holding it: the first to run the update gets the
    address, the other is refused.  With different draws both get an
    address, and the two differ. *)
Lemma concurrent_allocations_differ_witness :
  (let '(c1, c2, _) :=
     interleave 1000 [true; false; true; false; false; true]
       (start 7 0) (start 8 0) Fixtures.pool_AB in
   (at_position c1, at_position c2))
  = (Returned None, Returned (Some Fixtures.address_A))
  ∧ (let '(c1, c2, _) :=
       interleave 1000 [true; false; true; false; false; true]
         (start 7 0) (start 8 1) Fixtures.pool_AB in
     (at_position c1, at_position c2))
    = (Returned (Some Fixtures.address_A), Returned (Some Fixtures.address_B))
  ∧ Fixtures.address_A ≠ Fixtures.address_B.
Proof.
  split; [vm_compute; reflexivity|]. split; [vm_compute; reflexivity|].
  destruct concurrent_allocations_differ as [_ Hdiffer].
  destruct (interleave 1000 [true; false; true; false; false; true]
              (start 7 0) (start 8 1) Fixtures.pool_AB)
    as [[c1 c2] d'] eqn:Hrun.
  apply (Hdiffer _ _ _ _ _ _ _ c1 c2 d' _ _ Hrun);
    vm_compute in Hrun; injection Hrun as <- <- <-; reflexivity.
Defined.

End InterleavingFacts.

(** ** database.py: reading and writing transactions *)

Module StoreFacts.
Import Models Database Notions.

Lemma is_pending_true t : is_pending t = true ↔ status t = PENDING.
Proof. unfold is_pending. by destruct (status t). Qed.

Lemma is_pending_false t : is_pending t = false ↔ status t ≠ PENDING.
Proof. unfold is_pending. by destruct (status t). Qed.

Lemma elem_of_sorted_filter {A} (R : relation A) `{∀ x y, Decision (R x y)}
    (P : A → Prop) `{∀ x, Decision (P x)} (l : list A) (x : A) :
  x ∈ merge_sort R (filter P l) ↔ P x ∧ x ∈ l.
Proof. by rewrite merge_sort_Permutation, list_elem_of_filter. Qed.

Lemma head_sorted_filter_None {A} (R : relation A) `{∀ x y, Decision (R x y)}
    (P : A → Prop) `{∀ x, Decision (P x)} (l : list A) :
  head (merge_sort R (filter P l)) = None ↔ ∀ x, x ∈ l → ¬ P x.
Proof.
  rewrite head_None. split.
  - intros Hnil x Hin HP.
    assert (Hx : x ∈ merge_sort R (filter P l)) by by apply elem_of_sorted_filter.
    rewrite Hnil in Hx. by apply elem_of_nil in Hx.
  - intros Hnone. destruct (merge_sort R (filter P l)) as [|x rest] eqn:E; [done|].
    assert (Hx : x ∈ merge_sort R (filter P l)) by (rewrite E; apply list_elem_of_here).
    apply elem_of_sorted_filter in Hx as [HP Hin]. by destruct (Hnone x Hin).
Qed.

Lemma head_sorted_filter_Some {A} (R : relation A) `{∀ x y, Decision (R x y)}
    (P : A → Prop) `{∀ x, Decision (P x)} (l : list A) (x : A) :
  head (merge_sort R (filter P l)) = Some x → P x ∧ x ∈ l.
Proof.
  intros Hhead. apply (proj1 (elem_of_sorted_filter R P l x)).
  destruct (merge_sort R (filter P l)) as [|y rest]; [done|].
  injection Hhead as ->. apply list_elem_of_here.
Qed.

Lemma get_pending_transaction_Some user d i t :
  get_pending_transaction user d = Some (i, t) →
  transactions d !! i = Some t ∧ user_id t = user ∧ status t = PENDING.
Proof.
  unfold get_pending_transaction. intros Hhead.
  apply head_sorted_filter_Some in Hhead as [[Huser Hp] Hin]. simpl in *.
  apply elem_of_map_to_list in Hin. by apply is_pending_true in Hp.
Qed.

Lemma get_pending_transaction_None user d :
  get_pending_transaction user d = None ↔ ¬ has_pending user d.
Proof.
  unfold get_pending_transaction, has_pending.
  rewrite head_sorted_filter_None. split.
  - intros Hnone (i & t & Hlook & Huser & Hp).
    apply (Hnone (i, t)); [by apply elem_of_map_to_list|].
    split; [done|by apply is_pending_true].
  - intros Hnone [i t] Hin [Huser Hp]. simpl in *. apply Hnone. exists i, t.
    split; [by apply elem_of_map_to_list|]. split; [done|by apply is_pending_true].
Qed.

Lemma filter_nil_none {A} (P : A → Prop) `{∀ x, Decision (P x)} (l : list A) :
  filter P l = [] ↔ ∀ x, x ∈ l → ¬ P x.
Proof.
  split.
  - intros Hnil x Hin HP. by eapply filter_nil_not_elem_of.
  - intros Hnone. destruct (filter P l) as [|x rest] eqn:E; [done|].
    assert (Hx : x ∈ filter P l) by (rewrite E; apply list_elem_of_here).
    apply list_elem_of_filter in Hx as [HP Hin]. by destruct (Hnone x Hin).
Qed.

Lemma pending_address_None user d :
  pending_address user d = None ↔ ¬ has_pending user d.
Proof.
  unfold pending_address, has_pending. rewrite head_None. split.
  - intros Hnil%map_eq_nil (i & t & Hlook & Huser & Hp).
    apply (proj1 (filter_nil_none _ _) Hnil (i, t));
      [by apply elem_of_map_to_list|].
    split; [done|by apply is_pending_true].
  - intros Hnone. apply (f_equal (map _) (y := [])), filter_nil_none.
    intros [i t] Hin [Huser Hp]. simpl in *. apply Hnone. exists i, t.
    split; [by apply elem_of_map_to_list|]. split; [done|by apply is_pending_true].
Qed.

Lemma pending_address_Some user d address :
  pending_address user d = Some address → has_pending user d.
Proof.
  intros Hsome. destruct (pending_address user d) eqn:E; [|done].
  assert (Hnot : pending_address user d ≠ None) by congruence.
  rewrite pending_address_None in Hnot. unfold has_pending in *.
  destruct (filter (λ kv : Z * transaction,
                      user_id kv.2 = user ∧ is_pending kv.2 = true)
              (map_to_list (transactions d))) as [|[i t] rest] eqn:Hrows.
  - destruct Hnot. intros (i & t & Hlook & Huser & Hp).
    apply (proj1 (filter_nil_none _ _) Hrows (i, t));
      [by apply elem_of_map_to_list|].
    split; [done|by apply is_pending_true].
  - assert (Hin : (i, t) ∈ filter (λ kv : Z * transaction,
                                     user_id kv.2 = user ∧ is_pending kv.2 = true)
                             (map_to_list (transactions d)))
      by (rewrite Hrows; apply list_elem_of_here).
    apply list_elem_of_filter in Hin as [[Huser Hp] Hin]. simpl in *.
    exists i, t. split; [by apply elem_of_map_to_list|].
    split; [done|by apply is_pending_true].
Qed.

Lemma get_active_subscription_None user now d :
  get_active_subscription user now d = None ↔ ¬ has_active user now d.
Proof.
  unfold get_active_subscription, has_active.
  rewrite head_sorted_filter_None. split.
  - intros Hnone (s & Hin & Hact). by apply (Hnone s).
  - intros Hnone s Hin Hact. apply Hnone. by exists s.
Qed.

Lemma get_active_subscription_Some user now d s :
  get_active_subscription user now d = Some s →
  s ∈ subscriptions d ∧ is_active user now s = true.
Proof.
  unfold get_active_subscription. intros Hhead.
  by apply head_sorted_filter_Some in Hhead as [? ?].
Qed.

Lemma elem_of_get_pending_transactions d i t :
  (i, t) ∈ get_pending_transactions d ↔
  transactions d !! i = Some t ∧ status t = PENDING.
Proof.
  unfold get_pending_transactions.
  rewrite elem_of_sorted_filter, elem_of_map_to_list. simpl.
  rewrite is_pending_true. tauto.
Qed.

Lemma elem_of_get_user_transactions user d i t :
  (i, t) ∈ get_user_transactions user d ↔
  transactions d !! i = Some t ∧ user_id t = user.
Proof.
  unfold get_user_transactions.
  rewrite elem_of_sorted_filter, elem_of_map_to_list. simpl. tauto.
Qed.

Lemma foldr_max_bound (l : list Z) k : k ∈ l → k ≤ foldr Z.max 0 l.
Proof.
  induction l as [|x rest IH]; simpl.
  - by intros ?%elem_of_nil.
  - intros [->|Hin]%elem_of_cons; [lia|]. specialize (IH Hin). lia.
Qed.

(** The id the sequence hands out is not in the table. *)
Lemma next_id_fresh (m : gmap Z transaction) : m !! next_id m = None.
Proof.
  destruct (m !! next_id m) as [t|] eqn:Hlook; [|done].
  apply elem_of_map_to_list in Hlook.
  assert (Hin : next_id m ∈ (map_to_list m).*1).
  { apply list_elem_of_fmap. by exists (next_id m, t). }
  apply foldr_max_bound in Hin. unfold next_id in Hin at 1. lia.
Qed.

End StoreFacts.

(** ** bot/services/payment_service.py: the allocator *)

Module AllocatorFacts.
Import Models Database PaymentService PoolFacts StoreFacts Notions Schema.

Lemma get_next_btc_address_pending user rnd now d :
  has_pending user d → get_next_btc_address user rnd now d = (d, None).
Proof.
  intros Hp. unfold get_next_btc_address.
  destruct (pending_address user d) eqn:E; [done|].
  by apply pending_address_None in E.
Qed.

Lemma get_next_btc_address_empty user rnd now d :
  available d = [] → get_next_btc_address user rnd now d = (d, None).
Proof.
  intros Hnone. unfold get_next_btc_address.
  destruct (pending_address user d); [done|].
  by apply (get_available_btc_address_None rnd) in Hnone as ->.
Qed.

Lemma get_next_btc_address_assigns user rnd now d address :
  ¬ has_pending user d →
  get_available_btc_address rnd d = Some address →
  get_next_btc_address user rnd now d
  = (set_btc_addresses
       (<[address := {| is_used := true; assigned_to := Some user;
                        assigned_at := Some now |}]> (btc_addresses d)) d,
     Some address).
Proof.
  intros Hp Ha. unfold get_next_btc_address.
  apply pending_address_None in Hp as ->. rewrite Ha.
  by rewrite (assign_btc_address_free address user now d)
    by by eapply get_available_btc_address_Some.
Qed.

Lemma create_payment_active user plan btc_price rnd now d :
  has_active user now d →
  create_payment user plan btc_price rnd now d = (d, None).
Proof.
  intros Hact. unfold create_payment.
  destruct (get_active_subscription user now d) eqn:E; [done|].
  by apply get_active_subscription_None in E.
Qed.

Lemma create_payment_pending user plan btc_price rnd now d :
  has_pending user d →
  create_payment user plan btc_price rnd now d = (d, None).
Proof.
  intros Hp. unfold create_payment.
  destruct (get_active_subscription user now d); [done|].
  by rewrite get_next_btc_address_pending.
Qed.

Lemma create_payment_no_address user plan btc_price rnd now d :
  available d = [] →
  create_payment user plan btc_price rnd now d = (d, None).
Proof.
  intros Hnone. unfold create_payment.
  destruct (get_active_subscription user now d); [done|].
  by rewrite get_next_btc_address_empty.
Qed.

Lemma create_payment_zero_price user plan btc_price rnd now d :
  PrimFloat.eqb btc_price 0 = true →
  (create_payment user plan btc_price rnd now d).2 = None.
Proof.
  intros Hzero. unfold create_payment.
  destruct (get_active_subscription user now d); [done|].
  destruct (get_next_btc_address user rnd now d) as [d1 [address|]]; [|done].
  by rewrite Hzero.
Qed.

Lemma create_payment_creates user plan btc_price rnd now d address :
  ¬ has_active user now d → ¬ has_pending user d →
  get_available_btc_address rnd d = Some address →
  PrimFloat.eqb btc_price 0 = false →
  create_payment user plan btc_price rnd now d
  = (set_transactions
       (<[next_id (transactions d)
          := new_transaction user plan btc_price address now]>
          (transactions d))
       (set_btc_addresses
          (<[address := {| is_used := true; assigned_to := Some user;
                           assigned_at := Some now |}]>
             (btc_addresses d)) d),
     Some (new_payment (next_id (transactions d)) plan btc_price address now)).
Proof.
  intros Hact Hp Ha Hprice. unfold create_payment.
  apply get_active_subscription_None in Hact as ->.
  rewrite (get_next_btc_address_assigns user rnd now d address) by done.
  by rewrite Hprice.
Qed.

(** A price the columns take is not zero: the amount would be infinite. *)
Lemma storable_not_zero plan btc_price :
  storable plan btc_price = true → PrimFloat.eqb btc_price 0 = false.
Proof.
  intros Hfits. destruct (PrimFloat.eqb btc_price 0) eqn:Hzero; [|done].
  rewrite FloatAxioms.eqb_spec in Hzero.
  change (Prim2SF 0) with (S754_zero false) in Hzero.
  rewrite <- (FloatAxioms.SF2Prim_Prim2SF btc_price) in Hfits.
  destruct (Prim2SF btc_price) as [[|]|[|]| |[|] m e];
    cbn in Hzero; try discriminate Hzero;
    destruct plan; vm_compute in Hfits; discriminate Hfits.
Qed.

Lemma create_payment_storable user plan btc_price rnd now d address :
  ¬ has_active user now d → ¬ has_pending user d →
  get_available_btc_address rnd d = Some address →
  storable plan btc_price = true →
  let r := create_payment user plan btc_price rnd now d in
  let i := next_id (transactions d) in
  r.2 = Some (new_payment i plan btc_price address now)
  ∧ btc_addresses r.1
    = <[address := {| is_used := true; assigned_to := Some user;
                      assigned_at := Some now |}]> (btc_addresses d)
  ∧ subscriptions r.1 = subscriptions d
  ∧ ∃ t, transactions r.1 = <[i := t]> (transactions d)
         ∧ created_row user plan address now t.
Proof.
  intros Hact Hp Ha Hfits. cbv zeta.
  rewrite (create_payment_creates user plan btc_price rnd now d address)
    by (done || by eapply storable_not_zero).
  repeat split. by eexists.
Qed.

(** C3 as stated fails: user 7 has no subscription and an address is
    available, but the user already has a pending transaction, and
    [create_payment] returns [None]. *)
Lemma create_payment_refuses_second_pending :
  let d := Fixtures.store_1 VIP1 PENDING in
  get_active_subscription 7 1500 d = None
  ∧ get_available_btc_address 0 d = Some Fixtures.address_B
  ∧ create_payment 7 VIP2 50000%float 0 1500 d = (d, None).
Proof. cbv zeta. split; [|split]; vm_compute; reflexivity. Qed.

(** C3, amended: [create_payment] returns none, and leaves the store as it
    was, when the user holds an active subscription for any plan, when the
    user already has a pending transaction, and when no address is
    available; it also returns none when the price is zero (the division
    raises).  In every other case, for a price whose amounts the DECIMAL
    columns of [transactions] take, it assigns the drawn address, stores a
    new pending transaction under a fresh id, for this user, plan and
    address, with [expires_at] the creation time plus the payment timeout
    of 30 minutes, and returns it with [btc_amount = plan.usd_price /
    current_price]; every other transaction and the subscriptions are as
    they were.  A 100 USD plan at 50000 USD per BTC gives 0.002 BTC, and
    the columns take it. *)
Theorem create_payment_cases user plan btc_price rnd now d :
  (has_active user now d
   → create_payment user plan btc_price rnd now d = (d, None))
  ∧ (has_pending user d
     → create_payment user plan btc_price rnd now d = (d, None))
  ∧ (available d = []
     → create_payment user plan btc_price rnd now d = (d, None))
  ∧ (PrimFloat.eqb btc_price 0 = true
     → (create_payment user plan btc_price rnd now d).2 = None)
  ∧ (¬ has_active user now d → ¬ has_pending user d → available d ≠ []
     → storable plan btc_price = true
     → let r := create_payment user plan btc_price rnd now d in
       ∃ address i t,
         get_available_btc_address rnd d = Some address
         ∧ free d address
         ∧ transactions d !! i = None
         ∧ r.2 = Some (new_payment i plan btc_price address now)
         ∧ btc_addresses r.1
           = <[address := {| is_used := true; assigned_to := Some user;
                             assigned_at := Some now |}]> (btc_addresses d)
         ∧ subscriptions r.1 = subscriptions d
         ∧ transactions r.1 = <[i := t]> (transactions d)
         ∧ created_row user plan address now t)
  ∧ PrimFloat.div (price_usd VIP2) 50000%float = 0.002%float
  ∧ storable VIP2 50000%float = true
  ∧ 60 * Config.PAYMENT_TIMEOUT_MINUTES = 1800.
Proof.
  split; [apply create_payment_active|].
  split; [apply create_payment_pending|].
  split; [apply create_payment_no_address|].
  split; [apply create_payment_zero_price|].
  split; [|split; [|split]; by vm_compute].
  intros Hact Hp Hsome Hfits.
  destruct (get_available_btc_address rnd d) as [address|] eqn:Ha;
    [|by apply get_available_btc_address_None in Ha].
  destruct (create_payment_storable user plan btc_price rnd now d address)
    as (Hpay & Hpool & Hsubs & t & Hrows & Hrow); [done..|].
  exists address, (next_id (transactions d)), t. split; [done|].
  split; [by eapply get_available_btc_address_Some|].
  split; [apply next_id_fresh|]. done.
Qed.

(** The amended C3 on the scenario of the specification: user 7, no
    pending transaction, no subscription, the 100 USD plan at 50000 USD per
    BTC, at time 1000: a transaction for 0.002 BTC on [address_A],
    expiring at 2800, is returned, and stored as a pending transaction;
    and on a user who holds a lifetime subscription. *)
Lemma create_payment_cases_witness :
  (∃ i t,
     (create_payment 7 VIP2 50000%float 0 1000 Fixtures.pool_AB).2
     = Some {| pay_id := i; pay_plan_type := "VIP2";
               pay_btc_address := Fixtures.address_A;
               pay_btc_amount := 0.002%float; pay_usd_amount := 100%float;
               pay_btc_price := 50000%float; pay_expires_at := 2800 |}
     ∧ transactions
         (create_payment 7 VIP2 50000%float 0 1000 Fixtures.pool_AB).1
       = <[i := t]> (transactions Fixtures.pool_AB)
     ∧ created_row 7 VIP2 Fixtures.address_A 1000 t)
  ∧ create_payment 7 VIP1 50000%float 0 1000
      (create_subscription 7 "VIP3" 1 None 900 Fixtures.pool_AB)
    = (create_subscription 7 "VIP3" 1 None 900 Fixtures.pool_AB, None).
Proof.
  pose proof (create_payment_cases 7 VIP2 50000%float 0 1000 Fixtures.pool_AB)
    as (_ & _ & _ & _ & Hnew & _).
  destruct Hnew as (address & i & t & Ha & _ & _ & Hpay & _ & _ & Hrows & Hrow).
  { intros (s & Hin & _). by apply elem_of_nil in Hin. }
  { intros (i & u & Hlook & _).
    change (transactions Fixtures.pool_AB) with (∅ : gmap Z transaction) in Hlook.
    by rewrite lookup_empty in Hlook. }
  { by vm_compute. }
  { by vm_compute. }
  assert (address = Fixtures.address_A) as ->
    by (vm_compute in Ha; injection Ha as <-; reflexivity).
  split; [exists i, t; split; [exact Hpay|split; [exact Hrows|exact Hrow]]|].
  pose proof (create_payment_cases 7 VIP1 50000%float 0 1000
                (create_subscription 7 "VIP3" 1 None 900 Fixtures.pool_AB))
    as (Hact & _).
  apply Hact. eexists. split; [apply list_elem_of_here|reflexivity].
Defined.

End AllocatorFacts.

(** ** Releasing the address of an expired or cancelled transaction *)

Module ReleaseFacts.
Import Models Database Engine PoolFacts Notions.

(** The expiry sweep writes [expired] in every case and releases the
    address exactly when the observed balance is zero. *)
Lemma expire_one_gate w s tx :
  store (PaymentChecker.expire_one w s tx)
  = update_transaction_status tx.1 EXPIRED None
      (if PrimFloat.eqb (observed_balance w s tx) 0
       then release_btc_address (btc_address tx.2) (store s)
       else store s)
  ∧ (PrimFloat.eqb (observed_balance w s tx) 0 = false
     → btc_addresses (store (PaymentChecker.expire_one w s tx))
       = btc_addresses (store s)).
Proof.
  unfold PaymentChecker.expire_one, observed_balance.
  destruct (BtcApi.check_address_balance _ _ _ _) as [balance log1]. simpl.
  split; [done|]. by intros ->.
Qed.

(** [cancel_plan] follows the same rule. *)
Lemma cancel_one_gate w s tx :
  store (Handlers.cancel_one w s tx)
  = update_transaction_status tx.1 CANCELLED None
      (if PrimFloat.eqb (observed_balance w s tx) 0
       then release_btc_address (btc_address tx.2) (store s)
       else store s)
  ∧ (PrimFloat.eqb (observed_balance w s tx) 0 = false
     → btc_addresses (store (Handlers.cancel_one w s tx))
       = btc_addresses (store s)).
Proof.
  unfold Handlers.cancel_one, observed_balance.
  destruct (BtcApi.check_address_balance _ _ _ _) as [balance log1]. simpl.
  split; [done|]. by intros ->.
Qed.

(** The scenario of the specification: a pending transaction past its
    expiry becomes expired; with a zero balance its address becomes
    available again, with 0.0005 BTC on it the address stays assigned. *)
Example sweep_expires_unpaid :
  let s := {| store := Fixtures.store_1 VIP1 PENDING; requests := [] |} in
  store (PaymentChecker.check_payments_job (Fixtures.world_at 3000 0 0) s)
  = release_btc_address Fixtures.address_A (Fixtures.store_1 VIP1 EXPIRED).
Proof. vm_compute. reflexivity. Qed.

Example sweep_expires_partly_paid :
  let s := {| store := Fixtures.store_1 VIP1 PENDING; requests := [] |} in
  store (PaymentChecker.check_payments_job (Fixtures.world_at 3000 0 50000) s)
  = Fixtures.store_1 VIP1 EXPIRED.
Proof. vm_compute. reflexivity. Qed.

Example cancel_plan_partly_paid :
  let s := {| store := Fixtures.store_1 VIP1 PENDING; requests := [] |} in
  store (Handlers.cancel_plan 7 (Fixtures.world_at 1500 0 50000) s)
  = Fixtures.store_1 VIP1 CANCELLED.
Proof. vm_compute. reflexivity. Qed.

(** Replacing the pending plan and the admin rejection release the address
    without looking at any balance. *)
Lemma force_reject_transaction_releases tx_id d tx :
  transactions d !! tx_id = Some tx →
  status tx = PENDING →
  Admin.force_reject_transaction tx_id d
  = release_btc_address (btc_address tx)
      (update_transaction_status tx_id CANCELLED None d).
Proof.
  intros Hlook Hp. unfold Admin.force_reject_transaction. rewrite Hlook.
  by apply StoreFacts.is_pending_true in Hp as ->.
Qed.

(** C1, where the code departs from it.  User 7 has the pending
    transaction 1 for VIP1 on [address_A], and every balance source
    reports 50000 satoshis (0.0005 BTC, a partial payment) on that
    address.  When the user asks for VIP2, [initiate_purchase] cancels
    transaction 1 and releases [address_A]: the address is available
    again although its balance is not zero.  The admin rejection of
    transaction 1 does the same.  On the same store [cancel_plan] cancels
    the transaction and keeps the address assigned. *)
Theorem replaced_or_rejected_transaction_releases_paid_address :
  let w := Fixtures.world_at 1500 1 50000 in
  let s := {| store := Fixtures.store_1 VIP1 PENDING; requests := [] |} in
  let replaced := store (Handlers.initiate_purchase 7 VIP2 w s).1 in
  let rejected := Admin.force_reject_transaction 1 (store s) in
  let cancelled := store (Handlers.cancel_plan 7 w s) in
  observed_balance w s (1, Fixtures.transaction_1 VIP1 PENDING) = 0.0005%float
  ∧ PrimFloat.eqb 0.0005%float 0 = false
  ∧ status <$> transactions replaced !! 1 = Some CANCELLED
  ∧ btc_addresses replaced !! Fixtures.address_A = Some Fixtures.free_row
  ∧ status <$> transactions rejected !! 1 = Some CANCELLED
  ∧ btc_addresses rejected !! Fixtures.address_A = Some Fixtures.free_row
  ∧ status <$> transactions cancelled !! 1 = Some CANCELLED
  ∧ is_used <$> btc_addresses cancelled !! Fixtures.address_A = Some true.
Proof. cbv zeta. repeat split; vm_compute; reflexivity. Qed.

End ReleaseFacts.

(** ** bot/handlers.py: asking for a plan again *)

Module PurchaseFacts.
Import Models Database Engine StoreFacts Notions.

(** A stored [plan_type] never equals a [PlanType] member. *)
Lemma py_eq_str_plan s p : py_eq (PyStr s) (PyPlanType p) = false.
Proof. done. Qed.

(** So [initiate_purchase] never shows the existing transaction and never
    answers that the plan is already active. *)
Lemma initiate_purchase_never_shows_existing user plan w s :
  (∀ tx, (Handlers.initiate_purchase user plan w s).2 ≠ Handlers.ShowExisting tx)
  ∧ (Handlers.initiate_purchase user plan w s).2 ≠ Handlers.AlreadySubscribed.
Proof.
  unfold Handlers.initiate_purchase.
  destruct (BtcApi.get_btc_price _ _ _) as [btc_price log1].
  destruct (PrimFloat.eqb btc_price 0); [by split|].
  assert (Halready :
    match get_active_subscription user (now w) (store s) with
    | Some active => py_eq (PyStr (sub_plan_type active)) (PyPlanType plan)
    | None => false
    end = false) by by destruct (get_active_subscription _ _ _).
  rewrite Halready.
  destruct (get_pending_transaction user (store s)) as [pending_tx|];
    rewrite ?py_eq_str_plan;
    destruct (PaymentService.create_payment _ _ _ _ _ _) as [d1 [p|]];
    by split.
Qed.

(** With a price, a pending transaction of the user is cancelled and its
    address released, whatever plan it was for, before the allocator
    runs. *)
Lemma initiate_purchase_replaces_pending user plan w s i t :
  PrimFloat.eqb (BtcApi.get_btc_price (net w) (btc_api w) (requests s)).1 0 = false →
  get_pending_transaction user (store s) = Some (i, t) →
  store (Handlers.initiate_purchase user plan w s).1
  = (PaymentService.create_payment user plan
       (BtcApi.get_btc_price (net w) (btc_api w) (requests s)).1 (rnd w) (now w)
       (release_btc_address (btc_address t)
          (update_transaction_status i CANCELLED None (store s)))).1.
Proof.
  intros Hprice Hpending. unfold Handlers.initiate_purchase.
  destruct (BtcApi.get_btc_price _ _ _) as [btc_price log1]. cbn [fst] in *.
  rewrite Hprice, Hpending.
  assert (Halready :
    match get_active_subscription user (now w) (store s) with
    | Some active => py_eq (PyStr (sub_plan_type active)) (PyPlanType plan)
    | None => false
    end = false) by by destruct (get_active_subscription _ _ _).
  rewrite Halready, py_eq_str_plan. simpl.
  by destruct (PaymentService.create_payment _ _ _ _ _ _) as [d1 r].
Qed.

(** C5, where the code departs from it.  User 7 has the pending
    transaction 1 for VIP1 on [address_A] and asks for VIP1 again.  The
    comparison of the stored ["VIP1"] with [PlanType.VIP1] is false, so
    the request is handled as a change of plan: transaction 1 is
    cancelled, its address released, a second address is allocated and a
    new transaction 2 is created and shown. *)
Theorem repeated_request_replaces_pending_transaction :
  let w := Fixtures.world_at 1500 1 0 in
  let s := {| store := Fixtures.store_1 VIP1 PENDING; requests := [] |} in
  let r := Handlers.initiate_purchase 7 VIP1 w s in
  get_pending_transaction 7 (store s)
  = Some (1, Fixtures.transaction_1 VIP1 PENDING)
  ∧ py_eq (PyStr (plan_type (Fixtures.transaction_1 VIP1 PENDING)))
      (PyPlanType VIP1) = false
  ∧ r.2 = Handlers.ShowPayment
            (new_payment 2 VIP1 50000%float Fixtures.address_B 1500)
  ∧ transactions (store r.1) !! 1 = Some (Fixtures.transaction_1 VIP1 CANCELLED)
  ∧ transactions (store r.1) !! 2
    = Some (new_transaction 7 VIP1 50000%float
              Fixtures.address_B 1500)
  ∧ btc_addresses (store r.1) !! Fixtures.address_A = Some Fixtures.free_row
  ∧ is_used <$> btc_addresses (store r.1) !! Fixtures.address_B = Some true.
Proof. cbv zeta. repeat split; vm_compute; reflexivity. Qed.

End PurchaseFacts.

(** ** The life cycle of a transaction *)

Module LifecycleFacts.
Import Models Database Engine StoreFacts Operations Notions.

Lemma settled_kept_refl d : settled_kept d d.
Proof. by intros i t. Qed.

Lemma settled_kept_trans d1 d2 d3 :
  settled_kept d1 d2 → settled_kept d2 d3 → settled_kept d1 d3.
Proof. intros H12 H23 i t Hlook Hs. apply H23; [by apply H12|done]. Qed.

Lemma settled_kept_same d d' :
  transactions d' = transactions d → settled_kept d d'.
Proof. intros Heq i t. by rewrite Heq. Qed.

Lemma only_at_same i d d' : transactions d' = transactions d → only_at i d d'.
Proof. intros Heq j _. by rewrite Heq. Qed.

Lemma only_at_trans i d1 d2 d3 : only_at i d1 d2 → only_at i d2 d3 → only_at i d1 d3.
Proof. intros H12 H23 j Hne. by rewrite H23, H12. Qed.

Lemma update_transaction_status_only_at i st c d :
  only_at i d (update_transaction_status i st c d).
Proof. intros j Hne. cbn. by rewrite lookup_alter_ne. Qed.

(** A write on a row that is pending, or on no row, keeps every settled
    transaction. *)
Lemma only_at_settled_kept i d d' :
  (∀ t, transactions d !! i = Some t → status t = PENDING) →
  only_at i d d' → settled_kept d d'.
Proof.
  intros Hp Honly j t Hlook Hs. destruct (decide (j = i)) as [->|Hne].
  - by destruct Hs; apply Hp.
  - by rewrite Honly.
Qed.

(** A loop whose body writes only the row it is given, run over rows that
    were pending in [d0], keeps every transaction that was settled in
    [d0]. *)
Lemma loop_settled_kept {S} (proj : S → db) (f : S → Z * transaction → S)
    (l : list (Z * transaction)) (d0 : db) (s : S) :
  (∀ s tx, only_at tx.1 (proj s) (proj (f s tx))) →
  (∀ tx, tx ∈ l → ∀ t, transactions d0 !! tx.1 = Some t → status t = PENDING) →
  settled_kept d0 (proj s) →
  settled_kept d0 (proj (foldl f s l)).
Proof.
  intros Hbody. revert s. induction l as [|tx rest IH]; intros s Hrows Hs; simpl.
  - done.
  - apply IH.
    + intros tx' Hin. apply Hrows. by apply list_elem_of_further.
    + intros j t Hlook Hsettled. rewrite Hbody.
      * by apply Hs.
      * intros ->. destruct Hsettled.
        by apply (Hrows tx (list_elem_of_here _ _)).
Qed.

Lemma confirm_payment_only_at now tx d :
  only_at tx.1 d (PaymentChecker.confirm_payment now tx d).
Proof.
  unfold PaymentChecker.confirm_payment.
  destruct (PlanType_of_value (plan_type tx.2));
    apply update_transaction_status_only_at.
Qed.

Lemma check_single_payment_only_at w tx s :
  only_at tx.1 (store s) (store (PaymentChecker.check_single_payment w tx s)).
Proof.
  unfold PaymentChecker.check_single_payment.
  destruct (BtcApi.check_address_balance _ _ _ _) as [balance log1].
  destruct (PrimFloat.leb _ _); [|by apply only_at_same].
  destruct (BtcApi.check_double_spend _ _ _ _) as [[|] log2].
  - by apply only_at_same.
  - apply confirm_payment_only_at.
Qed.

Lemma expire_one_only_at w s tx :
  only_at tx.1 (store s) (store (PaymentChecker.expire_one w s tx)).
Proof.
  rewrite (proj1 (ReleaseFacts.expire_one_gate w s tx)).
  destruct (PrimFloat.eqb _ _); intros j Hne; cbn; by rewrite lookup_alter_ne.
Qed.

Lemma cancel_one_only_at w s tx :
  only_at tx.1 (store s) (store (Handlers.cancel_one w s tx)).
Proof.
  rewrite (proj1 (ReleaseFacts.cancel_one_gate w s tx)).
  destruct (PrimFloat.eqb _ _); intros j Hne; cbn; by rewrite lookup_alter_ne.
Qed.

Lemma handle_expired_transactions_settled_kept w s :
  settled_kept (store s) (store (PaymentChecker.handle_expired_transactions w s)).
Proof.
  unfold PaymentChecker.handle_expired_transactions.
  apply (loop_settled_kept store).
  - intros s' tx. apply expire_one_only_at.
  - intros [i t] Hin t' Hlook. unfold PaymentChecker.expired_transactions in Hin.
    apply list_elem_of_filter in Hin as [[Hp _] Hin]. simpl in *.
    apply elem_of_map_to_list in Hin. apply is_pending_true in Hp. congruence.
  - apply settled_kept_refl.
Qed.

Lemma check_payments_job_settled_kept w s :
  settled_kept (store s) (store (PaymentChecker.check_payments_job w s)).
Proof.
  unfold PaymentChecker.check_payments_job.
  eapply settled_kept_trans; [|apply handle_expired_transactions_settled_kept].
  apply (loop_settled_kept store
           (λ acc tx, PaymentChecker.check_single_payment w tx acc)).
  - intros s' tx. apply check_single_payment_only_at.
  - intros [i t] Hin t' Hlook.
    apply elem_of_get_pending_transactions in Hin as [Hin Hp]. simpl in *.
    congruence.
  - apply settled_kept_refl.
Qed.

Lemma cancel_plan_settled_kept user w s :
  settled_kept (store s) (store (Handlers.cancel_plan user w s)).
Proof.
  unfold Handlers.cancel_plan. apply (loop_settled_kept store).
  - intros s' tx. apply cancel_one_only_at.
  - intros [i t] Hin t' Hlook.
    apply list_elem_of_filter in Hin as [Hp Hin]. simpl in *.
    apply elem_of_get_user_transactions in Hin as [Hin _].
    apply is_pending_true in Hp. congruence.
  - apply settled_kept_refl.
Qed.

Lemma create_payment_settled_kept user plan btc_price rnd now d :
  settled_kept d (PaymentService.create_payment user plan btc_price rnd now d).1.
Proof.
  unfold PaymentService.create_payment.
  destruct (get_active_subscription user now d); [apply settled_kept_refl|].
  assert (Hnext : transactions (get_next_btc_address user rnd now d).1
                  = transactions d).
  { unfold get_next_btc_address.
    destruct (pending_address user d); [done|].
    destruct (get_available_btc_address rnd d) as [address|]; [|done].
    pose proof (PoolFacts.assign_btc_address_transactions address user now d)
      as [Htx _].
    by destruct (assign_btc_address address user now d) as [d1 [|]]. }
  destruct (get_next_btc_address user rnd now d) as [d1 [address|]];
    simpl in Hnext; [|by apply settled_kept_same].
  destruct (PrimFloat.eqb btc_price 0); [by apply settled_kept_same|].
  intros i t Hlook Hs. cbn. rewrite Hnext.
  rewrite lookup_insert_ne; [done|].
  intros <-. by rewrite next_id_fresh in Hlook.
Qed.

Lemma initiate_purchase_settled_kept user plan w s :
  settled_kept (store s) (store (Handlers.initiate_purchase user plan w s).1).
Proof.
  unfold Handlers.initiate_purchase.
  destruct (BtcApi.get_btc_price _ _ _) as [btc_price log1].
  destruct (PrimFloat.eqb btc_price 0); [apply settled_kept_refl|].
  destruct (match get_active_subscription user (now w) (store s) with
            | Some active => _ | None => _ end); [apply settled_kept_refl|].
  destruct (get_pending_transaction user (store s)) as [[i t]|] eqn:Hpending.
  - destruct (py_eq _ _); [apply settled_kept_refl|]. simpl.
    apply get_pending_transaction_Some in Hpending as (Hlook & _ & Hp).
    pose proof (create_payment_settled_kept user plan btc_price (rnd w) (now w)
                  (release_btc_address (btc_address t)
                     (update_transaction_status i CANCELLED None (store s))))
      as Hcreate.
    destruct (PaymentService.create_payment _ _ _ _ _ _) as [d1 r]. simpl in *.
    eapply settled_kept_trans; [|exact Hcreate].
    apply (only_at_settled_kept i).
    + intros t' Ht'. congruence.
    + apply update_transaction_status_only_at.
  - pose proof (create_payment_settled_kept user plan btc_price (rnd w) (now w)
                  (store s)) as Hcreate.
    by destruct (PaymentService.create_payment _ _ _ _ _ _) as [d1 r].
Qed.

Lemma force_approve_transaction_settled_kept tx_id now d :
  settled_kept d (Admin.force_approve_transaction tx_id now d).
Proof.
  unfold Admin.force_approve_transaction.
  destruct (transactions d !! tx_id) as [tx|] eqn:Hlook; [|apply settled_kept_refl].
  destruct (is_pending tx) eqn:Hp; [|apply settled_kept_refl]. simpl.
  apply is_pending_true in Hp. apply (only_at_settled_kept tx_id).
  - intros t Ht. congruence.
  - destruct (PlanType_of_value (plan_type tx));
      apply update_transaction_status_only_at.
Qed.

Lemma force_reject_transaction_settled_kept tx_id d :
  settled_kept d (Admin.force_reject_transaction tx_id d).
Proof.
  unfold Admin.force_reject_transaction.
  destruct (transactions d !! tx_id) as [tx|] eqn:Hlook; [|apply settled_kept_refl].
  destruct (is_pending tx) eqn:Hp; [|apply settled_kept_refl]. simpl.
  apply is_pending_true in Hp. apply (only_at_settled_kept tx_id).
  - intros t Ht. congruence.
  - apply update_transaction_status_only_at.
Qed.

Lemma foldl_release_transactions (rows : list (Z * transaction)) d :
  transactions (foldl (λ acc kv, release_btc_address (btc_address kv.2) acc) d rows)
  = transactions d.
Proof.
  revert d. induction rows as [|kv rest IH]; intros d; simpl; [done|].
  by rewrite IH.
Qed.

Lemma expire_old_transactions_settled_kept now d :
  settled_kept d (expire_old_transactions now d).1.
Proof.
  unfold expire_old_transactions. simpl.
  eapply settled_kept_trans;
    [|apply settled_kept_same, foldl_release_transactions].
  apply (loop_settled_kept (λ acc, acc)
           (λ acc kv, update_transaction_status kv.1 EXPIRED None acc)).
  - intros acc tx. apply update_transaction_status_only_at.
  - intros [i t] Hin t' Hlook.
    apply list_elem_of_filter in Hin as [[Hp _] Hin]. simpl in *.
    apply elem_of_map_to_list in Hin. apply is_pending_true in Hp. congruence.
  - apply settled_kept_refl.
Qed.

Lemma run_settled_kept op s : settled_kept (store s) (store (run op s)).
Proof.
  destruct op; simpl.
  - apply check_payments_job_settled_kept.
  - apply cancel_plan_settled_kept.
  - apply initiate_purchase_settled_kept.
  - apply create_payment_settled_kept.
  - apply force_approve_transaction_settled_kept.
  - apply force_reject_transaction_settled_kept.
  - apply expire_old_transactions_settled_kept.
Qed.

Lemma run_all_settled_kept ops s : settled_kept (store s) (store (run_all ops s)).
Proof.
  unfold run_all. revert s. induction ops as [|op rest IH]; intros s; simpl.
  - apply settled_kept_refl.
  - eapply settled_kept_trans; [apply run_settled_kept|apply IH].
Qed.

(** C2 as stated fails for the writes that carry no guard.
    [update_transaction_status] sets the status of whatever id it is
    given, and [PaymentService.confirm_payment] calls it on the
    transaction it is handed: on a store where transaction 1 is expired,
    both leave it confirmed.  The callers' guards are read-then-write: when
    the admin approves transaction 1 after the expiry sweep has selected
    it and before the sweep writes (the sweep awaits the balance in
    between), the confirmed transaction becomes expired. *)
Lemma unguarded_write_changes_settled_transaction :
  let d := Fixtures.store_1 VIP1 EXPIRED in
  let s := {| store := Fixtures.store_1 VIP1 PENDING; requests := [] |} in
  let selected := PaymentChecker.expired_transactions 3000 (store s) in
  let approved := run (ForceApprove 1 3000) s in
  status <$> transactions d !! 1 = Some EXPIRED
  ∧ status <$> transactions (update_transaction_status 1 CONFIRMED (Some 3000) d) !! 1
    = Some CONFIRMED
  ∧ status <$> transactions
                 (PaymentService.confirm_payment
                    (1, Fixtures.transaction_1 VIP1 PENDING) 3000 d).1 !! 1
    = Some CONFIRMED
  ∧ status <$> transactions (store approved) !! 1 = Some CONFIRMED
  ∧ status <$> transactions
                 (store (foldl (PaymentChecker.expire_one (Fixtures.world_at 3000 0 0))
                           approved selected)) !! 1
    = Some EXPIRED.
Proof. cbv zeta. repeat split; vm_compute; reflexivity. Qed.

(** C2, amended: every entry point that changes a status (the periodic
    job with its confirmations and its expiry sweep, [cancel_plan], the
    replacement of the pending plan in [initiate_purchase],
    [create_payment], the admin approval and rejection,
    [expire_old_transactions]) selects or checks pending transactions
    before it writes.  So, the entry points running one after another, a
    transaction that is confirmed, expired or cancelled stays the row it
    is through every later operation, and an operation that changes the
    status of a transaction found it pending. *)
Theorem settled_transactions_never_change :
  (∀ ops s i t,
     transactions (store s) !! i = Some t → status t ≠ PENDING
     → transactions (store (run_all ops s)) !! i = Some t)
  ∧ (∀ op s i t t',
       transactions (store s) !! i = Some t
       → transactions (store (run op s)) !! i = Some t'
       → status t' ≠ status t
       → status t = PENDING).
Proof.
  split.
  - intros ops s. apply run_all_settled_kept.
  - intros op s i t t' Hbefore Hafter Hchanged.
    destruct (status t) eqn:Hst; [done|..];
      (rewrite (run_settled_kept op s i t Hbefore) in Hafter by congruence;
       congruence).
Qed.

(** The amended C2 on a history: transaction 1 is expired; the admin tries
    to approve and to reject it, the user cancels and asks for another
    plan, the periodic job and the cleanup run; transaction 1 is the same
    row at the end.  And the approval of a pending transaction 1 changes
    a status that was pending. *)
Lemma settled_transactions_never_change_witness :
  let w := Fixtures.world_at 3000 1 100000 in
  let s := {| store := Fixtures.store_1 VIP1 EXPIRED; requests := [] |} in
  let ops := [ForceApprove 1 3000; ForceReject 1; CancelPlan 7 w;
              InitiatePurchase 7 VIP2 w; CheckPaymentsJob w;
              ExpireOldTransactions 9000] in
  transactions (store (run_all ops s)) !! 1
  = Some (Fixtures.transaction_1 VIP1 EXPIRED)
  ∧ status (Fixtures.transaction_1 VIP1 PENDING) = PENDING.
Proof.
  cbv zeta. destruct settled_transactions_never_change as [Hkept Hchanged].
  split.
  - apply Hkept; [vm_compute; reflexivity|done].
  - apply (Hchanged (ForceApprove 1 3000)
             {| store := Fixtures.store_1 VIP1 PENDING; requests := [] |} 1
             (Fixtures.transaction_1 VIP1 PENDING)
             {| user_id := 7; plan_type := "VIP1";
                btc_address := Fixtures.address_A;
                btc_amount := 0.001%float; usd_amount := 50%float;
                btc_rate := 50000%float; status := CONFIRMED;
                created_at := 1000; expires_at := 2800;
                confirmed_at := Some 3000 |}).
    + vm_compute. reflexivity.
    + vm_compute. reflexivity.
    + done.
Defined.

End LifecycleFacts.

(** ** One pending transaction per user *)

Module SinglePendingFacts.
Import Models Database Engine StoreFacts Operations Notions.

Lemma no_new_pending_refl d : no_new_pending d d.
Proof. by intros i t. Qed.

Lemma no_new_pending_trans d1 d2 d3 :
  no_new_pending d1 d2 → no_new_pending d2 d3 → no_new_pending d1 d3.
Proof. intros H12 H23 i t Hlook Hp. apply H12; [by apply H23|done]. Qed.

Lemma no_new_pending_same d d' :
  transactions d' = transactions d → no_new_pending d d'.
Proof. intros Heq i t. by rewrite Heq. Qed.

Lemma no_new_pending_single d d' :
  no_new_pending d d' → single_pending d → single_pending d'.
Proof. intros Hno Hd i j t u Ht Hu Hpt Hpu. apply Hd; by try apply Hno. Qed.

Lemma update_transaction_status_no_new_pending i st c d :
  st ≠ PENDING → no_new_pending d (update_transaction_status i st c d).
Proof.
  intros Hst j t Hlook Hp. cbn in Hlook.
  destruct (decide (i = j)) as [->|Hne].
  - rewrite lookup_alter_eq in Hlook.
    destruct (transactions d !! j) as [t0|]; [|done].
    injection Hlook as <-. by destruct Hst.
  - by rewrite lookup_alter_ne in Hlook.
Qed.

Lemma loop_no_new_pending {S X} (proj : S → db) (f : S → X → S) (l : list X) (s : S) :
  (∀ s x, no_new_pending (proj s) (proj (f s x))) →
  no_new_pending (proj s) (proj (foldl f s l)).
Proof.
  intros Hbody. revert s. induction l as [|x rest IH]; intros s; simpl.
  - apply no_new_pending_refl.
  - eapply no_new_pending_trans; [apply Hbody|apply IH].
Qed.

Lemma confirm_payment_no_new_pending now tx d :
  no_new_pending d (PaymentChecker.confirm_payment now tx d).
Proof.
  unfold PaymentChecker.confirm_payment.
  destruct (PlanType_of_value (plan_type tx.2));
    by apply update_transaction_status_no_new_pending.
Qed.

Lemma check_single_payment_no_new_pending w tx s :
  no_new_pending (store s) (store (PaymentChecker.check_single_payment w tx s)).
Proof.
  unfold PaymentChecker.check_single_payment.
  destruct (BtcApi.check_address_balance _ _ _ _) as [balance log1].
  destruct (PrimFloat.leb _ _); [|apply no_new_pending_refl].
  destruct (BtcApi.check_double_spend _ _ _ _) as [[|] log2].
  - apply no_new_pending_refl.
  - apply confirm_payment_no_new_pending.
Qed.

Lemma expire_one_no_new_pending w s tx :
  no_new_pending (store s) (store (PaymentChecker.expire_one w s tx)).
Proof.
  assert (Hwrite : ∀ d, no_new_pending d
                           (update_transaction_status tx.1 EXPIRED None d))
    by (intros d; by apply update_transaction_status_no_new_pending).
  rewrite (proj1 (ReleaseFacts.expire_one_gate w s tx)).
  destruct (PrimFloat.eqb _ _); [|apply Hwrite].
  apply (no_new_pending_trans _ (release_btc_address (btc_address tx.2) (store s)));
    [by apply no_new_pending_same|apply Hwrite].
Qed.

Lemma cancel_one_no_new_pending w s tx :
  no_new_pending (store s) (store (Handlers.cancel_one w s tx)).
Proof.
  assert (Hwrite : ∀ d, no_new_pending d
                           (update_transaction_status tx.1 CANCELLED None d))
    by (intros d; by apply update_transaction_status_no_new_pending).
  rewrite (proj1 (ReleaseFacts.cancel_one_gate w s tx)).
  destruct (PrimFloat.eqb _ _); [|apply Hwrite].
  apply (no_new_pending_trans _ (release_btc_address (btc_address tx.2) (store s)));
    [by apply no_new_pending_same|apply Hwrite].
Qed.

Lemma check_payments_job_no_new_pending w s :
  no_new_pending (store s) (store (PaymentChecker.check_payments_job w s)).
Proof.
  unfold PaymentChecker.check_payments_job,
    PaymentChecker.handle_expired_transactions.
  eapply no_new_pending_trans.
  - apply (loop_no_new_pending store
             (λ acc tx, PaymentChecker.check_single_payment w tx acc)).
    intros s' tx. apply check_single_payment_no_new_pending.
  - apply (loop_no_new_pending store). intros s' tx.
    apply expire_one_no_new_pending.
Qed.

Lemma cancel_plan_no_new_pending user w s :
  no_new_pending (store s) (store (Handlers.cancel_plan user w s)).
Proof.
  unfold Handlers.cancel_plan. apply (loop_no_new_pending store).
  intros s' tx. apply cancel_one_no_new_pending.
Qed.

Lemma force_approve_transaction_no_new_pending tx_id now d :
  no_new_pending d (Admin.force_approve_transaction tx_id now d).
Proof.
  unfold Admin.force_approve_transaction.
  destruct (transactions d !! tx_id) as [tx|]; [|apply no_new_pending_refl].
  destruct (is_pending tx); [|apply no_new_pending_refl]. simpl.
  destruct (PlanType_of_value (plan_type tx));
    by apply update_transaction_status_no_new_pending.
Qed.

Lemma force_reject_transaction_no_new_pending tx_id d :
  no_new_pending d (Admin.force_reject_transaction tx_id d).
Proof.
  unfold Admin.force_reject_transaction.
  destruct (transactions d !! tx_id) as [tx|]; [|apply no_new_pending_refl].
  destruct (is_pending tx); [|apply no_new_pending_refl]. simpl.
  by apply (update_transaction_status_no_new_pending tx_id CANCELLED None).
Qed.

Lemma expire_old_transactions_no_new_pending now d :
  no_new_pending d (expire_old_transactions now d).1.
Proof.
  unfold expire_old_transactions. simpl.
  eapply no_new_pending_trans;
    [|apply no_new_pending_same, LifecycleFacts.foldl_release_transactions].
  apply (loop_no_new_pending (λ acc, acc)
           (λ acc kv, update_transaction_status kv.1 EXPIRED None acc)).
  intros acc kv. by apply update_transaction_status_no_new_pending.
Qed.

(** The allocator adds a pending transaction only for a user who has
    none. *)
Lemma create_payment_single_pending user plan btc_price rnd now d :
  single_pending d →
  single_pending (PaymentService.create_payment user plan btc_price rnd now d).1.
Proof.
  intros Hd.
  destruct (get_active_subscription user now d) as [sub|] eqn:Hsub.
  { apply get_active_subscription_Some in Hsub as [Hin Hactive].
    rewrite AllocatorFacts.create_payment_active; [done|by exists sub]. }
  apply get_active_subscription_None in Hsub.
  destruct (pending_address user d) as [existing|] eqn:Hexisting.
  { apply pending_address_Some in Hexisting.
    by rewrite AllocatorFacts.create_payment_pending. }
  apply pending_address_None in Hexisting.
  destruct (get_available_btc_address rnd d) as [address|] eqn:Ha.
  2:{ apply PoolFacts.get_available_btc_address_None in Ha.
      by rewrite AllocatorFacts.create_payment_no_address. }
  destruct (PrimFloat.eqb btc_price 0) eqn:Hprice.
  { apply (no_new_pending_single d); [|done]. apply no_new_pending_same.
    unfold PaymentService.create_payment.
    apply get_active_subscription_None in Hsub as ->.
    rewrite (AllocatorFacts.get_next_btc_address_assigns user rnd now d address)
      by done.
    by rewrite Hprice. }
  rewrite (AllocatorFacts.create_payment_creates user plan btc_price rnd now d
             address) by done.
  intros i j t u Ht Hu Hpt Hpu Huser. cbn in Ht, Hu.
  apply lookup_insert_Some in Ht as [[<- <-]|[Hi Ht]];
    apply lookup_insert_Some in Hu as [[<- <-]|[Hj Hu]].
  - done.
  - destruct Hexisting. exists j, u. by rewrite <- Huser.
  - destruct Hexisting. exists i, t. by rewrite Huser.
  - by apply (Hd i j t u).
Qed.

Lemma initiate_purchase_single_pending user plan w s :
  single_pending (store s) →
  single_pending (store (Handlers.initiate_purchase user plan w s).1).
Proof.
  intros Hd. unfold Handlers.initiate_purchase.
  destruct (BtcApi.get_btc_price _ _ _) as [btc_price log1].
  destruct (PrimFloat.eqb btc_price 0); [done|].
  destruct (match get_active_subscription user (now w) (store s) with
            | Some active => _ | None => _ end); [done|].
  destruct (get_pending_transaction user (store s)) as [[i t]|].
  - destruct (py_eq _ _); [done|].
    pose proof (create_payment_single_pending user plan btc_price (rnd w) (now w)
                  (release_btc_address (btc_address t)
                     (update_transaction_status i CANCELLED None (store s))))
      as Hcreate.
    destruct (PaymentService.create_payment _ _ _ _ _ _) as [d1 r]. simpl in *.
    apply Hcreate.
    apply (no_new_pending_single (store s)); [|done].
    by apply (update_transaction_status_no_new_pending i CANCELLED None).
  - pose proof (create_payment_single_pending user plan btc_price (rnd w) (now w)
                  (store s) Hd) as Hcreate.
    by destruct (PaymentService.create_payment _ _ _ _ _ _) as [d1 r].
Qed.

Lemma run_single_pending op s :
  single_pending (store s) → single_pending (store (run op s)).
Proof.
  intros Hd. destruct op; simpl.
  - by eapply no_new_pending_single; [apply check_payments_job_no_new_pending|].
  - by eapply no_new_pending_single; [apply cancel_plan_no_new_pending|].
  - by apply initiate_purchase_single_pending.
  - by apply create_payment_single_pending.
  - by eapply no_new_pending_single;
      [apply force_approve_transaction_no_new_pending|].
  - by eapply no_new_pending_single;
      [apply force_reject_transaction_no_new_pending|].
  - by eapply no_new_pending_single;
      [apply expire_old_transactions_no_new_pending|].
Qed.

Lemma empty_db_single_pending : single_pending empty_db.
Proof. intros i j t u Ht. cbn in Ht. by rewrite lookup_empty in Ht. Qed.

(** Whatever operations run one after another, the invariant is kept; it
    holds in the empty store, so no user ever has two pending
    transactions. *)
Lemma run_all_single_pending ops s :
  single_pending (store s) → single_pending (store (run_all ops s)).
Proof.
  unfold run_all. revert s.
  induction ops as [|op rest IH]; intros s Hs; simpl; [done|].
  apply IH. by apply run_single_pending.
Qed.

End SinglePendingFacts.

(** ** database.py: the laws of the pool *)

Module PoolLaws.
Import Models Database Maintenance Notions.

(** X1: [release_btc_address] makes the address available whatever state
    it was in and whoever held it, does nothing for an address that is
    not in the pool, leaves every other address, every transaction and
    every subscription alone, removes no address, and releasing twice is
    releasing once. *)
Theorem release_btc_address_unconditional address d :
  (is_Some (btc_addresses d !! address)
   → btc_addresses (release_btc_address address d) !! address
     = Some {| is_used := false; assigned_to := None; assigned_at := None |})
  ∧ (btc_addresses d !! address = None → release_btc_address address d = d)
  ∧ (∀ other, other ≠ address
       → btc_addresses (release_btc_address address d) !! other
         = btc_addresses d !! other)
  ∧ dom (btc_addresses (release_btc_address address d)) = dom (btc_addresses d)
  ∧ transactions (release_btc_address address d) = transactions d
  ∧ subscriptions (release_btc_address address d) = subscriptions d
  ∧ release_btc_address address (release_btc_address address d)
    = release_btc_address address d.
Proof.
  repeat split.
  - intros [r Hr]. cbn. by rewrite lookup_alter_eq, Hr.
  - intros Hnone. destruct d as [pool txs subs]. unfold release_btc_address, set_btc_addresses.
    cbn in *. f_equal. apply map_eq. intros a.
    destruct (decide (address = a)) as [->|Hne].
    + by rewrite lookup_alter_eq, Hnone.
    + by rewrite lookup_alter_ne.
  - intros other Hne. cbn. by rewrite lookup_alter_ne.
  - cbn. apply dom_alter_L.
  - apply PoolFacts.release_btc_address_idempotent.
Qed.

Lemma db_eq (d1 d2 : db) :
  btc_addresses d1 = btc_addresses d2 → transactions d1 = transactions d2
  → subscriptions d1 = subscriptions d2 → d1 = d2.
Proof. destruct d1, d2. cbn. by intros -> -> ->. Qed.

Lemma insert_address_lookup d address a :
  btc_addresses (insert_address d address) !! a
  = match btc_addresses d !! a with
    | Some r => Some r
    | None => if decide (a = address)
              then Some {| is_used := false; assigned_to := None;
                           assigned_at := None |}
              else None
    end.
Proof.
  unfold insert_address.
  destruct (btc_addresses d !! address) as [r|] eqn:Hr.
  - destruct (btc_addresses d !! a) eqn:Ha; [done|].
    case_decide; [congruence|done].
  - cbn. destruct (decide (a = address)) as [->|Hne].
    + by rewrite lookup_insert_eq, Hr.
    + rewrite lookup_insert_ne by done. by destruct (btc_addresses d !! a).
Qed.

Lemma insert_address_others d address :
  transactions (insert_address d address) = transactions d
  ∧ subscriptions (insert_address d address) = subscriptions d.
Proof. unfold insert_address. by destruct (btc_addresses d !! address). Qed.

Lemma seed_lookup addresses d a :
  btc_addresses (foldl insert_address d addresses) !! a
  = match btc_addresses d !! a with
    | Some r => Some r
    | None => if decide (a ∈ addresses)
              then Some {| is_used := false; assigned_to := None;
                           assigned_at := None |}
              else None
    end.
Proof.
  revert d. induction addresses as [|x rest IH]; intros d.
  - cbn [foldl]. destruct (btc_addresses d !! a); [done|].
    destruct (decide (a ∈ [])) as [Hin|_]; [|done]. by apply elem_of_nil in Hin.
  - cbn [foldl]. rewrite IH, insert_address_lookup.
    destruct (btc_addresses d !! a) as [r|]; [done|].
    destruct (decide (a = x)) as [->|Hne].
    + destruct (decide (x ∈ x :: rest)) as [_|Hout]; [done|].
      destruct Hout. apply list_elem_of_here.
    + destruct (decide (a ∈ rest)) as [Hin|Hout];
        destruct (decide (a ∈ x :: rest)) as [Hin'|Hout']; try done.
      * destruct Hout'. by apply list_elem_of_further.
      * by apply elem_of_cons in Hin' as [?|?].
Qed.

Lemma seed_others addresses d :
  transactions (foldl insert_address d addresses) = transactions d
  ∧ subscriptions (foldl insert_address d addresses) = subscriptions d.
Proof.
  revert d. induction addresses as [|x rest IH]; intros d; simpl; [done|].
  destruct (IH (insert_address d x)) as [-> ->]. apply insert_address_others.
Qed.

Lemma cleaned_not_empty strip items a : a ∈ cleaned strip items → a ≠ "".
Proof.
  unfold cleaned. intros Hin. apply list_elem_of_In, in_map_iff in Hin as (x & <- & Hx).
  apply list_elem_of_In, list_elem_of_filter in Hx as [Hne _]. done.
Qed.

Lemma load_addresses_not_empty strip file_lines env a :
  a ∈ load_addresses strip file_lines env → a ≠ "".
Proof.
  unfold load_addresses. intros [Hin|Hin]%elem_of_app.
  - destruct file_lines as [lines|]; [by eapply cleaned_not_empty|].
    by apply elem_of_nil in Hin.
  - by eapply cleaned_not_empty.
Qed.

(** X2: seeding the pool at start-up, whatever the file and the
    environment hold: a row that is already in the pool is kept as it is
    (an assigned address stays assigned to its user), every collected
    address is in the pool afterwards, a new row is available, the empty
    string never becomes an address, transactions and subscriptions are
    untouched, and seeding again changes nothing. *)
Theorem init_btc_addresses_keeps_rows strip file_lines env d :
  let d' := init_btc_addresses strip file_lines env d in
  (∀ a r, btc_addresses d !! a = Some r → btc_addresses d' !! a = Some r)
  ∧ (∀ a, a ∈ load_addresses strip file_lines env
       → is_Some (btc_addresses d' !! a))
  ∧ (∀ a r, btc_addresses d' !! a = Some r
       → btc_addresses d !! a = Some r
         ∨ (a ∈ load_addresses strip file_lines env
            ∧ r = {| is_used := false; assigned_to := None;
                     assigned_at := None |}))
  ∧ (btc_addresses d !! "" = None → btc_addresses d' !! "" = None)
  ∧ transactions d' = transactions d
  ∧ subscriptions d' = subscriptions d
  ∧ init_btc_addresses strip file_lines env d' = d'.
Proof.
  cbv zeta. unfold init_btc_addresses.
  set (addresses := load_addresses strip file_lines env).
  assert (Hempty : "" ∉ addresses).
  { intros Hin. by apply load_addresses_not_empty in Hin. }
  clearbody addresses.
  split; [|split; [|split; [|split; [|split; [|split]]]]].
  - intros a r Ha. by rewrite seed_lookup, Ha.
  - intros a Hin. rewrite seed_lookup.
    destruct (btc_addresses d !! a); [done|]. by destruct (decide (a ∈ addresses)).
  - intros a r. rewrite seed_lookup.
    destruct (btc_addresses d !! a) as [r0|]; [by left|].
    case_decide; [|done]. intros [= <-]. by right.
  - intros Hnone. rewrite seed_lookup, Hnone. by destruct (decide ("" ∈ addresses)).
  - apply seed_others.
  - apply seed_others.
  - apply db_eq; [|apply seed_others..].
    apply map_eq. intros a. rewrite !seed_lookup.
    destruct (btc_addresses d !! a); [done|].
    by destruct (decide (a ∈ addresses)).
Qed.

End PoolLaws.

(** ** What a history does to the store *)

Module HistoryFacts.
Import Models Database Engine Operations Maintenance StoreFacts PoolFacts.
Import LifecycleFacts Notions Lifecycle.

Lemma NoDup_keys_filter (P : Z * transaction → Prop) `{∀ x, Decision (P x)}
    (m : gmap Z transaction) :
  NoDup (filter P (map_to_list m)).*1.
Proof.
  apply (sublist_NoDup _ (map_to_list m).*1);
    [apply NoDup_fst_map_to_list|].
  by apply fmap_sublist, sublist_filter.
Qed.

Lemma NoDup_keys_sorted (R : relation (Z * transaction))
    `{∀ x y, Decision (R x y)} (P : Z * transaction → Prop)
    `{∀ x, Decision (P x)} (m : gmap Z transaction) :
  NoDup (merge_sort R (filter P (map_to_list m))).*1.
Proof. rewrite merge_sort_Permutation. apply NoDup_keys_filter. Qed.

(** A loop over rows read beforehand, whose body writes only the row it
    is given: each row is still as it was read when its turn comes. *)
Lemma loop_invariant {S} (proj : S → db) (f : S → Z * transaction → S)
    (I : S → Prop) (rows : list (Z * transaction)) (s : S) :
  NoDup rows.*1 →
  (∀ s kv, only_at kv.1 (proj s) (proj (f s kv))) →
  (∀ kv, kv ∈ rows → transactions (proj s) !! kv.1 = Some kv.2) →
  (∀ s kv, kv ∈ rows → transactions (proj s) !! kv.1 = Some kv.2 →
           I s → I (f s kv)) →
  I s → I (foldl f s rows).
Proof.
  intros Hnodup Honly. revert s Hnodup.
  induction rows as [|kv rest IH]; intros s Hnodup Hsync Hbody HI; [done|].
  cbn [foldl]. rewrite fmap_cons in Hnodup. apply NoDup_cons in Hnodup as [Hfresh Hnodup].
  apply IH; [done|..].
  - intros kv' Hin. rewrite Honly.
    + apply Hsync. by apply list_elem_of_further.
    + intros Heq. apply Hfresh. rewrite <- Heq.
      apply list_elem_of_fmap. by exists kv'.
  - intros s' kv' Hin. apply Hbody. by apply list_elem_of_further.
  - apply Hbody; [apply list_elem_of_here| |done].
    apply Hsync, list_elem_of_here.
Qed.

Lemma release_update_comm address i st c d :
  release_btc_address address (update_transaction_status i st c d)
  = update_transaction_status i st c (release_btc_address address d).
Proof. done. Qed.

Lemma create_payment_changes user plan btc_price rnd now d :
  rtc change d (PaymentService.create_payment user plan btc_price rnd now d).1.
Proof.
  unfold PaymentService.create_payment.
  destruct (get_active_subscription user now d); [done|].
  unfold get_next_btc_address.
  destruct (pending_address user d) as [a|] eqn:Hpending; [done|].
  apply pending_address_None in Hpending.
  destruct (get_available_btc_address rnd d) as [address|] eqn:Havailable; [|done].
  apply get_available_btc_address_Some in Havailable.
  pose proof (Reserve user address now d Havailable) as Hreserve.
  pose proof (Allocate user plan address
                (PrimFloat.div (price_usd plan) btc_price) (price_usd plan)
                btc_price
                (Some (now + 60 * Config.PAYMENT_TIMEOUT_MINUTES)) now d
                Hpending Havailable) as Hallocate.
  rewrite (assign_btc_address_free _ user now _ Havailable) in *.
  cbn [fst] in *. cbv zeta.
  destruct (PrimFloat.eqb btc_price 0); by apply rtc_once.
Qed.

Lemma retire_released_changes i t st d :
  transactions d !! i = Some t → status t = PENDING →
  st = EXPIRED ∨ st = CANCELLED →
  change d (release_btc_address (btc_address t)
              (update_transaction_status i st None d)).
Proof.
  intros Hlook Hp Hst. rewrite release_update_comm.
  by apply (Retire i t st true).
Qed.

Lemma initiate_purchase_changes user plan w s :
  rtc change (store s) (store (Handlers.initiate_purchase user plan w s).1).
Proof.
  unfold Handlers.initiate_purchase.
  destruct (BtcApi.get_btc_price _ _ _) as [btc_price log1].
  destruct (PrimFloat.eqb btc_price 0); [done|].
  destruct (match get_active_subscription user (now w) (store s) with
            | Some active => _ | None => _ end); [done|].
  destruct (get_pending_transaction user (store s)) as [[i t]|] eqn:Hpending.
  - rewrite PurchaseFacts.py_eq_str_plan. cbn [fst snd].
    apply get_pending_transaction_Some in Hpending as (Hlook & _ & Hp).
    pose proof (create_payment_changes user plan btc_price (rnd w) (now w)
                  (release_btc_address (btc_address t)
                     (update_transaction_status i CANCELLED None (store s))))
      as Hcreate.
    destruct (PaymentService.create_payment _ _ _ _ _ _) as [d1 r]. cbn in *.
    eapply rtc_l; [|exact Hcreate].
    apply retire_released_changes; auto.
  - pose proof (create_payment_changes user plan btc_price (rnd w) (now w)
                  (store s)) as Hcreate.
    by destruct (PaymentService.create_payment _ _ _ _ _ _) as [d1 r].
Qed.

Lemma cancel_one_changes w s i t :
  transactions (store s) !! i = Some t → status t = PENDING →
  change (store s) (store (Handlers.cancel_one w s (i, t))).
Proof.
  intros Hlook Hp. rewrite (proj1 (ReleaseFacts.cancel_one_gate w s (i, t))).
  apply (Retire i t CANCELLED); auto.
Qed.

Lemma expire_one_changes w s i t :
  transactions (store s) !! i = Some t → status t = PENDING →
  change (store s) (store (PaymentChecker.expire_one w s (i, t))).
Proof.
  intros Hlook Hp. rewrite (proj1 (ReleaseFacts.expire_one_gate w s (i, t))).
  apply (Retire i t EXPIRED); auto.
Qed.

Lemma check_single_payment_changes w s i t :
  transactions (store s) !! i = Some t → status t = PENDING →
  rtc change (store s) (store (PaymentChecker.check_single_payment w (i, t) s)).
Proof.
  intros Hlook Hp. unfold PaymentChecker.check_single_payment.
  destruct (BtcApi.check_address_balance _ _ _ _) as [balance log1].
  destruct (PrimFloat.leb _ _); [|done].
  destruct (BtcApi.check_double_spend _ _ _ _) as [[|] log2]; [done|].
  apply rtc_once. by apply Confirm.
Qed.

Lemma cancel_plan_rows_NoDup user d :
  NoDup (filter (λ tx : Z * transaction, is_pending tx.2 = true)
           (get_user_transactions user d)).*1.
Proof.
  apply (sublist_NoDup _ (get_user_transactions user d).*1);
    [apply NoDup_keys_sorted|].
  by apply fmap_sublist, sublist_filter.
Qed.

Lemma cancel_plan_changes user w s :
  rtc change (store s) (store (Handlers.cancel_plan user w s)).
Proof.
  unfold Handlers.cancel_plan.
  apply (loop_invariant store (Handlers.cancel_one w)
           (λ s', rtc change (store s) (store s'))).
  - apply cancel_plan_rows_NoDup.
  - intros s' kv. apply cancel_one_only_at.
  - intros [i t] [_ Hin]%list_elem_of_filter.
    by apply elem_of_get_user_transactions in Hin as [? _].
  - intros s' [i t] [Hp Hin]%list_elem_of_filter Hlook Hsofar. cbn in *.
    eapply rtc_r; [exact Hsofar|].
    apply cancel_one_changes; [done|by apply is_pending_true].
  - done.
Qed.

Lemma handle_expired_transactions_changes w s :
  rtc change (store s) (store (PaymentChecker.handle_expired_transactions w s)).
Proof.
  unfold PaymentChecker.handle_expired_transactions.
  apply (loop_invariant store (PaymentChecker.expire_one w)
           (λ s', rtc change (store s) (store s'))).
  - apply NoDup_keys_filter.
  - intros s' kv. apply expire_one_only_at.
  - intros [i t] [_ Hin]%list_elem_of_filter. by apply elem_of_map_to_list.
  - intros s' [i t] [[Hp _] Hin]%list_elem_of_filter Hlook Hsofar. cbn in *.
    eapply rtc_r; [exact Hsofar|].
    apply expire_one_changes; [done|by apply is_pending_true].
  - done.
Qed.

Lemma check_payments_job_changes w s :
  rtc change (store s) (store (PaymentChecker.check_payments_job w s)).
Proof.
  unfold PaymentChecker.check_payments_job.
  etrans; [|apply handle_expired_transactions_changes].
  apply (loop_invariant store
           (λ acc tx, PaymentChecker.check_single_payment w tx acc)
           (λ s', rtc change (store s) (store s'))).
  - apply NoDup_keys_sorted.
  - intros s' kv. apply check_single_payment_only_at.
  - intros [i t] Hin. by apply elem_of_get_pending_transactions in Hin as [? _].
  - intros s' [i t] Hin Hlook Hsofar. cbn in *.
    apply elem_of_get_pending_transactions in Hin as [_ Hp].
    etrans; [exact Hsofar|]. by apply check_single_payment_changes.
  - done.
Qed.

Lemma force_approve_transaction_changes tx_id now d :
  rtc change d (Admin.force_approve_transaction tx_id now d).
Proof.
  unfold Admin.force_approve_transaction.
  destruct (transactions d !! tx_id) as [tx|] eqn:Hlook; [|done].
  destruct (is_pending tx) eqn:Hp; [|done]. cbn [negb].
  apply is_pending_true in Hp. apply rtc_once.
  exact (Confirm tx_id tx now d Hlook Hp).
Qed.

Lemma force_reject_transaction_changes tx_id d :
  rtc change d (Admin.force_reject_transaction tx_id d).
Proof.
  unfold Admin.force_reject_transaction.
  destruct (transactions d !! tx_id) as [tx|] eqn:Hlook; [|done].
  destruct (is_pending tx) eqn:Hp; [|done]. cbn [negb].
  apply is_pending_true in Hp. apply rtc_once.
  apply retire_released_changes; auto.
Qed.

(** The releases of [expire_old_transactions] can be read as following
    each update. *)
Lemma foldl_update_release (rows : list (Z * transaction)) d address :
  foldl (λ acc kv, update_transaction_status kv.1 EXPIRED None acc)
    (release_btc_address address d) rows
  = release_btc_address address
      (foldl (λ acc kv, update_transaction_status kv.1 EXPIRED None acc) d rows).
Proof.
  revert d. induction rows as [|kv' rest IH]; intros d; [done|].
  cbn [foldl]. by rewrite <- IH.
Qed.

Lemma expire_old_transactions_loop (rows : list (Z * transaction)) d :
  foldl (λ acc kv, release_btc_address (btc_address kv.2) acc)
    (foldl (λ acc kv, update_transaction_status kv.1 EXPIRED None acc) d rows)
    rows
  = foldl (λ acc kv, update_transaction_status kv.1 EXPIRED None
                       (release_btc_address (btc_address kv.2) acc)) d rows.
Proof.
  revert d. induction rows as [|kv rest IH]; intros d; [done|].
  cbn [foldl]. rewrite <- IH. f_equal. by rewrite <- foldl_update_release.
Qed.

Lemma expire_old_transactions_changes now d :
  rtc change d (expire_old_transactions now d).1.
Proof.
  unfold expire_old_transactions. cbn [fst].
  rewrite expire_old_transactions_loop.
  apply (loop_invariant (λ acc, acc)
           (λ acc (kv : Z * transaction),
              update_transaction_status kv.1 EXPIRED None
                (release_btc_address (btc_address kv.2) acc))
           (λ d', rtc change d d')).
  - apply NoDup_keys_filter.
  - intros d' kv j Hne. cbn. by rewrite lookup_alter_ne.
  - intros [i t] [_ Hin]%list_elem_of_filter. by apply elem_of_map_to_list.
  - intros d' [i t] [[Hp _] Hin]%list_elem_of_filter Hlook Hsofar. cbn in *.
    eapply rtc_r; [exact Hsofar|].
    apply (Retire i t EXPIRED true); [done|by apply is_pending_true|auto].
  - done.
Qed.

Lemma run_changes op s : rtc change (store s) (store (run op s)).
Proof.
  destruct op; cbn.
  - apply check_payments_job_changes.
  - apply cancel_plan_changes.
  - apply initiate_purchase_changes.
  - apply create_payment_changes.
  - apply force_approve_transaction_changes.
  - apply force_reject_transaction_changes.
  - apply expire_old_transactions_changes.
Qed.

Lemma seed_changes addresses d : rtc change d (foldl insert_address d addresses).
Proof.
  revert d. induction addresses as [|a rest IH]; intros d; [done|].
  cbn [foldl]. eapply rtc_l; [apply Seed|apply IH].
Qed.

Lemma occur_changes e s : rtc change (store s) (store (occur e s)).
Proof.
  destruct e as [op|strip file_lines env|now|now_txs now_subs].
  - apply run_changes.
  - apply seed_changes.
  - apply rtc_once, MarkOverdue.
  - unfold occur, on_store, cleanup_database. cbn [store].
    pose proof (expire_old_transactions_changes now_txs (store s)) as Htxs.
    destruct (expire_old_transactions now_txs (store s)) as [d1 n1]. cbn in *.
    eapply rtc_r; [exact Htxs|]. apply MarkOverdue.
Qed.

End HistoryFacts.

(** ** What holds of the store throughout *)

Module InvariantFacts.
Import Models Database Engine Operations Maintenance StoreFacts PoolFacts.
Import LifecycleFacts SinglePendingFacts HistoryFacts Notions Lifecycle.

Lemma holds_address_pending t : status t = PENDING → holds_address t = true.
Proof. unfold holds_address. by intros ->. Qed.

Lemma exclusive_used d i t :
  exclusive d → transactions d !! i = Some t → holds_address t = true →
  used d (btc_address t).
Proof.
  intros [Hpool _] Hlook Hheld.
  destruct (Hpool i t Hlook Hheld) as (r & Hr & Hu & _). by exists r.
Qed.

(** The rows that hold an address in [d'] held the same address for the
    same user in [d], and the pool rows of their addresses are kept. *)
Lemma exclusive_kept d d' :
  (∀ j t', transactions d' !! j = Some t' → holds_address t' = true →
     ∃ t, transactions d !! j = Some t ∧ holds_address t = true
          ∧ btc_address t = btc_address t' ∧ user_id t = user_id t') →
  (∀ j t r, transactions d' !! j = Some t → holds_address t = true →
     btc_addresses d !! btc_address t = Some r →
     btc_addresses d' !! btc_address t = Some r) →
  exclusive d → exclusive d'.
Proof.
  intros Hrows Hkept [Hpool Hdistinct]. split.
  - intros j t' Hlook Hheld.
    destruct (Hrows j t' Hlook Hheld) as (t & Ht & Hheld0 & Haddr & Huser).
    destruct (Hpool j t Ht Hheld0) as (r & Hr & Hu & Hto).
    exists r. rewrite <- Huser. split; [|done].
    apply (Hkept j); [done..|]. by rewrite <- Haddr.
  - intros i j t' u' Ht' Hu' Hheldt Hheldu Haddr.
    destruct (Hrows i t' Ht' Hheldt) as (t & Ht & Hheld1 & Haddr1 & _).
    destruct (Hrows j u' Hu' Hheldu) as (u & Hu & Hheld2 & Haddr2 & _).
    apply (Hdistinct i j t u); congruence.
Qed.

Lemma confirm_payment_transactions now i t d :
  transactions (PaymentChecker.confirm_payment now (i, t) d)
  = alter (confirmed now) i (transactions d)
  ∧ btc_addresses (PaymentChecker.confirm_payment now (i, t) d) = btc_addresses d.
Proof.
  unfold PaymentChecker.confirm_payment. cbn [fst snd].
  by destruct (PlanType_of_value (plan_type t)).
Qed.

Lemma change_exclusive d d' : change d d' → exclusive d → exclusive d'.
Proof.
  intros Hchange Hd. destruct Hchange as
    [user plan address amount usd rate expires now d Hnone Hfree
    |user address now d Hfree
    |i t st released d Hlook Hp Hst
    |i t now d Hlook Hp
    |address d
    |now d].
  - (* Allocate *)
    rewrite (assign_btc_address_free _ user now _ Hfree). cbn [fst].
    pose proof Hd as [Hpool Hdistinct].
    assert (Hold : ∀ j u, transactions d !! j = Some u → holds_address u = true
                          → btc_address u ≠ address).
    { intros j u Hu Hheld Heq. apply (used_not_free d address); [|done].
      rewrite <- Heq. by apply (exclusive_used d j u). }
    split.
    + intros j u Hu Hheld. cbn in Hu |- *.
      destruct (decide (j = next_id (transactions d))) as [->|Hne].
      * rewrite lookup_insert_eq in Hu. injection Hu as <-. cbn.
        eexists. split; [apply lookup_insert_eq|done].
      * rewrite lookup_insert_ne in Hu by done.
        rewrite lookup_insert_ne by (intros Heq; by apply (Hold j u)).
        by apply (Hpool j).
    + intros j k u v Hu Hv Hheldu Hheldv Haddr. cbn in Hu, Hv.
      destruct (decide (j = next_id (transactions d))) as [->|Hj];
        destruct (decide (k = next_id (transactions d))) as [->|Hk]; [done|..].
      * rewrite lookup_insert_eq in Hu. injection Hu as <-.
        rewrite lookup_insert_ne in Hv by done. cbn in Haddr.
        by destruct (Hold k v).
      * rewrite lookup_insert_eq in Hv. injection Hv as <-.
        rewrite lookup_insert_ne in Hu by done. cbn in Haddr.
        by destruct (Hold j u).
      * rewrite lookup_insert_ne in Hu, Hv by done.
        by apply (Hdistinct j k u v).
  - (* Reserve *)
    rewrite (assign_btc_address_free _ user now _ Hfree). cbn [fst].
    apply (exclusive_kept d); [by eauto| |done].
    intros j u r Hu Hheld Hr. cbn. rewrite lookup_insert_ne; [done|].
    intros Heq. apply (used_not_free d address); [|done].
    rewrite Heq. by apply (exclusive_used d j u).
  - (* Retire *)
    assert (Hrows : ∀ j u, transactions
                             (update_transaction_status i st None
                                (if released
                                 then release_btc_address (btc_address t) d
                                 else d)) !! j = Some u
                           → holds_address u = true
                           → j ≠ i ∧ transactions d !! j = Some u).
    { intros j u Hu Hheld.
      assert (Htxs : transactions (if released
                                   then release_btc_address (btc_address t) d
                                   else d) = transactions d)
        by by destruct released.
      cbn in Hu. rewrite Htxs in Hu.
      destruct (decide (i = j)) as [->|Hne].
      - rewrite lookup_alter_eq, Hlook in Hu. injection Hu as <-.
        unfold holds_address in Hheld. cbn in Hheld. by destruct Hst as [-> | ->].
      - by rewrite lookup_alter_ne in Hu. }
    apply (exclusive_kept d); [| |done].
    + intros j u Hu Hheld. destruct (Hrows j u Hu Hheld) as [_ ?]. eauto.
    + intros j u r Hu Hheld Hr. destruct (Hrows j u Hu Hheld) as [Hne Hu0].
      destruct released; [|done]. cbn. rewrite lookup_alter_ne; [done|].
      intros Haddr. destruct Hd as [_ Hdistinct]. apply Hne.
      apply (Hdistinct j i u t); auto using holds_address_pending.
  - (* Confirm *)
    destruct (confirm_payment_transactions now i t d) as [Htxs Hpool].
    apply (exclusive_kept d); [| |done].
    + intros j u Hu Hheld. rewrite Htxs in Hu.
      destruct (decide (i = j)) as [->|Hne].
      * rewrite lookup_alter_eq, Hlook in Hu. injection Hu as <-.
        exists t. auto using holds_address_pending.
      * rewrite lookup_alter_ne in Hu by done. eauto.
    + intros j u r _ _. by rewrite Hpool.
  - (* Seed *)
    apply (exclusive_kept d); [| |done].
    + intros j u. rewrite (proj1 (PoolLaws.insert_address_others d address)). eauto.
    + intros j u r _ _ Hr. by rewrite PoolLaws.insert_address_lookup, Hr.
  - (* MarkOverdue *)
    apply (exclusive_kept d); [by eauto|done|done].
Qed.

Lemma sub_transaction_id_expire now (subs : list subscription) :
  map sub_transaction_id
    (map (λ s, if overdue now s then sub_expired s else s) subs)
  = map sub_transaction_id subs.
Proof.
  rewrite map_map. apply map_ext. intros s. by destruct (overdue now s).
Qed.

(** The confirmed rows are kept, and the subscriptions are the same up to
    their status. *)
Lemma backed_kept d d' (f : subscription → subscription) :
  (∀ i t, transactions d !! i = Some t → status t = CONFIRMED →
          transactions d' !! i = Some t) →
  subscriptions d' = map f (subscriptions d) →
  (∀ s, sub_transaction_id (f s) = sub_transaction_id s
        ∧ sub_user_id (f s) = sub_user_id s
        ∧ sub_plan_type (f s) = sub_plan_type s) →
  backed d → backed d'.
Proof.
  intros Hrows Hsubs Hf [Hback Hnodup]. split.
  - intros s'. rewrite Hsubs. intros Hin.
    apply list_elem_of_In, in_map_iff in Hin as (s & <- & Hin).
    apply list_elem_of_In in Hin.
    destruct (Hback s Hin) as (t & Ht & Hc & Hu & Hpl).
    destruct (Hf s) as (-> & -> & ->). exists t. auto.
  - rewrite Hsubs, map_map.
    replace (map (λ s, sub_transaction_id (f s)) (subscriptions d))
      with (map sub_transaction_id (subscriptions d)); [done|].
    apply map_ext. intros s. by destruct (Hf s) as [-> _].
Qed.

Lemma backed_same d d' :
  (∀ i t, transactions d !! i = Some t → status t = CONFIRMED →
          transactions d' !! i = Some t) →
  subscriptions d' = subscriptions d →
  backed d → backed d'.
Proof.
  intros Hrows Hsubs. apply (backed_kept d d' id); [done| |done].
  by rewrite map_id.
Qed.

Lemma change_backed d d' : change d d' → backed d → backed d'.
Proof.
  intros Hchange Hd. destruct Hchange as
    [user plan address amount usd rate expires now d Hnone Hfree
    |user address now d Hfree
    |i t st released d Hlook Hp Hst
    |i t now d Hlook Hp
    |address d
    |now d].
  - rewrite (assign_btc_address_free _ user now _ Hfree). cbn [fst].
    apply (backed_same d); [|done|done].
    intros i t Hlook _. cbn. rewrite lookup_insert_ne; [done|].
    intros <-. by rewrite next_id_fresh in Hlook.
  - rewrite (assign_btc_address_free _ user now _ Hfree). cbn [fst].
    by apply (backed_same d).
  - apply (backed_same d); [|by destruct released|done].
    intros j u Hu Hc. cbn.
    assert (Htxs : transactions (if released
                                 then release_btc_address (btc_address t) d
                                 else d) = transactions d)
      by by destruct released.
    rewrite Htxs, lookup_alter_ne; [done|]. intros ->. congruence.
  - destruct Hd as [Hback Hnodup].
    assert (Hrows : ∀ j u, transactions d !! j = Some u → status u = CONFIRMED
                           → alter (confirmed now) i (transactions d) !! j = Some u).
    { intros j u Hu Hc. rewrite lookup_alter_ne; [done|]. intros ->. congruence. }
    assert (Hfresh : i ∉ map sub_transaction_id (subscriptions d)).
    { intros Hin. apply list_elem_of_In, in_map_iff in Hin as (s & <- & Hin).
      apply list_elem_of_In in Hin.
      destruct (Hback s Hin) as (u & Hu & Hc & _). congruence. }
    unfold PaymentChecker.confirm_payment. cbn [fst snd].
    destruct (PlanType_of_value (plan_type t)) as [p|].
    + split.
      * intros s. cbn. intros [Hin|Hin]%elem_of_app.
        -- destruct (Hback s Hin) as (u & Hu & Hc & Hrest). eauto.
        -- apply list_elem_of_singleton in Hin as ->. cbn.
           exists (confirmed now t). by rewrite lookup_alter_eq, Hlook.
      * cbn. rewrite map_app. cbn. apply NoDup_app. split; [done|].
        split; [|apply NoDup_singleton].
        intros x Hx ->%list_elem_of_singleton. done.
    + split; [|done].
      intros s Hin. cbn in Hin |- *.
      destruct (Hback s Hin) as (u & Hu & Hc & Hrest). eauto.
  - apply (backed_same d); [|apply PoolLaws.insert_address_others|done].
    intros i t. by rewrite (proj1 (PoolLaws.insert_address_others d address)).
  - apply (backed_kept d _ (λ s, if overdue now s then sub_expired s else s));
      [done|done| |done].
    intros s. by destruct (overdue now s).
Qed.

Lemma change_single_pending d d' :
  change d d' → single_pending d → single_pending d'.
Proof.
  intros Hchange Hd. destruct Hchange as
    [user plan address amount usd rate expires now d Hnone Hfree
    |user address now d Hfree
    |i t st released d Hlook Hp Hst
    |i t now d Hlook Hp
    |address d
    |now d].
  - rewrite (assign_btc_address_free _ user now _ Hfree). cbn [fst].
    intros j k u v Hu Hv Hpu Hpv Huser. cbn in Hu, Hv.
    destruct (decide (j = next_id (transactions d))) as [->|Hj];
      destruct (decide (k = next_id (transactions d))) as [->|Hk]; [done|..].
    + rewrite lookup_insert_eq in Hu. injection Hu as <-.
      rewrite lookup_insert_ne in Hv by done. cbn in Huser.
      destruct Hnone. by exists k, v.
    + rewrite lookup_insert_eq in Hv. injection Hv as <-.
      rewrite lookup_insert_ne in Hu by done. cbn in Huser.
      destruct Hnone. by exists j, u.
    + rewrite lookup_insert_ne in Hu, Hv by done. by apply (Hd j k u v).
  - rewrite (assign_btc_address_free _ user now _ Hfree). cbn [fst].
    by apply (no_new_pending_single d); [apply no_new_pending_same|].
  - apply (no_new_pending_single d); [|done].
    eapply no_new_pending_trans;
      [|apply update_transaction_status_no_new_pending; by destruct Hst as [-> | ->]].
    apply no_new_pending_same. by destruct released.
  - apply (no_new_pending_single d); [|done].
    apply confirm_payment_no_new_pending.
  - apply (no_new_pending_single d); [|done].
    apply no_new_pending_same, PoolLaws.insert_address_others.
  - by apply (no_new_pending_single d); [apply no_new_pending_same|].
Qed.

Lemma PlanType_of_value_value p : PlanType_of_value (value p) = Some p.
Proof. by destruct p. Qed.

Lemma change_served d d' : change d d' → served d → served d'.
Proof.
  intros Hchange Hd. destruct Hchange as
    [user plan address amount usd rate expires now d Hnone Hfree
    |user address now d Hfree
    |i t st released d Hlook Hp Hst
    |i t now d Hlook Hp
    |address d
    |now d].
  - rewrite (assign_btc_address_free _ user now _ Hfree). cbn [fst].
    intros j u Hu. cbn in Hu |- *.
    destruct (decide (j = next_id (transactions d))) as [->|Hne].
    + rewrite lookup_insert_eq in Hu. injection Hu as <-. cbn.
      by rewrite PlanType_of_value_value.
    + rewrite lookup_insert_ne in Hu by done. by apply Hd.
  - rewrite (assign_btc_address_free _ user now _ Hfree). cbn [fst].
    intros j u Hu. by apply Hd.
  - assert (Htxs : transactions (if released
                                 then release_btc_address (btc_address t) d
                                 else d) = transactions d)
      by by destruct released.
    assert (Hsubs : subscriptions (if released
                                   then release_btc_address (btc_address t) d
                                   else d) = subscriptions d)
      by by destruct released.
    intros j u Hu. cbn in Hu |- *. rewrite Htxs in Hu. rewrite Hsubs.
    destruct (decide (i = j)) as [->|Hne].
    + rewrite lookup_alter_eq, Hlook in Hu. injection Hu as <-. cbn.
      split; [by apply (Hd j t)|]. by destruct Hst as [-> | ->].
    + rewrite lookup_alter_ne in Hu by done. by apply Hd.
  - destruct (Hd i t Hlook) as [[p Hplan] _].
    unfold PaymentChecker.confirm_payment. cbn [fst snd]. rewrite Hplan.
    intros j u Hu. cbn in Hu |- *.
    destruct (decide (i = j)) as [->|Hne].
    + rewrite lookup_alter_eq, Hlook in Hu. injection Hu as <-. cbn.
      split; [by rewrite Hplan|]. intros _. eexists. split.
      * apply elem_of_app. right. apply list_elem_of_here.
      * done.
    + rewrite lookup_alter_ne in Hu by done.
      destruct (Hd j u Hu) as [Hvalid Hsub]. split; [done|].
      intros Hc. destruct (Hsub Hc) as (s & Hin & Hid). exists s.
      split; [|done]. apply elem_of_app. by left.
  - intros j u. rewrite (proj1 (PoolLaws.insert_address_others d address)).
    rewrite (proj2 (PoolLaws.insert_address_others d address)). apply Hd.
  - intros j u Hu. destruct (Hd j u Hu) as [Hvalid Hsub]. split; [done|].
    intros Hc. destruct (Hsub Hc) as (s & Hin & Hid).
    exists (if overdue now s then sub_expired s else s). split.
    + cbn. apply list_elem_of_In, in_map_iff. exists s.
      split; [done|by apply list_elem_of_In].
    + by destruct (overdue now s).
Qed.

Lemma changes_preserve (I : db → Prop) d d' :
  (∀ d d', change d d' → I d → I d') → rtc change d d' → I d → I d'.
Proof. intros Hstep Hrtc. induction Hrtc; eauto. Qed.

Lemma history_preserves (I : db → Prop) es s :
  (∀ d d', change d d' → I d → I d') →
  I (store s) → I (store (history es s)).
Proof.
  intros Hstep. unfold history. revert s.
  induction es as [|e rest IH]; intros s HI; [done|].
  cbn [foldl]. apply IH.
  apply (changes_preserve I (store s)); [done|apply occur_changes|done].
Qed.

End InvariantFacts.

(** ** Sweeps: what they select and what they write *)

Module SweepFacts.
Import Models Database Engine Operations Maintenance StoreFacts PoolFacts.
Import LifecycleFacts HistoryFacts Notions Lifecycle.

(** A loop that sets the status of each row it is given. *)
Lemma loop_status_lookup {S} (proj : S → db) (f : S → Z * transaction → S)
    (st : TransactionStatus) (rows : list (Z * transaction)) (s : S) (i : Z) :
  (∀ s kv, transactions (proj (f s kv))
           = alter (with_status st) kv.1 (transactions (proj s))) →
  transactions (proj (foldl f s rows)) !! i
  = if decide (i ∈ rows.*1)
    then with_status st <$> transactions (proj s) !! i
    else transactions (proj s) !! i.
Proof.
  intros Hbody. revert s. induction rows as [|kv rest IH]; intros s.
  - cbn. by destruct (decide (i ∈ [])) as [Hin%elem_of_nil|].
  - cbn [foldl]. rewrite IH, Hbody, fmap_cons.
    destruct (decide (i = kv.1)) as [->|Hne].
    + rewrite lookup_alter_eq.
      destruct (decide (kv.1 ∈ kv.1 :: rest.*1)) as [_|Hout];
        [|destruct Hout; apply list_elem_of_here].
      destruct (decide (kv.1 ∈ rest.*1)); [|done].
      by destruct (transactions (proj s) !! kv.1).
    + rewrite lookup_alter_ne by done.
      destruct (decide (i ∈ rest.*1)) as [Hin|Hout];
        destruct (decide (i ∈ kv.1 :: rest.*1)) as [Hin'|Hout']; try done.
      * destruct Hout'. by apply list_elem_of_further.
      * by apply elem_of_cons in Hin' as [?|?].
Qed.

Lemma status_lookup_select (sel : transaction → bool) (st : TransactionStatus)
    (m : gmap Z transaction) (keys : list Z) (i : Z) :
  (∀ i, i ∈ keys ↔ ∃ t, m !! i = Some t ∧ sel t = true) →
  (if decide (i ∈ keys) then with_status st <$> m !! i else m !! i)
  = (λ t, if sel t then with_status st t else t) <$> m !! i.
Proof.
  intros Hkeys. destruct (decide (i ∈ keys)) as [Hin|Hout].
  - apply Hkeys in Hin as (t & -> & Hsel). cbn. by rewrite Hsel.
  - destruct (m !! i) as [t|] eqn:Ht; [|done]. cbn.
    destruct (sel t) eqn:Hsel; [|done]. destruct Hout. apply Hkeys. eauto.
Qed.

Lemma elem_of_keys_filter (P : Z * transaction → Prop) `{∀ x, Decision (P x)}
    (m : gmap Z transaction) (i : Z) :
  i ∈ (filter P (map_to_list m)).*1 ↔ ∃ t, m !! i = Some t ∧ P (i, t).
Proof.
  rewrite list_elem_of_fmap. split.
  - intros ([j t] & -> & [HP Hin]%list_elem_of_filter).
    apply elem_of_map_to_list in Hin. eauto.
  - intros (t & Ht & HP). exists (i, t). split; [done|].
    apply list_elem_of_filter. split; [done|]. by apply elem_of_map_to_list.
Qed.

Lemma lapsed_spec now t :
  lapsed now t = true ↔ is_pending t = true ∧ expires_at t < now.
Proof. unfold lapsed. rewrite andb_true_iff, Z.ltb_lt. tauto. Qed.

Lemma due_spec now t :
  due now t = true ↔ is_pending t = true ∧ expires_at t ≤ now.
Proof. unfold due. rewrite andb_true_iff, Z.leb_le. tauto. Qed.

Lemma pending_of_spec user t :
  pending_of user t = true ↔ user_id t = user ∧ is_pending t = true.
Proof. unfold pending_of. rewrite andb_true_iff, Z.eqb_eq. tauto. Qed.

Lemma with_status_not_pending st t :
  st ≠ PENDING → is_pending (with_status st t) = false.
Proof. intros Hst. apply is_pending_false. done. Qed.

(** A loop that leaves a field of the store alone. *)
Lemma loop_same {S X A} (get : S → A) (f : S → X → S) (rows : list X) (s : S) :
  (∀ s x, get (f s x) = get s) → get (foldl f s rows) = get s.
Proof.
  intros Hbody. revert s. induction rows as [|x rest IH]; intros s; [done|].
  cbn [foldl]. by rewrite IH.
Qed.

(** A loop that at most releases the address of the row it is given. *)
Lemma loop_pool_frame {S} (proj : S → db) (f : S → Z * transaction → S)
    (rows : list (Z * transaction)) (s : S) (a : string) :
  (∀ s kv, btc_address kv.2 ≠ a →
           btc_addresses (proj (f s kv)) !! a = btc_addresses (proj s) !! a) →
  (∀ kv, kv ∈ rows → btc_address kv.2 ≠ a) →
  btc_addresses (proj (foldl f s rows)) !! a = btc_addresses (proj s) !! a.
Proof.
  intros Hbody. revert s. induction rows as [|kv rest IH]; intros s Hrows; [done|].
  cbn [foldl]. rewrite IH.
  - apply Hbody, Hrows, list_elem_of_here.
  - intros kv' Hin. by apply Hrows, list_elem_of_further.
Qed.

Lemma release_btc_address_lookup address d a :
  btc_addresses (release_btc_address address d) !! a = btc_addresses d !! a
  ∨ btc_addresses (release_btc_address address d) !! a = Some Fixtures.free_row.
Proof.
  cbn. destruct (decide (address = a)) as [->|Hne].
  - rewrite lookup_alter_eq. destruct (btc_addresses d !! a); [by right|by left].
  - left. by rewrite lookup_alter_ne.
Qed.

(** A loop that never assigns: every row of the pool is as before or
    released. *)
Lemma loop_pool_released {S X} (proj : S → db) (f : S → X → S)
    (rows : list X) (s : S) (a : string) :
  (∀ s x, btc_addresses (proj (f s x)) !! a = btc_addresses (proj s) !! a
          ∨ btc_addresses (proj (f s x)) !! a = Some Fixtures.free_row) →
  btc_addresses (proj (foldl f s rows)) !! a = btc_addresses (proj s) !! a
  ∨ btc_addresses (proj (foldl f s rows)) !! a = Some Fixtures.free_row.
Proof.
  intros Hbody. revert s. induction rows as [|x rest IH]; intros s; [by left|].
  cbn [foldl]. destruct (IH (f s x)) as [Hsame|Hfree]; [|by right].
  rewrite Hsame. apply Hbody.
Qed.

Lemma foldl_release_lookup (rows : list (Z * transaction)) d a :
  btc_addresses
    (foldl (λ acc kv, release_btc_address (btc_address kv.2) acc) d rows) !! a
  = if decide (a ∈ map (λ kv : Z * transaction, btc_address kv.2) rows)
    then (λ _, Fixtures.free_row) <$> btc_addresses d !! a
    else btc_addresses d !! a.
Proof.
  revert d. induction rows as [|kv rest IH]; intros d.
  - cbn. by destruct (decide (a ∈ [])) as [Hin%elem_of_nil|].
  - cbn [foldl map]. rewrite IH. cbn [release_btc_address set_btc_addresses btc_addresses].
    destruct (decide (a = btc_address kv.2)) as [->|Hne].
    + rewrite lookup_alter_eq.
      destruct (decide (btc_address kv.2
                        ∈ btc_address kv.2
                          :: map (λ kv : Z * transaction, btc_address kv.2) rest))
        as [_|Hout]; [|destruct Hout; apply list_elem_of_here].
      destruct (decide (btc_address kv.2
                        ∈ map (λ kv : Z * transaction, btc_address kv.2) rest));
        by destruct (btc_addresses d !! btc_address kv.2).
    + rewrite lookup_alter_ne by done.
      destruct (decide (a ∈ map (λ kv : Z * transaction, btc_address kv.2) rest))
        as [Hin|Hout];
        destruct (decide (a ∈ btc_address kv.2
                            :: map (λ kv : Z * transaction, btc_address kv.2) rest))
        as [Hin'|Hout']; try done.
      * destruct Hout'. by apply list_elem_of_further.
      * by apply elem_of_cons in Hin' as [?|?].
Qed.

Lemma expire_old_transactions_lookup now d i :
  transactions (expire_old_transactions now d).1 !! i
  = (λ t, if lapsed now t then with_status EXPIRED t else t)
    <$> transactions d !! i.
Proof.
  unfold expire_old_transactions. cbn [fst]. rewrite foldl_release_transactions.
  rewrite (loop_status_lookup (λ acc, acc)
             (λ acc kv, update_transaction_status kv.1 EXPIRED None acc) EXPIRED)
    by done.
  apply status_lookup_select. intros j. rewrite elem_of_keys_filter. cbn.
  by setoid_rewrite lapsed_spec.
Qed.

Lemma expire_old_transactions_pool now d a :
  btc_addresses (expire_old_transactions now d).1 !! a
  = if decide (a ∈ map (λ kv : Z * transaction, btc_address kv.2)
                     (filter (λ kv : Z * transaction,
                                is_pending kv.2 = true ∧ expires_at kv.2 < now)
                        (map_to_list (transactions d))))
    then (λ _, Fixtures.free_row) <$> btc_addresses d !! a
    else btc_addresses d !! a.
Proof.
  unfold expire_old_transactions. cbn [fst]. rewrite foldl_release_lookup.
  by rewrite (loop_same btc_addresses
                (λ acc (kv : Z * transaction),
                   update_transaction_status kv.1 EXPIRED None acc)).
Qed.

Lemma expire_old_transactions_subscriptions now d :
  subscriptions (expire_old_transactions now d).1 = subscriptions d.
Proof.
  unfold expire_old_transactions. cbn [fst].
  rewrite (loop_same subscriptions
             (λ acc (kv : Z * transaction),
                release_btc_address (btc_address kv.2) acc)) by done.
  by rewrite (loop_same subscriptions
                (λ acc (kv : Z * transaction),
                   update_transaction_status kv.1 EXPIRED None acc)).
Qed.

Lemma elem_of_lapsed_addresses now d a :
  a ∈ map (λ kv : Z * transaction, btc_address kv.2)
        (filter (λ kv : Z * transaction,
                   is_pending kv.2 = true ∧ expires_at kv.2 < now)
           (map_to_list (transactions d)))
  ↔ ∃ i t, transactions d !! i = Some t ∧ lapsed now t = true ∧ btc_address t = a.
Proof.
  rewrite list_elem_of_In, in_map_iff. split.
  - intros ([i t] & <- & Hin). apply list_elem_of_In in Hin.
    apply list_elem_of_filter in Hin as [Hsel Hin].
    apply elem_of_map_to_list in Hin. exists i, t.
    split; [done|]. split; [by apply lapsed_spec|done].
  - intros (i & t & Ht & Hsel & <-). exists (i, t). split; [done|].
    apply list_elem_of_In, list_elem_of_filter.
    split; [by apply lapsed_spec|by apply elem_of_map_to_list].
Qed.

Lemma no_lapsed_left now d :
  filter (λ kv : Z * transaction,
            is_pending kv.2 = true ∧ expires_at kv.2 < now)
    (map_to_list (transactions (expire_old_transactions now d).1)) = [].
Proof.
  apply filter_nil_none. intros [i t'] Hin Hsel.
  apply elem_of_map_to_list in Hin. rewrite expire_old_transactions_lookup in Hin.
  destruct (transactions d !! i) as [t|]; [|done]. cbn in Hin.
  injection Hin as <-. apply lapsed_spec in Hsel. cbn [snd] in Hsel.
  destruct (lapsed now t) eqn:Hl; [|congruence].
  unfold lapsed in Hsel. by rewrite with_status_not_pending in Hsel.
Qed.

Lemma expire_one_transactions w s kv :
  transactions (store (PaymentChecker.expire_one w s kv))
  = alter (with_status EXPIRED) kv.1 (transactions (store s)).
Proof.
  rewrite (proj1 (ReleaseFacts.expire_one_gate w s kv)).
  by destruct (PrimFloat.eqb _ _).
Qed.

Lemma cancel_one_transactions w s kv :
  transactions (store (Handlers.cancel_one w s kv))
  = alter (with_status CANCELLED) kv.1 (transactions (store s)).
Proof.
  rewrite (proj1 (ReleaseFacts.cancel_one_gate w s kv)).
  by destruct (PrimFloat.eqb _ _).
Qed.

Lemma expire_one_pool w s kv a :
  (btc_addresses (store (PaymentChecker.expire_one w s kv)) !! a
   = btc_addresses (store s) !! a
   ∨ btc_addresses (store (PaymentChecker.expire_one w s kv)) !! a
     = Some Fixtures.free_row)
  ∧ (btc_address kv.2 ≠ a →
     btc_addresses (store (PaymentChecker.expire_one w s kv)) !! a
     = btc_addresses (store s) !! a)
  ∧ subscriptions (store (PaymentChecker.expire_one w s kv))
    = subscriptions (store s).
Proof.
  rewrite (proj1 (ReleaseFacts.expire_one_gate w s kv)).
  destruct (PrimFloat.eqb _ _); (split; [|split]); try done; try by left.
  - apply release_btc_address_lookup.
  - intros Hne. by apply release_btc_address_other.
Qed.

Lemma cancel_one_pool w s kv a :
  (btc_addresses (store (Handlers.cancel_one w s kv)) !! a
   = btc_addresses (store s) !! a
   ∨ btc_addresses (store (Handlers.cancel_one w s kv)) !! a
     = Some Fixtures.free_row)
  ∧ (btc_address kv.2 ≠ a →
     btc_addresses (store (Handlers.cancel_one w s kv)) !! a
     = btc_addresses (store s) !! a)
  ∧ subscriptions (store (Handlers.cancel_one w s kv))
    = subscriptions (store s).
Proof.
  rewrite (proj1 (ReleaseFacts.cancel_one_gate w s kv)).
  destruct (PrimFloat.eqb _ _); (split; [|split]); try done; try by left.
  - apply release_btc_address_lookup.
  - intros Hne. by apply release_btc_address_other.
Qed.

Lemma handle_expired_transactions_lookup w s i :
  transactions (store (PaymentChecker.handle_expired_transactions w s)) !! i
  = (λ t, if due (now w) t then with_status EXPIRED t else t)
    <$> transactions (store s) !! i.
Proof.
  unfold PaymentChecker.handle_expired_transactions.
  rewrite (loop_status_lookup store (PaymentChecker.expire_one w) EXPIRED)
    by apply expire_one_transactions.
  apply status_lookup_select. intros j.
  unfold PaymentChecker.expired_transactions. rewrite elem_of_keys_filter. cbn.
  by setoid_rewrite due_spec.
Qed.

Lemma elem_of_cancel_plan_rows user d i t :
  (i, t) ∈ filter (λ tx : Z * transaction, is_pending tx.2 = true)
             (get_user_transactions user d)
  ↔ transactions d !! i = Some t ∧ pending_of user t = true.
Proof.
  rewrite list_elem_of_filter, elem_of_get_user_transactions, pending_of_spec.
  cbn. tauto.
Qed.

Lemma cancel_plan_lookup user w s i :
  transactions (store (Handlers.cancel_plan user w s)) !! i
  = (λ t, if pending_of user t then with_status CANCELLED t else t)
    <$> transactions (store s) !! i.
Proof.
  unfold Handlers.cancel_plan.
  rewrite (loop_status_lookup store (Handlers.cancel_one w) CANCELLED)
    by apply cancel_one_transactions.
  apply status_lookup_select. intros j. rewrite list_elem_of_fmap. split.
  - intros ([k t] & -> & Hin). apply elem_of_cancel_plan_rows in Hin. eauto.
  - intros (t & Ht & Hsel). exists (j, t). split; [done|].
    by apply elem_of_cancel_plan_rows.
Qed.

End SweepFacts.

Module SweepLaws.
Import Models Database Engine Operations Maintenance StoreFacts PoolFacts.
Import LifecycleFacts HistoryFacts SweepFacts Notions Lifecycle.

(** X3: [expire_old_transactions] at time [now] marks as expired exactly the
    pending transactions whose deadline is before [now] and changes
    nothing else of them; it releases the address of each of them without
    looking at any balance or at who holds the address, and touches no
    other address and no subscription; it reports 0 exactly when it
    changed nothing; and run again at the same time it changes nothing
    and reports 0. *)
Theorem expire_old_transactions_effect now d :
  let d' := (expire_old_transactions now d).1 in
  (∀ i, transactions d' !! i
        = (λ t, if lapsed now t then with_status EXPIRED t else t)
          <$> transactions d !! i)
  ∧ (∀ i t, transactions d !! i = Some t → lapsed now t = true →
       is_Some (btc_addresses d !! btc_address t) →
       btc_addresses d' !! btc_address t = Some Fixtures.free_row)
  ∧ (∀ a, (∀ i t, transactions d !! i = Some t → lapsed now t = true →
                  btc_address t ≠ a) →
       btc_addresses d' !! a = btc_addresses d !! a)
  ∧ subscriptions d' = subscriptions d
  ∧ ((expire_old_transactions now d).2 = 0%nat ↔ d' = d)
  ∧ expire_old_transactions now d' = (d', 0%nat).
Proof.
  cbv zeta. split; [|split; [|split; [|split; [|split]]]].
  - apply expire_old_transactions_lookup.
  - intros i t Ht Hsel [r Hr]. rewrite expire_old_transactions_pool, Hr.
    destruct (decide _) as [_|Hout]; [done|].
    destruct Hout. apply elem_of_lapsed_addresses. eauto.
  - intros a Hnone. rewrite expire_old_transactions_pool.
    destruct (decide _) as [Hin|_]; [|done].
    apply elem_of_lapsed_addresses in Hin as (i & t & Ht & Hsel & Ha).
    by destruct (Hnone i t).
  - apply expire_old_transactions_subscriptions.
  - split.
    + unfold expire_old_transactions. cbn [fst snd].
      intros Hnil%length_zero_iff_nil. by rewrite Hnil.
    + intros Hsame. unfold expire_old_transactions. cbn [snd].
      destruct (filter _ _) as [|[i t] rest] eqn:Hrows; [done|]. exfalso.
      assert (Hin : (i, t) ∈ filter (λ kv : Z * transaction,
                                       is_pending kv.2 = true
                                       ∧ expires_at kv.2 < now)
                               (map_to_list (transactions d)))
        by (rewrite Hrows; apply list_elem_of_here).
      apply list_elem_of_filter in Hin as [Hsel Hin].
      apply elem_of_map_to_list in Hin. apply lapsed_spec in Hsel.
      cbn [snd] in Hsel.
      pose proof (expire_old_transactions_lookup now d i) as Hlook.
      rewrite Hsame, Hin in Hlook. cbn in Hlook. rewrite Hsel in Hlook.
      injection Hlook as Hlook. apply (f_equal status) in Hlook. cbn in Hlook.
      apply lapsed_spec in Hsel as [Hp%is_pending_true _]. congruence.
  - pose proof (no_lapsed_left now d) as Hnil.
    set (d' := (expire_old_transactions now d).1) in *.
    unfold expire_old_transactions. cbv zeta. by rewrite Hnil.
Qed.

(** X4: the expiry sweep of the periodic job, whatever the network
    answers: it marks as expired exactly the pending transactions whose
    deadline is [now] or before and changes nothing else of them; every
    row of the pool is as before or released, and the rows that are not
    the address of a transaction it expired are as before; no
    subscription is touched; and afterwards no pending transaction is
    due. *)
Theorem handle_expired_transactions_effect w s :
  let s' := PaymentChecker.handle_expired_transactions w s in
  (∀ i, transactions (store s') !! i
        = (λ t, if due (now w) t then with_status EXPIRED t else t)
          <$> transactions (store s) !! i)
  ∧ (∀ a, btc_addresses (store s') !! a = btc_addresses (store s) !! a
          ∨ btc_addresses (store s') !! a = Some Fixtures.free_row)
  ∧ (∀ a, (∀ i t, transactions (store s) !! i = Some t → due (now w) t = true →
                  btc_address t ≠ a) →
       btc_addresses (store s') !! a = btc_addresses (store s) !! a)
  ∧ subscriptions (store s') = subscriptions (store s)
  ∧ PaymentChecker.expired_transactions (now w) (store s') = [].
Proof.
  cbv zeta. split; [|split; [|split; [|split]]].
  - apply handle_expired_transactions_lookup.
  - intros a. unfold PaymentChecker.handle_expired_transactions.
    apply (loop_pool_released store). intros s' kv.
    apply expire_one_pool.
  - intros a Hnone. unfold PaymentChecker.handle_expired_transactions.
    apply (loop_pool_frame store).
    + intros s' kv. apply expire_one_pool.
    + intros [i t] [Hsel Hin]%list_elem_of_filter.
      apply elem_of_map_to_list in Hin. apply (Hnone i t); [done|].
      by apply due_spec.
  - unfold PaymentChecker.handle_expired_transactions.
    apply (loop_same (λ s', subscriptions (store s'))).
    intros s' kv. apply (expire_one_pool w s' kv "").
  - apply filter_nil_none. intros [i t'] Hin Hsel.
    apply elem_of_map_to_list in Hin.
    rewrite handle_expired_transactions_lookup in Hin.
    destruct (transactions (store s) !! i) as [t|]; [|done]. cbn in Hin.
    injection Hin as <-. apply due_spec in Hsel. cbn [snd] in Hsel.
    destruct (due (now w) t) eqn:Hd; [|congruence].
    unfold due in Hsel. by rewrite with_status_not_pending in Hsel.
Qed.

(** X5: [cancel_plan], whatever the network answers: it marks as cancelled
    exactly the pending transactions of the user and changes nothing else
    of them, so the transactions of other users and the settled ones are
    as before; every row of the pool is as before or released, and the
    rows that are not the address of a transaction it cancelled are as
    before; no subscription is touched; and afterwards the user has no
    pending transaction, so the allocator will not refuse the user for
    one. *)
Theorem cancel_plan_effect user w s :
  let s' := Handlers.cancel_plan user w s in
  (∀ i, transactions (store s') !! i
        = (λ t, if pending_of user t then with_status CANCELLED t else t)
          <$> transactions (store s) !! i)
  ∧ (∀ a, btc_addresses (store s') !! a = btc_addresses (store s) !! a
          ∨ btc_addresses (store s') !! a = Some Fixtures.free_row)
  ∧ (∀ a, (∀ i t, transactions (store s) !! i = Some t →
                  pending_of user t = true → btc_address t ≠ a) →
       btc_addresses (store s') !! a = btc_addresses (store s) !! a)
  ∧ subscriptions (store s') = subscriptions (store s)
  ∧ ¬ has_pending user (store s')
  ∧ get_pending_transaction user (store s') = None
  ∧ pending_address user (store s') = None.
Proof.
  cbv zeta.
  assert (Hnone : ¬ has_pending user (store (Handlers.cancel_plan user w s))).
  { intros (i & t' & Hlook & Huser & Hp). rewrite cancel_plan_lookup in Hlook.
    destruct (transactions (store s) !! i) as [t|]; [|done]. cbn in Hlook.
    injection Hlook as <-.
    destruct (pending_of user t) eqn:Hsel; [done|].
    apply is_pending_true in Hp.
    assert (pending_of user t = true) by by apply pending_of_spec.
    congruence. }
  split; [|split; [|split; [|split; [|split; [|split]]]]].
  - apply cancel_plan_lookup.
  - intros a. unfold Handlers.cancel_plan.
    apply (loop_pool_released store). intros s' kv. apply cancel_one_pool.
  - intros a Hframe. unfold Handlers.cancel_plan.
    apply (loop_pool_frame store).
    + intros s' kv. apply cancel_one_pool.
    + intros [i t] Hin. apply elem_of_cancel_plan_rows in Hin as [Ht Hsel].
      by apply (Hframe i t).
  - unfold Handlers.cancel_plan.
    apply (loop_same (λ s', subscriptions (store s'))).
    intros s' kv. apply (cancel_one_pool w s' kv "").
  - done.
  - by apply get_pending_transaction_None.
  - by apply pending_address_None.
Qed.

End SweepLaws.

(** ** Histories *)

Module HistoryLaws.
Import Models Database Engine Operations Maintenance StoreFacts PoolFacts.
Import LifecycleFacts HistoryFacts InvariantFacts Notions Lifecycle.

Lemma change_keeps_rows d d' :
  change d d' →
  (∀ i, is_Some (transactions d !! i) → is_Some (transactions d' !! i))
  ∧ (∀ a, is_Some (btc_addresses d !! a) → is_Some (btc_addresses d' !! a))
  ∧ (length (subscriptions d) ≤ length (subscriptions d'))%nat.
Proof.
  assert (Halter_tx : ∀ (f : transaction → transaction) i j
                        (m : gmap Z transaction),
             is_Some (m !! j) → is_Some (alter f i m !! j)).
  { intros f i j m Hj. destruct (decide (i = j)) as [->|Hne].
    - rewrite lookup_alter_eq. by apply fmap_is_Some.
    - by rewrite lookup_alter_ne. }
  assert (Halter_pool : ∀ (f : btc_address_row → btc_address_row) i j
                          (m : gmap string btc_address_row),
             is_Some (m !! j) → is_Some (alter f i m !! j)).
  { intros f i j m Hj. destruct (decide (i = j)) as [->|Hne].
    - rewrite lookup_alter_eq. by apply fmap_is_Some.
    - by rewrite lookup_alter_ne. }
  intros Hchange. destruct Hchange as
    [user plan address amount usd rate expires now d Hnone Hfree
    |user address now d Hfree
    |i t st released d Hlook Hp Hst
    |i t now d Hlook Hp
    |address d
    |now d].
  - rewrite (assign_btc_address_free _ user now _ Hfree). cbn.
    split; [|split; [|done]].
    + intros j Hj. apply lookup_insert_is_Some'. by right.
    + intros a Ha. apply lookup_insert_is_Some'. by right.
  - rewrite (assign_btc_address_free _ user now _ Hfree). cbn.
    split; [done|split; [|done]].
    intros a Ha. apply lookup_insert_is_Some'. by right.
  - destruct released; cbn; (split; [|split; [|done]]); auto.
  - unfold PaymentChecker.confirm_payment. cbn [fst snd].
    destruct (PlanType_of_value (plan_type t)); cbn;
      (split; [|split]); auto.
    rewrite length_app. lia.
  - rewrite (proj1 (PoolLaws.insert_address_others d address)).
    rewrite (proj2 (PoolLaws.insert_address_others d address)).
    split; [done|split; [|done]].
    intros a [r Hr]. by rewrite PoolLaws.insert_address_lookup, Hr.
  - cbn. split; [done|split; [done|]]. by rewrite length_map.
Qed.

(** X6: whatever the events, their order and the answers of the network,
    the store changes only by the six kinds of step of [change]: an
    available address is assigned and a pending transaction created on it
    for a user who has none, an available address is assigned, a pending
    transaction is expired or cancelled, a pending transaction is
    confirmed, an address is added to the pool, the overdue subscriptions
    are marked.  So no row of any table is ever deleted. *)
Theorem history_is_made_of_changes es s :
  rtc change (store s) (store (history es s))
  ∧ (∀ i, is_Some (transactions (store s) !! i)
          → is_Some (transactions (store (history es s)) !! i))
  ∧ (∀ a, is_Some (btc_addresses (store s) !! a)
          → is_Some (btc_addresses (store (history es s)) !! a))
  ∧ (length (subscriptions (store s))
     ≤ length (subscriptions (store (history es s))))%nat.
Proof.
  split.
  - apply (history_preserves (λ d', rtc change (store s) d')); [|done].
    intros d d' Hchange Hsofar. by eapply rtc_r.
  - apply (history_preserves
             (λ d', (∀ i, is_Some (transactions (store s) !! i)
                          → is_Some (transactions d' !! i))
                    ∧ (∀ a, is_Some (btc_addresses (store s) !! a)
                            → is_Some (btc_addresses d' !! a))
                    ∧ (length (subscriptions (store s))
                       ≤ length (subscriptions d'))%nat)); [|done].
    intros d d' Hchange (Htx & Hpool & Hsubs).
    destruct (change_keeps_rows d d' Hchange) as (Htx' & Hpool' & Hsubs').
    split; [|split]; [auto..|lia].
Qed.

(** X7: if every transaction that awaits payment or has been paid has its
    address marked as used and assigned to its user, and no two such
    transactions have the same address, then this holds after every
    history; and then an address that the allocator hands out is the
    address of no transaction that awaits payment or has been paid. *)
Theorem addresses_stay_exclusive es s :
  exclusive (store s) →
  let d := store (history es s) in
  exclusive d
  ∧ (∀ user rnd now a,
       (get_next_btc_address user rnd now d).2 = Some a →
       ∀ i t, transactions d !! i = Some t → holds_address t = true →
              btc_address t ≠ a).
Proof.
  intros Hs. cbv zeta.
  assert (Hd : exclusive (store (history es s)))
    by by apply (history_preserves exclusive), Hs; apply change_exclusive.
  split; [done|].
  intros user rnd now a Hnext i t Ht Hheld Haddr.
  unfold get_next_btc_address in Hnext.
  destruct (pending_address user _); [done|].
  destruct (get_available_btc_address rnd _) as [address|] eqn:Havailable;
    [|done].
  apply get_available_btc_address_Some in Havailable.
  rewrite (assign_btc_address_free _ user now _ Havailable) in Hnext.
  cbn in Hnext. injection Hnext as <-.
  apply (used_not_free (store (history es s)) address); [|done].
  rewrite <- Haddr. by apply (exclusive_used _ i t).
Qed.

(** X7 on a history from the store where user 7 has the pending
    transaction 1 on [address_A]: user 8 asks for a plan, the job runs
    with the full amount on every address, user 7 asks again, the admin
    rejects transaction 2. *)
Lemma addresses_stay_exclusive_witness :
  let w := Fixtures.world_at 1500 0 100000 in
  let s := {| store := Fixtures.store_1 VIP1 PENDING; requests := [] |} in
  let es := [Run (InitiatePurchase 8 VIP2 w); Run (CheckPaymentsJob w);
             Run (InitiatePurchase 7 VIP3 w); Run (ForceReject 2)] in
  exclusive (store (history es s)).
Proof.
  cbv zeta. apply addresses_stay_exclusive. split.
  - intros i t Hlook _. cbn in Hlook.
    apply lookup_insert_Some in Hlook as [[<- <-]|[_ Hlook]]; [|done].
    eexists. split; [reflexivity|done].
  - intros i j t u Ht Hu _ _ _. cbn in Ht, Hu.
    apply lookup_insert_Some in Ht as [[<- _]|[_ Ht]]; [|done].
    by apply lookup_insert_Some in Hu as [[<- _]|[_ Hu]].
Defined.

(** X8: if every subscription is for a confirmed transaction of its user
    and plan, no transaction has two subscriptions, every transaction is
    for one of the plans and every confirmed transaction has a
    subscription, then all of this holds after every history:
    subscriptions and confirmed transactions stay matched one to one. *)
Theorem subscriptions_match_confirmed_transactions es s :
  backed (store s) → served (store s) →
  backed (store (history es s)) ∧ served (store (history es s)).
Proof.
  intros Hbacked Hserved. split.
  - by apply (history_preserves backed), Hbacked; apply change_backed.
  - by apply (history_preserves served), Hserved; apply change_served.
Qed.

(** X8 on the history of the witness above, followed by the cleanup. *)
Lemma subscriptions_match_confirmed_transactions_witness :
  let w := Fixtures.world_at 1500 0 100000 in
  let s := {| store := Fixtures.store_1 VIP1 PENDING; requests := [] |} in
  let es := [Run (InitiatePurchase 8 VIP2 w); Run (CheckPaymentsJob w);
             Run (InitiatePurchase 7 VIP3 w); Run (ForceReject 2);
             CleanupDatabase 9000 9000] in
  backed (store (history es s)) ∧ served (store (history es s)).
Proof.
  cbv zeta. apply subscriptions_match_confirmed_transactions.
  - split; [|apply NoDup_nil_2]. intros sub Hin. cbn in Hin.
    by apply elem_of_nil in Hin.
  - intros i t Hlook. cbn in Hlook.
    apply lookup_insert_Some in Hlook as [[<- <-]|[_ Hlook]]; [|done].
    split; [by eexists|done].
Defined.

(** X9: if no user has two pending transactions, then no user has two
    after any history; and then the two queries for the pending
    transaction of a user, with and without an order, find the one there
    is. *)
Theorem one_pending_transaction_per_user es s :
  single_pending (store s) →
  let d := store (history es s) in
  single_pending d
  ∧ (∀ i t, transactions d !! i = Some t → status t = PENDING →
       get_pending_transaction (user_id t) d = Some (i, t)
       ∧ pending_address (user_id t) d = Some (btc_address t)).
Proof.
  intros Hs. cbv zeta.
  assert (Hd : single_pending (store (history es s)))
    by by apply (history_preserves single_pending), Hs;
          apply change_single_pending.
  split; [done|]. intros i t Ht Hp.
  assert (Honly : ∀ kv : Z * transaction,
             kv ∈ filter (λ kv : Z * transaction,
                            user_id kv.2 = user_id t ∧ is_pending kv.2 = true)
                    (map_to_list (transactions (store (history es s))))
             → kv = (i, t)).
  { intros [j u] [[Huser Hpu] Hin]%list_elem_of_filter. cbn in *.
    apply elem_of_map_to_list in Hin. apply is_pending_true in Hpu.
    assert (j = i) as -> by by apply (Hd j i u t).
    congruence. }
  split.
  - destruct (get_pending_transaction (user_id t) _) as [kv|] eqn:Hget.
    + f_equal. apply Honly. unfold get_pending_transaction in Hget.
      apply head_sorted_filter_Some in Hget as [Hsel Hin].
      by apply list_elem_of_filter.
    + apply get_pending_transaction_None in Hget. destruct Hget.
      by exists i, t.
  - destruct (pending_address (user_id t) _) as [a|] eqn:Hget.
    + unfold pending_address in Hget.
      destruct (filter _ _) as [|kv rest] eqn:Hrows; [done|].
      cbn in Hget. injection Hget as <-.
      by rewrite (Honly kv (list_elem_of_here _ _)).
    + apply pending_address_None in Hget. destruct Hget. by exists i, t.
Qed.

(** X9 on the history of the witness above. *)
Lemma one_pending_transaction_per_user_witness :
  let w := Fixtures.world_at 1500 0 100000 in
  let s := {| store := Fixtures.store_1 VIP1 PENDING; requests := [] |} in
  let es := [Run (InitiatePurchase 8 VIP2 w); Run (CheckPaymentsJob w);
             Run (InitiatePurchase 7 VIP3 w); Run (ForceReject 2)] in
  single_pending (store (history es s)).
Proof.
  cbv zeta. apply one_pending_transaction_per_user.
  intros i j t u Ht Hu _ _ _. cbn in Ht, Hu.
  apply lookup_insert_Some in Ht as [[<- _]|[_ Ht]]; [|done].
  by apply lookup_insert_Some in Hu as [[<- _]|[_ Hu]].
Defined.

End HistoryLaws.

(** ** database.py: marking subscriptions and cleaning up *)

Module CleanupLaws.
Import Models Database Engine Operations Maintenance StoreFacts PoolFacts.
Import LifecycleFacts HistoryFacts SweepFacts Notions Lifecycle.

Lemma overdue_not_active now now' user s :
  now ≤ now' → overdue now s = true → is_active user now' s = false.
Proof.
  unfold overdue, is_active. intros Hle.
  destruct (sub_status s), (sub_expires_at s) as [e|]; try done.
  intros He%Z.ltb_lt. rewrite andb_true_r.
  apply andb_false_intro2, Z.ltb_ge. lia.
Qed.

Lemma sub_expired_not_active user now s : is_active user now (sub_expired s) = false.
Proof. unfold is_active. cbn. by rewrite andb_false_r. Qed.

Lemma sub_expired_not_overdue now s : overdue now (sub_expired s) = false.
Proof. done. Qed.

Lemma filter_active_marked now now' user (subs : list subscription) :
  now ≤ now' →
  filter (λ s, is_active user now' s = true)
    (map (λ s, if overdue now s then sub_expired s else s) subs)
  = filter (λ s, is_active user now' s = true) subs.
Proof.
  intros Hle. induction subs as [|s rest IH]; [done|].
  cbn [map]. rewrite !filter_cons, IH.
  destruct (overdue now s) eqn:Hover; [|done].
  rewrite (overdue_not_active now now' user s Hle Hover).
  by rewrite sub_expired_not_active.
Qed.

Lemma expire_subscriptions_active now now' user d :
  now ≤ now' →
  get_active_subscription user now' (expire_subscriptions now d).1
  = get_active_subscription user now' d.
Proof.
  intros Hle. unfold get_active_subscription, expire_subscriptions.
  cbn [fst subscriptions set_subscriptions].
  by rewrite <- (filter_active_marked now now' user (subscriptions d) Hle).
Qed.

Lemma none_overdue_left now (subs : list subscription) :
  filter (λ s, overdue now s = true)
    (map (λ s, if overdue now s then sub_expired s else s) subs) = [].
Proof.
  apply filter_nil_none. intros s' Hin Hover.
  apply list_elem_of_In, in_map_iff in Hin as (s & <- & _).
  destruct (overdue now s) eqn:Hs; [by cbn in Hover|congruence].
Qed.

Lemma map_not_overdue now (subs : list subscription) :
  filter (λ s, overdue now s = true) subs = [] →
  map (λ s, if overdue now s then sub_expired s else s) subs = subs.
Proof.
  intros Hnone. induction subs as [|s rest IH]; [done|].
  rewrite filter_cons in Hnone. cbn [map].
  destruct (decide (overdue now s = true)) as [Hs|Hs]; [done|].
  apply not_true_is_false in Hs. rewrite Hs, IH; done.
Qed.

Lemma expire_subscriptions_again now d :
  expire_subscriptions now (expire_subscriptions now d).1
  = ((expire_subscriptions now d).1, 0%nat).
Proof.
  unfold expire_subscriptions. cbn [fst subscriptions set_subscriptions].
  rewrite none_overdue_left. cbn [length]. f_equal.
  unfold set_subscriptions. cbn. f_equal.
  apply map_not_overdue, none_overdue_left.
Qed.

(** X10: [expire_subscriptions] at time [now] takes access from nobody:
    for every user and every time from [now] on, the active subscription
    that [get_active_subscription] finds is the same before and after.
    It changes nothing but the status of the subscriptions it marks,
    which are the active ones whose expiry is before [now]; a lifetime
    subscription is never marked; and run again at the same time it
    changes nothing and reports 0. *)
Theorem expire_subscriptions_keeps_access now d :
  let d' := (expire_subscriptions now d).1 in
  (∀ user now', now ≤ now' →
     get_active_subscription user now' d' = get_active_subscription user now' d)
  ∧ (∀ k, subscriptions d' !! k
          = (λ s, if overdue now s then sub_expired s else s)
            <$> subscriptions d !! k)
  ∧ (∀ s, sub_expires_at s = None → overdue now s = false)
  ∧ transactions d' = transactions d
  ∧ btc_addresses d' = btc_addresses d
  ∧ expire_subscriptions now d' = (d', 0%nat).
Proof.
  cbv zeta. split; [|split; [|split; [|split; [|split]]]].
  - intros user now'. apply expire_subscriptions_active.
  - intros k. cbn. apply list_lookup_fmap.
  - intros s Hnone. unfold overdue. rewrite Hnone. by destruct (sub_status s).
  - done.
  - done.
  - apply expire_subscriptions_again.
Qed.

(** X10 on user 7, whose 30-day subscription ended at 2593000 and who
    holds a lifetime subscription too: marked at 2600000, the first is
    expired and the lifetime one is still found. *)
Lemma expire_subscriptions_keeps_access_witness :
  let monthly := {| sub_user_id := 7; sub_plan_type := "VIP1";
                    sub_transaction_id := 1; sub_status := ACTIVE;
                    sub_created_at := 1000;
                    sub_expires_at := Some 2593000 |} in
  let lifetime := {| sub_user_id := 7; sub_plan_type := "VIP3";
                     sub_transaction_id := 2; sub_status := ACTIVE;
                     sub_created_at := 2000; sub_expires_at := None |} in
  let d := set_subscriptions [monthly; lifetime] Fixtures.pool_AB in
  get_active_subscription 7 2600000 (expire_subscriptions 2600000 d).1
  = Some lifetime
  ∧ subscriptions (expire_subscriptions 2600000 d).1
    = [sub_expired monthly; lifetime].
Proof.
  cbv zeta. split.
  - rewrite (proj1 (expire_subscriptions_keeps_access 2600000 _)) by lia.
    reflexivity.
  - reflexivity.
Defined.

Lemma cleanup_database_eq now_txs now_subs d :
  cleanup_database now_txs now_subs d
  = ((expire_subscriptions now_subs (expire_old_transactions now_txs d).1).1,
     ((expire_old_transactions now_txs d).2,
      (expire_subscriptions now_subs d).2)).
Proof.
  unfold cleanup_database.
  pose proof (expire_old_transactions_subscriptions now_txs d) as Hsubs.
  destruct (expire_old_transactions now_txs d) as [d1 n1]. cbn [fst snd] in *.
  unfold expire_subscriptions. cbn [fst snd]. by rewrite Hsubs.
Qed.

Lemma expire_old_transactions_nothing now d :
  filter (λ kv : Z * transaction,
            is_pending kv.2 = true ∧ expires_at kv.2 < now)
    (map_to_list (transactions d)) = [] →
  expire_old_transactions now d = (d, 0%nat).
Proof. intros Hnil. unfold expire_old_transactions. cbv zeta. by rewrite Hnil. Qed.

(** X11: [cleanup_database] is its two statements side by side: the
    transactions are those [expire_old_transactions] leaves, the
    subscriptions those [expire_subscriptions] leaves, and the two counts
    are the counts each would report on the store alone.  It takes access
    from nobody, for every time from the time of its second statement on;
    and run again at the same times it changes nothing and reports
    (0, 0). *)
Theorem cleanup_database_effect now_txs now_subs d :
  let r := cleanup_database now_txs now_subs d in
  r.2 = ((expire_old_transactions now_txs d).2,
         (expire_subscriptions now_subs d).2)
  ∧ (∀ i, transactions r.1 !! i
          = (λ t, if lapsed now_txs t then with_status EXPIRED t else t)
            <$> transactions d !! i)
  ∧ btc_addresses r.1 = btc_addresses (expire_old_transactions now_txs d).1
  ∧ subscriptions r.1 = subscriptions (expire_subscriptions now_subs d).1
  ∧ (∀ user now', now_subs ≤ now' →
       get_active_subscription user now' r.1
       = get_active_subscription user now' d)
  ∧ cleanup_database now_txs now_subs r.1 = (r.1, (0%nat, 0%nat)).
Proof.
  cbv zeta. rewrite cleanup_database_eq. cbn [fst snd].
  pose proof (expire_old_transactions_subscriptions now_txs d) as Hsubs.
  split; [done|split; [|split; [done|split; [|split]]]].
  - intros i. apply expire_old_transactions_lookup.
  - unfold expire_subscriptions. cbn [fst subscriptions set_subscriptions].
    by rewrite Hsubs.
  - intros user now' Hle. rewrite expire_subscriptions_active by done.
    unfold get_active_subscription. by rewrite Hsubs.
  - unfold cleanup_database at 1.
    rewrite (expire_old_transactions_nothing now_txs)
      by apply no_lapsed_left.
    by rewrite expire_subscriptions_again.
Qed.

End CleanupLaws.

(** ** Confirmations *)

Module ConfirmFacts.
Import Models Database Engine Operations Maintenance StoreFacts PoolFacts.
Import LifecycleFacts HistoryFacts InvariantFacts SweepFacts Notions Lifecycle.

Lemma check_single_payment_paid w i t s :
  store (PaymentChecker.check_single_payment w (i, t) s)
  = if paid w (requests s) t
    then PaymentChecker.confirm_payment (now w) (i, t) (store s)
    else store s.
Proof.
  unfold PaymentChecker.check_single_payment, paid. cbn [fst snd].
  destruct (BtcApi.check_address_balance _ _ _ _) as [balance log1].
  destruct (PrimFloat.leb _ _); [|done].
  by destruct (BtcApi.check_double_spend _ _ _ _) as [[|] log2].
Qed.

Lemma confirm_payment_row now i t d :
  transactions d !! i = Some t →
  transactions (PaymentChecker.confirm_payment now (i, t) d) !! i
  = Some (confirmed now t).
Proof.
  intros Hlook. rewrite (proj1 (confirm_payment_transactions now i t d)).
  by rewrite lookup_alter_eq, Hlook.
Qed.

Lemma confirm_payment_subscriptions now i t d p :
  PlanType_of_value (plan_type t) = Some p →
  subscriptions (PaymentChecker.confirm_payment now (i, t) d)
  = (subscriptions d ++ [granted now i t p])%list.
Proof.
  intros Hplan. unfold PaymentChecker.confirm_payment. cbn [fst snd].
  by rewrite Hplan.
Qed.

Lemma granted_active now i t p now' :
  in_force now p now' → is_active (user_id t) now' (granted now i t p) = true.
Proof.
  unfold in_force, is_active, granted, PaymentService.subscription_expiry. cbn.
  rewrite Z.eqb_refl. destruct (duration_days p) as [days|]; [|done].
  intros Hlt. cbn. by apply Z.ltb_lt.
Qed.

Lemma confirm_payment_grants now i t d p now' :
  PlanType_of_value (plan_type t) = Some p → in_force now p now' →
  has_active (user_id t) now' (PaymentChecker.confirm_payment now (i, t) d).
Proof.
  intros Hplan Hforce. exists (granted now i t p). split.
  - rewrite (confirm_payment_subscriptions now i t d p Hplan).
    apply elem_of_app. right. apply list_elem_of_here.
  - by apply granted_active.
Qed.

Lemma has_active_found user now d :
  has_active user now d → is_Some (get_active_subscription user now d).
Proof.
  intros Hact. destruct (get_active_subscription user now d) eqn:E; [done|].
  by apply get_active_subscription_None in E.
Qed.

(** A loop whose body writes only the row it is given leaves the rows it
    is not given alone. *)
Lemma loop_other {S} (proj : S → db) (f : S → Z * transaction → S)
    (rows : list (Z * transaction)) (s : S) (i : Z) :
  (∀ s kv, only_at kv.1 (proj s) (proj (f s kv))) →
  i ∉ rows.*1 →
  transactions (proj (foldl f s rows)) !! i = transactions (proj s) !! i.
Proof.
  intros Honly. revert s. induction rows as [|kv rest IH]; intros s Hout; [done|].
  cbn [foldl]. rewrite fmap_cons in Hout. apply not_elem_of_cons in Hout as [Hne Hout].
  rewrite IH by done. by apply Honly.
Qed.

(** The row is reached as the loop found it at the start; what its turn
    establishes, the other turns keep. *)
Lemma loop_turn {S} (proj : S → db) (f : S → Z * transaction → S)
    (Q : S → Prop) (rows : list (Z * transaction)) (s : S) (i : Z)
    (t : transaction) :
  NoDup rows.*1 → (i, t) ∈ rows →
  (∀ s kv, only_at kv.1 (proj s) (proj (f s kv))) →
  (∀ s, transactions (proj s) !! i = Some t → Q (f s (i, t))) →
  (∀ s kv, kv.1 ≠ i → Q s → Q (f s kv)) →
  transactions (proj s) !! i = Some t →
  Q (foldl f s rows).
Proof.
  intros Hnodup Hin Honly Hturn Hkeep. revert s Hnodup Hin.
  induction rows as [|kv rest IH]; intros s Hnodup Hin Hlook.
  - by apply elem_of_nil in Hin.
  - cbn [foldl]. rewrite fmap_cons in Hnodup.
    apply NoDup_cons in Hnodup as [Hfresh Hnodup].
    apply elem_of_cons in Hin as [<-|Hin].
    + clear IH. cbn [fst] in Hfresh.
      assert (Hrest : ∀ s', Q s' → Q (foldl f s' rest)).
      { clear Hnodup. induction rest as [|kv rest IH]; intros s' HQ; [done|].
        cbn [foldl]. rewrite fmap_cons in Hfresh.
        apply not_elem_of_cons in Hfresh as [Hne Hfresh].
        apply IH; [done|]. apply Hkeep; [|done]. congruence. }
      by apply Hrest, Hturn.
    + apply IH; [done..|]. rewrite Honly; [done|].
      intros ->. apply Hfresh. apply list_elem_of_fmap. by exists (kv.1, t).
Qed.

Lemma loop_subscriptions_kept {S X} (proj : S → db) (f : S → X → S)
    (rows : list X) (s : S) (sub : subscription) :
  (∀ s x, sub ∈ subscriptions (proj s) → sub ∈ subscriptions (proj (f s x))) →
  sub ∈ subscriptions (proj s) → sub ∈ subscriptions (proj (foldl f s rows)).
Proof.
  intros Hbody. revert s. induction rows as [|x rest IH]; intros s Hin; [done|].
  cbn [foldl]. by apply IH, Hbody.
Qed.

Lemma check_single_payment_subscriptions_kept w kv s sub :
  sub ∈ subscriptions (store s) →
  sub ∈ subscriptions (store (PaymentChecker.check_single_payment w kv s)).
Proof.
  intros Hin. destruct kv as [i t]. rewrite check_single_payment_paid.
  destruct (paid w (requests s) t); [|done].
  unfold PaymentChecker.confirm_payment. cbn [fst snd].
  destruct (PlanType_of_value (plan_type t)); [|done].
  cbn. apply elem_of_app. by left.
Qed.

Lemma force_approve_transaction_pending tx_id now d t :
  transactions d !! tx_id = Some t → status t = PENDING →
  Admin.force_approve_transaction tx_id now d
  = PaymentChecker.confirm_payment now (tx_id, t) d.
Proof.
  intros Hlook Hp. unfold Admin.force_approve_transaction. rewrite Hlook.
  by apply is_pending_true in Hp as ->.
Qed.

Lemma force_noop tx_id now d :
  (∀ t, transactions d !! tx_id = Some t → status t ≠ PENDING) →
  Admin.force_approve_transaction tx_id now d = d
  ∧ Admin.force_reject_transaction tx_id d = d.
Proof.
  intros Hsettled.
  unfold Admin.force_approve_transaction, Admin.force_reject_transaction.
  destruct (transactions d !! tx_id) as [t|]; [|done].
  specialize (Hsettled t eq_refl). apply is_pending_false in Hsettled.
  by rewrite Hsettled.
Qed.

Lemma force_approve_transaction_settles tx_id now d t :
  transactions (Admin.force_approve_transaction tx_id now d) !! tx_id = Some t →
  status t ≠ PENDING.
Proof.
  unfold Admin.force_approve_transaction.
  destruct (transactions d !! tx_id) as [t0|] eqn:Hlook; [|congruence].
  destruct (is_pending t0) eqn:Hp; cbn [negb].
  - change (transactions (PaymentChecker.confirm_payment now (tx_id, t0) d)
              !! tx_id = Some t → status t ≠ PENDING).
    rewrite (confirm_payment_row now tx_id t0 d Hlook). by intros [= <-].
  - rewrite Hlook. intros [= <-]. by apply is_pending_false.
Qed.

Lemma force_reject_transaction_settles tx_id d t :
  transactions (Admin.force_reject_transaction tx_id d) !! tx_id = Some t →
  status t ≠ PENDING.
Proof.
  unfold Admin.force_reject_transaction.
  destruct (transactions d !! tx_id) as [t0|] eqn:Hlook; [|congruence].
  destruct (is_pending t0) eqn:Hp; cbn [negb].
  - cbn. rewrite lookup_alter_eq, Hlook. by intros [= <-].
  - rewrite Hlook. intros [= <-]. by apply is_pending_false.
Qed.

Lemma handle_expired_transactions_subscriptions w s :
  subscriptions (store (PaymentChecker.handle_expired_transactions w s))
  = subscriptions (store s).
Proof.
  unfold PaymentChecker.handle_expired_transactions.
  apply (loop_same (λ s', subscriptions (store s'))).
  intros s' kv. apply (expire_one_pool w s' kv "").
Qed.

Lemma confirmed_not_due now now' t : due now' (confirmed now t) = false.
Proof. done. Qed.

Lemma check_payments_job_paid w s i t :
  transactions (store s) !! i = Some t → status t = PENDING →
  (∀ log, paid w log t = true) →
  transactions (store (PaymentChecker.check_payments_job w s)) !! i
  = Some (confirmed (now w) t)
  ∧ ∀ p, PlanType_of_value (plan_type t) = Some p →
         granted (now w) i t p
         ∈ subscriptions (store (PaymentChecker.check_payments_job w s)).
Proof.
  intros Hlook Hp Hpaid. unfold PaymentChecker.check_payments_job.
  assert (Hin : (i, t) ∈ get_pending_transactions (store s))
    by by apply elem_of_get_pending_transactions.
  pose (Q := λ s1 : state,
               transactions (store s1) !! i = Some (confirmed (now w) t)
               ∧ ∀ p, PlanType_of_value (plan_type t) = Some p →
                      granted (now w) i t p ∈ subscriptions (store s1)).
  assert (Hloop :
    Q (foldl (λ acc tx, PaymentChecker.check_single_payment w tx acc) s
         (get_pending_transactions (store s)))).
  { apply (loop_turn store
             (λ acc tx, PaymentChecker.check_single_payment w tx acc)
             Q _ s i t); unfold Q.
    - apply NoDup_keys_sorted.
    - done.
    - intros s1 kv. apply check_single_payment_only_at.
    - intros s1 Hrow. rewrite check_single_payment_paid, Hpaid.
      split; [by apply confirm_payment_row|].
      intros p Hplan. rewrite (confirm_payment_subscriptions _ _ _ _ p Hplan).
      apply elem_of_app. right. apply list_elem_of_here.
    - intros s1 kv Hne [Hrow Hsub]. split.
      + by rewrite check_single_payment_only_at.
      + intros p Hplan. by apply check_single_payment_subscriptions_kept, Hsub.
    - done. }
  unfold Q in Hloop. destruct Hloop as [Hrow Hsub]. split.
  - rewrite handle_expired_transactions_lookup, Hrow. done.
  - intros p Hplan. rewrite handle_expired_transactions_subscriptions. auto.
Qed.

Lemma check_payments_job_unpaid w s i t :
  transactions (store s) !! i = Some t → status t = PENDING →
  (∀ log, paid w log t = false) →
  transactions (store (PaymentChecker.check_payments_job w s)) !! i
  = Some (if due (now w) t then with_status EXPIRED t else t).
Proof.
  intros Hlook Hp Hshort. unfold PaymentChecker.check_payments_job.
  assert (Hin : (i, t) ∈ get_pending_transactions (store s))
    by by apply elem_of_get_pending_transactions.
  pose (Q := λ s1 : state, transactions (store s1) !! i = Some t).
  assert (Hloop :
    Q (foldl (λ acc tx, PaymentChecker.check_single_payment w tx acc) s
         (get_pending_transactions (store s)))).
  { apply (loop_turn store
             (λ acc tx, PaymentChecker.check_single_payment w tx acc)
             Q _ s i t); unfold Q.
    - apply NoDup_keys_sorted.
    - done.
    - intros s1 kv. apply check_single_payment_only_at.
    - intros s1 Hrow. by rewrite check_single_payment_paid, Hshort.
    - intros s1 kv Hne Hrow. by rewrite check_single_payment_only_at.
    - done. }
  unfold Q in Hloop. by rewrite handle_expired_transactions_lookup, Hloop.
Qed.

End ConfirmFacts.

Module ConfirmLaws.
Import Models Database Engine Operations Maintenance StoreFacts PoolFacts.
Import LifecycleFacts HistoryFacts InvariantFacts SweepFacts ConfirmFacts Notions Lifecycle.

(** X12: [check_single_payment] changes the store only when the balance
    of the address covers the expected amount and the double-spend
    detector does not object.  Then, for a transaction that is as it was
    read and is for one of the plans, it writes the confirmation on that
    row and on no other, leaves the pool as it is (the address stays
    assigned), and adds one subscription, with which the user has access
    for the 30 days of the plan, or for life, and is refused a new
    payment for as long. *)
Theorem check_single_payment_effect w i t s :
  let s' := PaymentChecker.check_single_payment w (i, t) s in
  (paid w (requests s) t = false → store s' = store s)
  ∧ (∀ p, paid w (requests s) t = true →
       transactions (store s) !! i = Some t →
       PlanType_of_value (plan_type t) = Some p →
       transactions (store s') !! i = Some (confirmed (now w) t)
       ∧ (∀ j, j ≠ i → transactions (store s') !! j
                       = transactions (store s) !! j)
       ∧ btc_addresses (store s') = btc_addresses (store s)
       ∧ subscriptions (store s')
         = (subscriptions (store s) ++ [granted (now w) i t p])%list
       ∧ (∀ now', in_force (now w) p now' →
            is_Some (get_active_subscription (user_id t) now' (store s'))
            ∧ ∀ plan btc_price rnd,
                PaymentService.create_payment (user_id t) plan btc_price rnd
                  now' (store s') = (store s', None))).
Proof.
  cbv zeta. rewrite check_single_payment_paid. split.
  - by intros ->.
  - intros p -> Hlook Hplan. split; [|split; [|split; [|split]]].
    + by apply confirm_payment_row.
    + intros j Hne. rewrite (proj1 (confirm_payment_transactions _ i t _)).
      by rewrite lookup_alter_ne.
    + apply confirm_payment_transactions.
    + by apply confirm_payment_subscriptions.
    + intros now' Hforce.
      pose proof (confirm_payment_grants (now w) i t (store s) p now'
                    Hplan Hforce) as Hactive.
      split; [by apply has_active_found|].
      intros plan btc_price rnd.
      by apply AllocatorFacts.create_payment_active.
Qed.

(** X12 on transaction 1 of user 7, a VIP1 plan for 0.001 BTC, when the
    address holds 100000 satoshis: it is confirmed at 1500, and at 2000000
    user 7 has access and is refused a new payment. *)
Lemma check_single_payment_effect_witness :
  let w := Fixtures.world_at 1500 0 100000 in
  let s := {| store := Fixtures.store_1 VIP1 PENDING; requests := [] |} in
  let s' := PaymentChecker.check_single_payment w
              (1, Fixtures.transaction_1 VIP1 PENDING) s in
  transactions (store s') !! 1
  = Some (confirmed 1500 (Fixtures.transaction_1 VIP1 PENDING))
  ∧ is_Some (get_active_subscription 7 2000000 (store s'))
  ∧ PaymentService.create_payment 7 VIP2 50000%float 0 2000000 (store s')
    = (store s', None).
Proof.
  cbv zeta.
  pose proof (check_single_payment_effect (Fixtures.world_at 1500 0 100000) 1
                (Fixtures.transaction_1 VIP1 PENDING)
                {| store := Fixtures.store_1 VIP1 PENDING; requests := [] |})
    as [_ Hpaid].
  destruct (Hpaid VIP1) as (Hrow & _ & _ & _ & Haccess);
    [reflexivity..|].
  split; [exact Hrow|].
  destruct (Haccess 2000000) as [Hfound Hrefused]; [cbn; lia|].
  split; [exact Hfound|apply Hrefused].
Defined.

(** X13: the admin's approval and rejection apply once.  Each does
    nothing to a transaction that is missing or not pending; so after
    either of them the other, or the same again, changes nothing: an
    approved transaction cannot be rejected, a rejected one cannot be
    approved, and a second approval adds no second subscription.  An
    approval of a pending transaction for one of the plans gives the user
    access as a confirmed payment does. *)
Theorem force_actions_apply_once tx_id now d :
  let approved := Admin.force_approve_transaction tx_id now d in
  let rejected := Admin.force_reject_transaction tx_id d in
  ((∀ t, transactions d !! tx_id = Some t → status t ≠ PENDING) →
   approved = d ∧ rejected = d)
  ∧ (∀ now', Admin.force_approve_transaction tx_id now' approved = approved)
  ∧ Admin.force_reject_transaction tx_id approved = approved
  ∧ (∀ now', Admin.force_approve_transaction tx_id now' rejected = rejected)
  ∧ Admin.force_reject_transaction tx_id rejected = rejected
  ∧ (∀ t p now', transactions d !! tx_id = Some t → status t = PENDING →
       PlanType_of_value (plan_type t) = Some p → in_force now p now' →
       transactions approved !! tx_id = Some (confirmed now t)
       ∧ subscriptions approved
         = (subscriptions d ++ [granted now tx_id t p])%list
       ∧ is_Some (get_active_subscription (user_id t) now' approved)).
Proof.
  cbv zeta. split; [|split; [|split; [|split; [|split]]]].
  - apply force_noop.
  - intros now'. apply force_noop. apply force_approve_transaction_settles.
  - apply (force_noop tx_id now). apply force_approve_transaction_settles.
  - intros now'. apply force_noop. apply force_reject_transaction_settles.
  - apply (force_noop tx_id now). apply force_reject_transaction_settles.
  - intros t p now' Hlook Hp Hplan Hforce.
    rewrite (force_approve_transaction_pending tx_id now d t Hlook Hp).
    split; [by apply confirm_payment_row|].
    split; [by apply confirm_payment_subscriptions|].
    by apply has_active_found, (confirm_payment_grants now tx_id t d p).
Qed.

(** X13 on the pending transaction 1 of user 7: approved at 1500, it
    cannot be rejected, and user 7 has access at 2000000. *)
Lemma force_actions_apply_once_witness :
  let d := Fixtures.store_1 VIP1 PENDING in
  let approved := Admin.force_approve_transaction 1 1500 d in
  Admin.force_reject_transaction 1 approved = approved
  ∧ transactions approved !! 1
    = Some (confirmed 1500 (Fixtures.transaction_1 VIP1 PENDING))
  ∧ is_Some (get_active_subscription 7 2000000 approved).
Proof.
  cbv zeta.
  pose proof (force_actions_apply_once 1 1500 (Fixtures.store_1 VIP1 PENDING))
    as (_ & _ & Hreject & _ & _ & Happrove).
  split; [exact Hreject|].
  destruct (Happrove (Fixtures.transaction_1 VIP1 PENDING) VIP1 2000000)
    as (Hrow & _ & Hfound); [reflexivity..|cbn; lia|].
  by split.
Defined.

(** X14: what the periodic job does to a pending transaction.  If its
    address is paid in full whenever the job looks, the job confirms it
    and adds its subscription, also when its deadline has passed: the
    balance pass comes before the expiry sweep.  If it is not, the job
    expires it when its deadline is [now] or before, and leaves it as it
    is otherwise. *)
Theorem check_payments_job_settles w s i t :
  transactions (store s) !! i = Some t → status t = PENDING →
  let s' := PaymentChecker.check_payments_job w s in
  ((∀ log, paid w log t = true) →
   transactions (store s') !! i = Some (confirmed (now w) t)
   ∧ ∀ p, PlanType_of_value (plan_type t) = Some p →
          granted (now w) i t p ∈ subscriptions (store s'))
  ∧ ((∀ log, paid w log t = false) →
     transactions (store s') !! i
     = Some (if due (now w) t then with_status EXPIRED t else t)).
Proof.
  intros Hlook Hp. cbv zeta. split.
  - by apply check_payments_job_paid.
  - by apply check_payments_job_unpaid.
Qed.

(** X14 on transaction 1 of user 7, whose deadline was 2800, when the job
    runs at 3000: with 100000 satoshis on the address it is confirmed,
    with 50000 it is expired. *)
Lemma check_payments_job_settles_witness :
  let s := {| store := Fixtures.store_1 VIP1 PENDING; requests := [] |} in
  let t := Fixtures.transaction_1 VIP1 PENDING in
  due 3000 t = true
  ∧ transactions
      (store (PaymentChecker.check_payments_job
                (Fixtures.world_at 3000 0 100000) s)) !! 1
    = Some (confirmed 3000 t)
  ∧ transactions
      (store (PaymentChecker.check_payments_job
                (Fixtures.world_at 3000 0 50000) s)) !! 1
    = Some (with_status EXPIRED t).
Proof.
  cbv zeta. split; [reflexivity|]. split.
  - apply (check_payments_job_settles (Fixtures.world_at 3000 0 100000)
             {| store := Fixtures.store_1 VIP1 PENDING; requests := [] |} 1
             (Fixtures.transaction_1 VIP1 PENDING)); [reflexivity..|].
    intros log. reflexivity.
  - pose proof (check_payments_job_settles (Fixtures.world_at 3000 0 50000)
                  {| store := Fixtures.store_1 VIP1 PENDING; requests := [] |} 1
                  (Fixtures.transaction_1 VIP1 PENDING) eq_refl eq_refl)
      as [_ Hshort].
    apply Hshort. intros log. reflexivity.
Defined.

End ConfirmLaws.

(** ** bot/btc_api.py: the order of the sources *)

Module OracleLaws.
Import BtcApi Notions.

Lemma price_from_cons net a rest fallback log :
  price_from net (a :: rest) fallback log
  = match accepted_price (price_reply net (length log) (url a)) with
    | Some price => (price, (log ++ [url a])%list)
    | None => price_from net rest fallback (log ++ [url a])
    end.
Proof.
  cbn. destruct (price_reply net (length log) (url a))
    as [status [price|]| | |]; cbn; try done.
  by destruct ((status =? 200) && PrimFloat.ltb 0 price).
Qed.

Lemma price_from_prefix net apis fallback log :
  ∃ k, (price_from net apis fallback log).2
       = (log ++ take k (map url apis))%list.
Proof.
  revert log. induction apis as [|a rest IH]; intros log.
  - exists 0%nat. cbn. by rewrite app_nil_r.
  - rewrite price_from_cons.
    destruct (accepted_price _) as [price|].
    + by exists 1%nat.
    + destruct (IH (log ++ [url a])%list) as [k Hk]. exists (S k).
      rewrite Hk. cbn. by rewrite <- app_assoc.
Qed.

Lemma price_from_first_accepted net before a after fallback log price :
  (∀ k b, before !! k = Some b →
     accepted_price (price_reply net (length log + k) (url b)) = None) →
  accepted_price (price_reply net (length log + length before) (url a))
  = Some price →
  price_from net (before ++ a :: after) fallback log
  = (price, (log ++ map url before ++ [url a])%list).
Proof.
  revert log. induction before as [|b rest IH]; intros log Hnone Hok.
  - cbn [app length] in *. rewrite Nat.add_0_r in Hok.
    by rewrite price_from_cons, Hok.
  - cbn [app]. rewrite price_from_cons.
    pose proof (Hnone 0%nat b eq_refl) as Hb. rewrite Nat.add_0_r in Hb.
    rewrite Hb, IH.
    + cbn. by rewrite <- app_assoc.
    + intros k b' Hk. rewrite length_app. cbn.
      replace (length log + 1 + k)%nat with (length log + S k)%nat by lia.
      by apply Hnone.
    + rewrite length_app. cbn. cbn in Hok.
      by replace (length log + 1 + length rest)%nat
        with (length log + S (length rest))%nat by lia.
Qed.

(** X15: [get_btc_price] asks the configured sources in their order, one
    request each, and stops at the first accepted price: the requests it
    adds are a prefix of the configured URLs; and when the sources before
    one of them give no accepted price and that one does, its price is
    the answer and no later source is asked. *)
Theorem get_btc_price_first_accepted net self log :
  (∃ k, (get_btc_price net self log).2
        = (log ++ take k (map url (price_apis self)))%list)
  ∧ (∀ before a after price,
       price_apis self = (before ++ a :: after)%list →
       (∀ k b, before !! k = Some b →
          accepted_price (price_reply net (length log + k) (url b)) = None) →
       accepted_price (price_reply net (length log + length before) (url a))
       = Some price →
       get_btc_price net self log
       = (price, (log ++ map url before ++ [url a])%list)).
Proof.
  unfold get_btc_price. split; [apply price_from_prefix|].
  intros before a after price ->. apply price_from_first_accepted.
Qed.

(** X15 when the first source answers 0 and the second 50000: the answer
    is 50000 after two requests. *)
Lemma get_btc_price_first_accepted_witness :
  get_btc_price (Fixtures.net_up 0 []) (Fixtures.sources default_fallback) []
  = (50000%float, [url Fixtures.source_1; url Fixtures.source_2]).
Proof.
  apply (proj2 (get_btc_price_first_accepted (Fixtures.net_up 0 [])
                  (Fixtures.sources default_fallback) [])
           [Fixtures.source_1] Fixtures.source_2 []).
  - reflexivity.
  - intros [|k] b Hb; [|done]. reflexivity.
  - reflexivity.
Defined.

Lemma balance_from_cons net a rest address log :
  balance_from net (a :: rest) address log
  = match balance_url a address with
    | None => balance_from net rest address log
    | Some u =>
        match usable_balance (balance_reply net (length log) u) with
        | Some satoshis =>
            (Py.truediv_int satoshis 100000000, (log ++ [u])%list)
        | None => balance_from net rest address (log ++ [u])
        end
    end.
Proof.
  cbn. destruct (balance_url a address) as [u|]; [|done].
  destruct (balance_reply net (length log) u) as [status [satoshis|]| | |];
    cbn; try done.
  by destruct (status =? 200).
Qed.

Lemma balance_from_prefix net apis address log :
  ∃ k, (balance_from net apis address log).2
       = (log ++ take k (omap (λ a, balance_url a address) apis))%list.
Proof.
  revert log. induction apis as [|a rest IH]; intros log.
  - exists 0%nat. cbn. by rewrite app_nil_r.
  - rewrite balance_from_cons. cbn [omap list_omap].
    destruct (balance_url a address) as [u|]; [|apply IH].
    destruct (usable_balance _) as [satoshis|].
    + by exists 1%nat.
    + destruct (IH (log ++ [u])%list) as [k Hk]. exists (S k).
      rewrite Hk. cbn. by rewrite <- app_assoc.
Qed.

Lemma balance_from_first_usable_after net before a after address log u satoshis :
  (∀ k v, omap (λ b, balance_url b address) before !! k = Some v →
     usable_balance (balance_reply net (length log + k) v) = None) →
  balance_url a address = Some u →
  usable_balance
    (balance_reply net
       (length log + length (omap (λ b, balance_url b address) before)) u)
  = Some satoshis →
  balance_from net (before ++ a :: after) address log
  = (Py.truediv_int satoshis 100000000,
     (log ++ omap (λ b, balance_url b address) before ++ [u])%list).
Proof.
  revert log. induction before as [|b rest IH]; intros log Hnone Hu Hok.
  - cbn [app length omap list_omap] in *. rewrite Nat.add_0_r in Hok.
    by rewrite balance_from_cons, Hu, Hok.
  - cbn [app]. rewrite balance_from_cons. cbn [omap list_omap] in *.
    destruct (balance_url b address) as [v|].
    + pose proof (Hnone 0%nat v eq_refl) as Hv. rewrite Nat.add_0_r in Hv.
      rewrite Hv, IH; [|  |done|].
      * cbn. by rewrite <- app_assoc.
      * intros k v' Hk. rewrite length_app. cbn.
        replace (length log + 1 + k)%nat with (length log + S k)%nat by lia.
        by apply Hnone.
      * rewrite length_app. cbn. cbn in Hok.
        by replace (length log + 1
                    + length (omap (λ b, balance_url b address) rest))%nat
          with (length log
                + S (length (omap (λ b, balance_url b address) rest)))%nat
          by lia.
    + by apply IH.
Qed.

(** X16: for an address of 26 characters or more, [check_address_balance]
    asks the configured sources it has a URL shape for, in their order,
    one request each, and stops at the first usable reply; a source it
    has no URL shape for is passed over with no request.  The requests it
    adds are a prefix of those URLs; and when the sources before one of
    them give no usable reply and that one reports [satoshis], the answer
    is [satoshis / 10^8] and no later source is asked. *)
Theorem check_address_balance_first_usable net self address log :
  (26 ≤ String.length address)%nat →
  (∃ k, (check_address_balance net self (Some address) log).2
        = (log ++ take k (omap (λ a, balance_url a address)
                            (blockchain_apis self)))%list)
  ∧ (∀ before a after u satoshis,
       blockchain_apis self = (before ++ a :: after)%list →
       (∀ k v, omap (λ b, balance_url b address) before !! k = Some v →
          usable_balance (balance_reply net (length log + k) v) = None) →
       balance_url a address = Some u →
       usable_balance
         (balance_reply net
            (length log + length (omap (λ b, balance_url b address) before)) u)
       = Some satoshis →
       check_address_balance net self (Some address) log
       = (Py.truediv_int satoshis 100000000,
          (log ++ omap (λ b, balance_url b address) before ++ [u])%list)).
Proof.
  intros Hlong. unfold check_address_balance.
  assert ((String.length address <? 26)%nat = false) as ->
    by by apply Nat.ltb_ge.
  split; [apply balance_from_prefix|].
  intros before a after u satoshis ->. apply balance_from_first_usable_after.
Qed.

(** X16 on a configuration whose first source has no URL shape and whose
    second times out: the third source's 50000 satoshis are the answer,
    0.0005 BTC, after two requests. *)
Lemma check_address_balance_first_usable_witness :
  let unknown := {| url := "https://example.org/api"; name := "BLOCKCHAIN_API_0" |} in
  let self := {| price_apis := [];
                 blockchain_apis := [unknown; Fixtures.blockstream;
                                     Fixtures.blockcypher];
                 FALLBACK_BTC_PRICE := default_fallback |} in
  let net := {| price_reply := λ _ _, TimeoutError;
                balance_reply := λ n _, if (n =? 0)%nat then TimeoutError
                                        else Response 200 (Some 50000);
                history_reply := λ _ _, TimeoutError |} in
  check_address_balance net self (Some Fixtures.address_A) []
  = (0.0005%float,
     ["https://blockstream.info/api/address/1AAAAAAAAAAAAAAAAAAAAAAAAAAAAAAAAA/utxo";
      "https://api.blockcypher.com/v1/btc/main/addrs/1AAAAAAAAAAAAAAAAAAAAAAAAAAAAAAAAA/balance"]).
Proof.
  cbv zeta.
  match goal with
  | |- check_address_balance ?net ?self _ _ = _ =>
      destruct (check_address_balance_first_usable net self
                  Fixtures.address_A []) as [_ Hfirst]; [cbn; lia|];
      rewrite (Hfirst [{| url := "https://example.org/api";
                          name := "BLOCKCHAIN_API_0" |}; Fixtures.blockstream]
                 Fixtures.blockcypher []
                 "https://api.blockcypher.com/v1/btc/main/addrs/1AAAAAAAAAAAAAAAAAAAAAAAAAAAAAAAAA/balance"
                 50000)
  end.
  - reflexivity.
  - reflexivity.
  - intros [|k] v Hv; [|done]. cbn in Hv. injection Hv as <-. reflexivity.
  - reflexivity.
  - reflexivity.
Defined.

End OracleLaws.

(** ** database.py: assigning an address *)

Module AssignLaws.
Import Models Database Engine PoolFacts StoreFacts Notions Lifecycle.

(** X17: [assign_btc_address] succeeds exactly on an address of the pool
    that is available; then the address is marked as used by the user at
    that time and nothing else changes.  When it fails, for an address
    that is assigned or not in the pool, the store is as it was: an
    assignment is never overwritten.  After any attempt a further attempt
    on the address fails, whoever makes it, until the address is
    released; and on an address of the pool that has just been released,
    it succeeds. *)
Theorem assign_btc_address_never_steals address user now d :
  let r := assign_btc_address address user now d in
  (r.2 = true ↔ free d address)
  ∧ (r.2 = false → r.1 = d)
  ∧ (r.2 = true →
     btc_addresses r.1 !! address
     = Some {| is_used := true; assigned_to := Some user;
               assigned_at := Some now |})
  ∧ (∀ other, other ≠ address →
       btc_addresses r.1 !! other = btc_addresses d !! other)
  ∧ transactions r.1 = transactions d
  ∧ subscriptions r.1 = subscriptions d
  ∧ (∀ user' now', assign_btc_address address user' now' r.1 = (r.1, false))
  ∧ (is_Some (btc_addresses d !! address) →
     ∀ user' now',
       (assign_btc_address address user' now'
          (release_btc_address address r.1)).2 = true).
Proof.
  cbv zeta.
  assert (Hcases : free d address ∨ ¬ free d address).
  { destruct (btc_addresses d !! address) as [r|] eqn:Hr.
    - destruct (is_used r) eqn:Hu.
      + right. intros (r' & Hr' & Hf). congruence.
      + left. by exists r.
    - right. intros (r' & Hr' & _). congruence. }
  destruct Hcases as [Hfree|Hused].
  - rewrite (assign_btc_address_free address user now d Hfree). cbn [fst snd].
    split; [done|]. split; [done|]. split; [intros _; apply lookup_insert_eq|].
    split; [intros other Hne; cbn; by rewrite lookup_insert_ne|].
    split; [done|]. split; [done|]. split.
    + intros user' now'. apply assign_btc_address_not_free.
      apply used_not_free. eexists. split; [apply lookup_insert_eq|done].
    + intros _ user' now'. rewrite assign_btc_address_free; [done|].
      apply release_btc_address_free. cbn. by rewrite lookup_insert_eq.
  - rewrite (assign_btc_address_not_free address user now d Hused).
    cbn [fst snd]. split; [by split|]. split; [done|]. split; [done|].
    split; [done|]. split; [done|]. split; [done|]. split.
    + intros user' now'. by apply assign_btc_address_not_free.
    + intros Hsome user' now'. rewrite assign_btc_address_free; [done|].
      by apply release_btc_address_free.
Qed.

End AssignLaws.

(** ** bot/handlers.py: a subscriber asks for a plan *)

Module SubscriberLaws.
Import Models Database Engine PoolFacts StoreFacts Notions Lifecycle.

(** X18: when the user holds an active subscription, for whatever plan,
    [initiate_purchase] shows no payment: it answers that the price is
    unavailable or that the payment could not be created.  It creates no
    transaction and assigns no address; but when it has a price and the
    user has a pending transaction, that transaction is cancelled and its
    address released all the same. *)
Theorem initiate_purchase_subscriber user plan w s :
  has_active user (now w) (store s) →
  let r := Handlers.initiate_purchase user plan w s in
  (r.2 = Handlers.PriceUnavailable ∨ r.2 = Handlers.PaymentFailed)
  ∧ (store r.1 = store s
     ∨ ∃ i t, get_pending_transaction user (store s) = Some (i, t)
              ∧ r.2 = Handlers.PaymentFailed
              ∧ store r.1
                = release_btc_address (btc_address t)
                    (update_transaction_status i CANCELLED None (store s))).
Proof.
  intros Hactive. cbv zeta. unfold Handlers.initiate_purchase.
  destruct (BtcApi.get_btc_price _ _ _) as [btc_price log1].
  destruct (PrimFloat.eqb btc_price 0); [by split; left|].
  assert (Halready :
    match get_active_subscription user (now w) (store s) with
    | Some active => py_eq (PyStr (sub_plan_type active)) (PyPlanType plan)
    | None => false
    end = false) by by destruct (get_active_subscription _ _ _).
  rewrite Halready.
  destruct (get_pending_transaction user (store s)) as [[i t]|] eqn:Hpending.
  - rewrite PurchaseFacts.py_eq_str_plan. cbn [fst snd].
    rewrite AllocatorFacts.create_payment_active by done. cbn.
    split; [by right|]. right. by exists i, t.
  - rewrite AllocatorFacts.create_payment_active by done. cbn.
    split; [by right|by left].
Qed.

(** X18 on user 7, who holds a lifetime subscription and asks for VIP1
    when the price is 50000. *)
Lemma initiate_purchase_subscriber_witness :
  let d := create_subscription 7 "VIP3" 1 None 900 Fixtures.pool_AB in
  let s := {| store := d; requests := [] |} in
  let r := Handlers.initiate_purchase 7 VIP1 (Fixtures.world_at 1500 0 0) s in
  r.2 = Handlers.PriceUnavailable ∨ r.2 = Handlers.PaymentFailed.
Proof.
  cbv zeta. apply initiate_purchase_subscriber.
  eexists. split; [apply list_elem_of_here|reflexivity].
Defined.

End SubscriberLaws.

(** ** Payments the detector objects to *)

Module FlaggedLaws.
Import Models Database Engine BtcApi StoreFacts DoubleSpendFacts ConfirmFacts.
Import Notions Lifecycle.

Lemma paid_flagged w log t :
  btc_address t ≠ "" →
  (∀ n, answer_to (btc_address t) (btc_amount t)
          (history_reply (net w) n (history_url (btc_address t))) = true) →
  paid w log t = false.
Proof.
  intros Haddress Hflag. unfold paid.
  destruct (check_address_balance _ _ _ _) as [balance log1].
  rewrite check_double_spend_answer by done. cbn [fst].
  rewrite Hflag. apply andb_false_r.
Qed.

Lemma answer_to_two_outputs a expected txs :
  well_formed txs = true →
  (2 ≤ matching_outputs a expected txs)%nat →
  answer_to a expected (Response 200 (Some txs)) = true.
Proof.
  intros Hwf Htwo. unfold answer_to. change (200 =? 200) with true. cbv iota.
  rewrite scan_txs_counts by (done || lia). cbv zeta. rewrite Nat.add_0_l.
  by apply Nat.leb_le in Htwo as ->.
Qed.

(** X19: a payment the double-spend detector objects to is never
    confirmed by the periodic job, whatever balance the address holds.
    When every request for the history of the address fails (other than
    with a 404), or is answered with a readable history in which two or
    more outputs to the address are within the tolerance of the expected
    amount (the user paid twice), [check_single_payment] leaves the store
    as it is, and the job expires the transaction when its deadline is
    [now] or before and leaves it as it is otherwise. *)
Theorem flagged_payment_is_never_confirmed w s i t :
  transactions (store s) !! i = Some t → status t = PENDING →
  btc_address t ≠ "" →
  (∀ n, let r := history_reply (net w) n (history_url (btc_address t)) in
        fetch_failed r = true
        ∨ ∃ txs, r = Response 200 (Some txs) ∧ well_formed txs = true
                 ∧ (2 ≤ matching_outputs (btc_address t) (btc_amount t) txs)%nat) →
  (∀ s1, store (PaymentChecker.check_single_payment w (i, t) s1) = store s1)
  ∧ transactions (store (PaymentChecker.check_payments_job w s)) !! i
    = Some (if due (now w) t then with_status EXPIRED t else t).
Proof.
  intros Hlook Hp Haddress Hflag.
  assert (Hnot : ∀ log, paid w log t = false).
  { intros log. apply paid_flagged; [done|]. intros n.
    destruct (Hflag n) as [Hfailed|(txs & -> & Hwf & Htwo)].
    - by apply fetch_failed_answer.
    - by apply answer_to_two_outputs. }
  split.
  - intros s1. by rewrite check_single_payment_paid, Hnot.
  - by apply check_payments_job_unpaid.
Qed.

(** X19 on transaction 1 of user 7, for 0.001 BTC: the address received
    two outputs of 100000 satoshis and holds 200000; at 3000, past the
    deadline, the job expires the transaction. *)
Lemma flagged_payment_is_never_confirmed_witness :
  let w := {| net := Fixtures.net_up 200000
                       [Fixtures.pays 100000; Fixtures.pays 100000];
              btc_api := Fixtures.sources default_fallback;
              rnd := 0; now := 3000 |} in
  let s := {| store := Fixtures.store_1 VIP1 PENDING; requests := [] |} in
  PrimFloat.leb (btc_amount (Fixtures.transaction_1 VIP1 PENDING))
    (observed_balance w s (1, Fixtures.transaction_1 VIP1 PENDING)) = true
  ∧ transactions (store (PaymentChecker.check_payments_job w s)) !! 1
    = Some (with_status EXPIRED (Fixtures.transaction_1 VIP1 PENDING)).
Proof.
  cbv zeta. split; [reflexivity|].
  refine (proj2 (flagged_payment_is_never_confirmed _
                   {| store := Fixtures.store_1 VIP1 PENDING; requests := [] |}
                   1 (Fixtures.transaction_1 VIP1 PENDING) _ _ _ _)).
  - reflexivity.
  - reflexivity.
  - done.
  - intros n. right.
    exists [Fixtures.pays 100000; Fixtures.pays 100000].
    split; [reflexivity|]. split; [reflexivity|].
    by vm_compute.
Defined.

End FlaggedLaws.

(** ** bot/handlers.py: a purchase when no price source answers *)

Module FallbackLaws.
Import Models Database Engine BtcApi StoreFacts PoolFacts Notions Schema.
Import Lifecycle.

Lemma positive_not_zero p :
  PrimFloat.ltb 0 p = true → PrimFloat.eqb p 0 = false.
Proof.
  rewrite FloatAxioms.ltb_spec, FloatAxioms.eqb_spec.
  change (Prim2SF 0) with (S754_zero false).
  by destruct (Prim2SF p) as [[|]|[|]| |[|] m e].
Qed.

(** X20: [initiate_purchase] when no price source gives an accepted
    price.  It goes on with [FALLBACK_BTC_PRICE] and says nothing of it:
    for a user with no active subscription and no pending transaction,
    when an address is available and the DECIMAL columns of
    [transactions] take the amounts at the fallback price, it sends one
    request to each price source, assigns the address, stores a pending
    transaction for this user, plan and address, and shows a payment of
    [price_usd / fallback] BTC.  And the answer that the price is
    unavailable is given only when the fallback itself is zero, in which
    case the store is left as it is. *)
Theorem initiate_purchase_on_fallback_price user plan w s :
  let r := Handlers.initiate_purchase user plan w s in
  (r.2 = Handlers.PriceUnavailable →
   PrimFloat.eqb (FALLBACK_BTC_PRICE (btc_api w)) 0 = true
   ∧ store r.1 = store s)
  ∧ (∀ address,
       (∀ n a, a ∈ price_apis (btc_api w) →
          accepted_price (price_reply (net w) n (url a)) = None) →
       storable plan (FALLBACK_BTC_PRICE (btc_api w)) = true →
       ¬ has_active user (now w) (store s) →
       ¬ has_pending user (store s) →
       get_available_btc_address (rnd w) (store s) = Some address →
       let price := FALLBACK_BTC_PRICE (btc_api w) in
       ∃ i t,
       transactions (store s) !! i = None
       ∧ r.2 = Handlers.ShowPayment (new_payment i plan price address (now w))
       ∧ requests r.1
         = (requests s ++ map url (price_apis (btc_api w)))%list
       ∧ btc_addresses (store r.1)
         = <[address := {| is_used := true; assigned_to := Some user;
                           assigned_at := Some (now w) |}]>
             (btc_addresses (store s))
       ∧ subscriptions (store r.1) = subscriptions (store s)
       ∧ transactions (store r.1) = <[i := t]> (transactions (store s))
       ∧ created_row user plan address (now w) t).
Proof.
  cbv zeta. split.
  - unfold Handlers.initiate_purchase.
    pose proof (PriceFacts.price_from_accepted (net w) (price_apis (btc_api w))
                  (FALLBACK_BTC_PRICE (btc_api w)) (requests s)) as Hprice.
    unfold get_btc_price.
    destruct (price_from _ _ _ _) as [btc_price log1]. cbn [fst] in Hprice.
    destruct (PrimFloat.eqb btc_price 0) eqn:Hzero.
    + intros _. split; [|done].
      destruct Hprice as [<-|(n & a & _ & Hok)]; [done|].
      apply PriceFacts.accepted_price_positive, positive_not_zero in Hok.
      congruence.
    + destruct (match get_active_subscription user (now w) (store s) with
                | Some active => _ | None => _ end); [done|].
      destruct (get_pending_transaction user (store s)) as [[j t]|].
      * rewrite PurchaseFacts.py_eq_str_plan.
        by destruct (PaymentService.create_payment _ _ _ _ _ _) as [d1 [p|]].
      * by destruct (PaymentService.create_payment _ _ _ _ _ _) as [d1 [p|]].
  - intros address Hdown Hfits Hactive Hpending Havailable.
    pose proof (AllocatorFacts.create_payment_storable user plan
                  (FALLBACK_BTC_PRICE (btc_api w)) (rnd w) (now w) (store s)
                  address Hactive Hpending Havailable Hfits) as Hcreate.
    cbv zeta in Hcreate.
    unfold Handlers.initiate_purchase, get_btc_price.
    rewrite (PriceFacts.price_from_exhausted _ _ _ _ Hdown).
    rewrite (AllocatorFacts.storable_not_zero _ _ Hfits).
    apply get_active_subscription_None in Hactive as ->.
    apply get_pending_transaction_None in Hpending as ->.
    destruct (PaymentService.create_payment _ _ _ _ _ _) as [d1 [p|]];
      cbn [fst snd] in Hcreate;
      destruct Hcreate as (Hpay & Hpool & Hsubs & t & Hrows & Hrow); [|done].
    injection Hpay as ->.
    exists (next_id (transactions (store s))), t.
    split; [apply next_id_fresh|]. done.
Qed.

(** X20 when every price source times out and the fallback is the default
    92000, which the columns take: user 7 is shown a payment of
    100 / 92000 BTC on [address_A]. *)
Lemma initiate_purchase_on_fallback_price_witness :
  let w := {| net := Fixtures.net_down;
              btc_api := Fixtures.sources default_fallback;
              rnd := 0; now := 1000 |} in
  let s := {| store := Fixtures.pool_AB; requests := [] |} in
  storable VIP2 default_fallback = true
  ∧ ∃ i, (Handlers.initiate_purchase 7 VIP2 w s).2
         = Handlers.ShowPayment
             (new_payment i VIP2 default_fallback Fixtures.address_A 1000).
Proof.
  cbv zeta. split; [by vm_compute|].
  destruct (proj2 (initiate_purchase_on_fallback_price 7 VIP2
                     {| net := Fixtures.net_down;
                        btc_api := Fixtures.sources default_fallback;
                        rnd := 0; now := 1000 |}
                     {| store := Fixtures.pool_AB; requests := [] |})
              Fixtures.address_A) as (i & t & _ & Hshown & _).
  - intros n a _. reflexivity.
  - by vm_compute.
  - intros (sub & Hin & _). cbn in Hin. by apply elem_of_nil in Hin.
  - intros (i & t & Hlook & _). cbn in Hlook. done.
  - reflexivity.
  - exists i. exact Hshown.
Defined.

End FallbackLaws.

(** ** bot/btc_api.py: what the log shows of an address *)

Module LoggingLaws.
Import BtcApi Logging.

Lemma append_cons (x : Ascii.ascii) (a b : string) :
  String x a ++ b = String x (a ++ b).
Proof. done. Qed.

Lemma append_assoc (a b c : string) : (a ++ b) ++ c = a ++ b ++ c.
Proof.
  induction a as [|x a IH]; [done|]. rewrite !append_cons. by f_equal.
Qed.

Lemma append_nil_r (a : string) : a ++ "" = a.
Proof.
  induction a as [|x a IH]; [done|]. rewrite append_cons. by f_equal.
Qed.

Lemma length_append (a b : string) :
  String.length (a ++ b) = (String.length a + String.length b)%nat.
Proof.
  induction a as [|x a IH]; [done|]. rewrite append_cons. cbn. by f_equal.
Qed.

Lemma length_substring (n m : nat) (s : string) :
  (n + m ≤ String.length s)%nat → String.length (substring n m s) = m.
Proof.
  revert n m. induction s as [|x s IH]; intros n m Hle.
  - cbn in Hle. by destruct n, m; [..|lia|lia|lia].
  - destruct n as [|n].
    + destruct m as [|m]; [done|]. cbn. rewrite IH; [done|]. cbn in Hle. lia.
    + cbn. apply IH. cbn in Hle. lia.
Qed.

Lemma occurs_in_middle before part after :
  occurs_in part (before ++ part ++ after).
Proof. by exists before, after. Qed.

Lemma balance_url_shows_address a address u :
  balance_url a address = Some u → occurs_in address u.
Proof.
  unfold balance_url.
  destruct (_ || _).
  { intros [= <-]. exists (url a ++ "/address/"), "/utxo".
    by rewrite append_assoc. }
  destruct (Py.contains "blockcypher" _).
  { intros [= <-]. exists (url a ++ "/addrs/"), "/balance".
    by rewrite append_assoc. }
  destruct (Py.contains "blockchain.info" _).
  { intros [= <-]. exists (url a ++ "/rawaddr/"), "".
    by rewrite append_assoc, append_nil_r. }
  destruct (Py.contains "blockchair" _); [|done].
  intros [= <-]. exists (url a ++ "/dashboards/address/"), "".
  by rewrite append_assoc, append_nil_r.
Qed.

(** X21: the logger masks the address it is given, not the text around
    it.  [mask_address] answers 12 characters for an address of 16 or
    fewer and 24 for a longer one, the first 8 and the last 4 of the
    address around the mask.  But the URL of a balance request contains
    the address, and so does the error text that [check_address_balance]
    builds: the line of [log_api_call] for a balance request and the
    line of [log_error] for a source that timed out both show the address
    in full. *)
Theorem logged_lines_show_the_address a address :
  address ≠ "" →
  ((String.length address ≤ 16)%nat → mask_address address = "***MASKED***")
  ∧ ((16 < String.length address)%nat →
     mask_address address
     = substring 0 8 address ++ "***MASKED***"
       ++ substring (String.length address - 4) 4 address
     ∧ String.length (mask_address address) = 24%nat)
  ∧ (∀ u, balance_url a address = Some u →
       occurs_in address (balance_call_line u address))
  ∧ occurs_in address (balance_timeout_line a address).
Proof.
  intros Hne.
  assert (Hgiven : given (Some address) = Some address).
  { unfold given. by apply String.eqb_neq in Hne as ->. }
  split; [|split; [|split]].
  - intros Hshort. unfold mask_address.
    by apply Nat.ltb_ge in Hshort as ->.
  - intros Hlong. unfold mask_address.
    apply Nat.ltb_lt in Hlong as Hlt. rewrite Hlt. split; [done|].
    rewrite !length_append, !length_substring by lia. done.
  - intros u Hu. unfold balance_call_line, log_api_call. rewrite Hgiven.
    destruct (balance_url_shows_address a address u Hu) as (pre & post & ->).
    exists ("BTC API call to " ++ pre),
      (post ++ " for address " ++ mask_address address).
    by rewrite !append_assoc.
  - unfold balance_timeout_line, log_error. rewrite Hgiven.
    exists ("BTC API error for address " ++ mask_address address ++ ": "
            ++ name a ++ " timed out for address "), "".
    by rewrite !append_assoc, append_nil_r.
Qed.

(** X21 on [address_A] and the second balance source. *)
Lemma logged_lines_show_the_address_witness :
  mask_address Fixtures.address_A = "1AAAAAAA***MASKED***AAAA"
  ∧ balance_timeout_line Fixtures.blockcypher Fixtures.address_A
    = "BTC API error for address 1AAAAAAA***MASKED***AAAA: BLOCKCHAIN_API_2 timed out for address 1AAAAAAAAAAAAAAAAAAAAAAAAAAAAAAAAA"
  ∧ occurs_in Fixtures.address_A
      (balance_timeout_line Fixtures.blockcypher Fixtures.address_A).
Proof.
  split; [reflexivity|]. split; [reflexivity|].
  by apply (logged_lines_show_the_address Fixtures.blockcypher
              Fixtures.address_A).
Defined.

End LoggingLaws.

(** ** The alerts *)

Module AlertLaws.
Import Models Database Alerts StoreFacts.

Lemma elem_of_left_join users d row :
  row ∈ left_join users d → row.1 ∈ users.
Proof.
  unfold left_join. intros Hin.
  apply list_elem_of_In, in_concat in Hin as (rows & Hrows & Hrow).
  apply in_map_iff in Hrows as (u & <- & Hu).
  apply list_elem_of_In in Hu, Hrow.
  destruct (filter _ _) as [|kv rest].
  - by apply list_elem_of_singleton in Hrow as ->.
  - apply list_elem_of_In, in_map_iff in Hrow as (kv' & <- & _). done.
Qed.

(** X22: the unpaid-users alert looks at one instant.  Every user that
    the query of [notify_admin_unpaid_users] returns at time [now] is a
    row of [users] created exactly 10 minutes before [now]: the two
    bounds of the range are the same.  So a user who was created at any
    other time is never reported, whether paid or not, and there are at
    most five rows. *)
Theorem unpaid_users_created_ten_minutes_before now users d :
  (∀ u, u ∈ unpaid_users now users d →
        u ∈ users ∧ u_created_at u = now - 600)
  ∧ (∀ u, u ∈ users → u_created_at u ≠ now - 600 →
          u ∉ unpaid_users now users d)
  ∧ (length (unpaid_users now users d) ≤ 5)%nat.
Proof.
  assert (Hsel : ∀ u, u ∈ unpaid_users now users d →
                      u ∈ users ∧ u_created_at u = now - 600).
  { intros u Hin. unfold unpaid_users in Hin.
    apply list_elem_of_fmap in Hin as (row & -> & Hin).
    apply elem_of_take in Hin as (k & Hin & _).
    apply list_elem_of_lookup_2 in Hin.
    apply elem_of_sorted_filter in Hin as [(Hlo & Hhi & _) Hin].
    split; [by apply (elem_of_left_join users d)|lia]. }
  split; [done|]. split.
  - intros u _ Hne Hin. by destruct (Hsel u Hin).
  - unfold unpaid_users. rewrite length_fmap, length_take. lia.
Qed.

Lemma elem_of_reminder_txs now d i t :
  (i, t) ∈ reminder_txs now d
  ↔ transactions d !! i = Some t ∧ status t = CONFIRMED
    ∧ ∃ c, confirmed_at t = Some c ∧ now - 2400 ≤ c ≤ now - 2100.
Proof.
  unfold reminder_txs, reminder_where.
  rewrite list_elem_of_filter, elem_of_map_to_list. cbn. split.
  - intros [[Hst Hc] Hlook]. split; [done|]. split; [by destruct (status t)|].
    destruct (confirmed_at t) as [c|]; [|done]. by exists c.
  - intros (Hlook & Hst & c & Hc & Hrange). rewrite Hst, Hc. done.
Qed.

(** X23: the reminder about a second payment.  The check at time [now]
    selects a transaction exactly when it is confirmed and was confirmed
    between 40 and 35 minutes before [now], both ends included.  With the
    checks running every 5 minutes, a transaction confirmed after the
    scheduler started is selected by one check or by two that follow each
    other, and by two exactly when a check falls on the second 35 minutes
    after the confirmation. *)
Theorem reminder_sent_once_or_twice start i t c :
  status t = CONFIRMED → confirmed_at t = Some c → start ≤ c →
  (∀ now d, transactions d !! i = Some t →
     ((i, t) ∈ reminder_txs now d ↔ c + 2100 ≤ now ≤ c + 2400))
  ∧ (∃ k, 1 ≤ k ∧ ∀ d, transactions d !! i = Some t →
                        (i, t) ∈ reminder_txs (alert_time start k) d)
  ∧ (∀ k k' d d',
       transactions d !! i = Some t → transactions d' !! i = Some t →
       (i, t) ∈ reminder_txs (alert_time start k) d →
       (i, t) ∈ reminder_txs (alert_time start k') d' →
       k' = k ∨ k' = k + 1 ∨ k = k' + 1)
  ∧ (∀ k d, transactions d !! i = Some t →
       ((i, t) ∈ reminder_txs (alert_time start k) d
        ∧ (i, t) ∈ reminder_txs (alert_time start (k + 1)) d
        ↔ alert_time start k = c + 2100)).
Proof.
  intros Hst Hc Hstart.
  assert (Hsel : ∀ now d, transactions d !! i = Some t →
            ((i, t) ∈ reminder_txs now d ↔ c + 2100 ≤ now ≤ c + 2400)).
  { intros now d Hlook. rewrite elem_of_reminder_txs. split.
    - intros (_ & _ & c' & Hc' & Hrange). rewrite Hc in Hc'.
      injection Hc' as <-. lia.
    - intros Hrange. split; [done|]. split; [done|]. exists c.
      split; [done|lia]. }
  split; [done|]. split; [|split].
  - exists ((c + 2400 - start) / 300). split.
    + apply Z.div_le_lower_bound; lia.
    + intros d Hlook. apply Hsel; [done|]. unfold alert_time.
      pose proof (Z.mul_div_le (c + 2400 - start) 300 ltac:(lia)).
      pose proof (Z.mul_succ_div_gt (c + 2400 - start) 300 ltac:(lia)).
      lia.
  - intros k k' d d' Hlook Hlook' Hk Hk'.
    apply Hsel in Hk; [|done]. apply Hsel in Hk'; [|done].
    unfold alert_time in *. lia.
  - intros k d Hlook. rewrite !Hsel by done. unfold alert_time. lia.
Qed.

(** X23 on a transaction confirmed at 1500 under a scheduler started at
    0: the check number 12, at 3600, selects it, and so does the check
    number 13, at 3900. *)
Lemma reminder_sent_once_or_twice_witness :
  let t := Lifecycle.confirmed 1500 (Fixtures.transaction_1 VIP1 PENDING) in
  let d := Fixtures.store_1 VIP1 PENDING in
  let d' := set_transactions (<[1 := t]> (transactions d)) d in
  (1, t) ∈ reminder_txs (alert_time 0 12) d'
  ∧ (1, t) ∈ reminder_txs (alert_time 0 13) d'.
Proof.
  cbv zeta.
  destruct (reminder_sent_once_or_twice 0 1
              (Lifecycle.confirmed 1500 (Fixtures.transaction_1 VIP1 PENDING))
              1500 eq_refl eq_refl ltac:(lia)) as (_ & _ & _ & Htwice).
  apply (Htwice 12). 
  - cbn. by rewrite lookup_insert_eq.
  - reflexivity.
Defined.

End AlertLaws.

(** ** Addresses that stay assigned *)

Module HeldLaws.
Import Models Database Engine Operations Maintenance StoreFacts PoolFacts.
Import LifecycleFacts SinglePendingFacts HistoryFacts InvariantFacts.
Import Notions Lifecycle.

Lemma held_kept d d' a :
  (∀ r, btc_addresses d !! a = Some r → btc_addresses d' !! a = Some r) →
  no_new_pending d d' →
  used d a ∧ (∀ i t, transactions d !! i = Some t → status t = PENDING →
                     btc_address t ≠ a) →
  used d' a ∧ (∀ i t, transactions d' !! i = Some t → status t = PENDING →
                      btc_address t ≠ a).
Proof.
  intros Hpool Hnew [(r & Hr & Hu) Hnone]. split.
  - exists r. auto.
  - intros i t Hlook Hp. apply (Hnone i); [by apply Hnew|done].
Qed.

Lemma change_keeps_held d d' a :
  change d d' →
  used d a ∧ (∀ i t, transactions d !! i = Some t → status t = PENDING →
                     btc_address t ≠ a) →
  used d' a ∧ (∀ i t, transactions d' !! i = Some t → status t = PENDING →
                      btc_address t ≠ a).
Proof.
  intros Hchange Hd. pose proof Hd as [Hused Hnone].
  destruct Hchange as
    [user plan address amount usd rate expires now d Hpending Hfree
    |user address now d Hfree
    |i t st released d Hlook Hp Hst
    |i t now d Hlook Hp
    |address d
    |now d].
  - assert (Hne : address ≠ a)
      by (intros ->; by apply (used_not_free d a)).
    rewrite (assign_btc_address_free _ user now _ Hfree). cbn [fst].
    destruct Hused as (r & Hr & Hu). split.
    + exists r. split; [cbn; by rewrite lookup_insert_ne|done].
    + intros j u Hu' Hpu. cbn in Hu'.
      destruct (decide (j = next_id (transactions d))) as [->|Hj].
      * rewrite lookup_insert_eq in Hu'. by injection Hu' as <-.
      * rewrite lookup_insert_ne in Hu' by done. by apply (Hnone j).
  - assert (Hne : address ≠ a)
      by (intros ->; by apply (used_not_free d a)).
    rewrite (assign_btc_address_free _ user now _ Hfree). cbn [fst].
    apply (held_kept d); [|by apply no_new_pending_same|done].
    intros r Hr. cbn. by rewrite lookup_insert_ne.
  - apply (held_kept d); [| |done].
    + intros r Hr. destruct released; [|done]. cbn.
      rewrite lookup_alter_ne; [done|]. by apply (Hnone i).
    + eapply no_new_pending_trans;
        [|apply update_transaction_status_no_new_pending;
          by destruct Hst as [-> | ->]].
      apply no_new_pending_same. by destruct released.
  - apply (held_kept d); [|apply confirm_payment_no_new_pending|done].
    intros r Hr. by rewrite (proj2 (confirm_payment_transactions now i t d)).
  - apply (held_kept d); [| |done].
    + intros r Hr. by rewrite PoolLaws.insert_address_lookup, Hr.
    + apply no_new_pending_same, PoolLaws.insert_address_others.
  - by apply (held_kept d); [|apply no_new_pending_same|].
Qed.

(** X24: an address that is assigned while no pending transaction is on
    it is never handed out again.  Such is the address of a confirmed
    transaction, the address the expiry sweep or [cancel_plan] kept
    because it held a balance, and the address [create_payment] drew
    before the division by a zero price failed.  After every history it
    is still assigned, no pending transaction is on it, and it is not
    among the available addresses: no event releases it. *)
Theorem held_address_is_never_released es s a :
  used (store s) a →
  (∀ i t, transactions (store s) !! i = Some t → status t = PENDING →
          btc_address t ≠ a) →
  let d := store (history es s) in
  used d a
  ∧ (∀ i t, transactions d !! i = Some t → status t = PENDING →
            btc_address t ≠ a)
  ∧ (a ∉ available d)
  ∧ ∀ user rnd now, (get_next_btc_address user rnd now d).2 ≠ Some a.
Proof.
  intros Hused Hnone. cbv zeta.
  assert (Hd : used (store (history es s)) a
               ∧ (∀ i t, transactions (store (history es s)) !! i = Some t →
                         status t = PENDING → btc_address t ≠ a)).
  { apply (history_preserves
             (λ d, used d a
                   ∧ (∀ i t, transactions d !! i = Some t →
                             status t = PENDING → btc_address t ≠ a)));
      [|done].
    intros d d'. apply change_keeps_held. }
  destruct Hd as [Hused' Hnone'].
  assert (Hout : a ∉ available (store (history es s))).
  { intros Hin%elem_of_available.
    by apply (used_not_free (store (history es s)) a). }
  split; [done|]. split; [done|]. split; [done|].
  intros user rnd now Hnext. unfold get_next_btc_address in Hnext.
  destruct (pending_address user _); [done|].
  destruct (get_available_btc_address rnd _) as [address|] eqn:Havailable;
    [|done].
  apply get_available_btc_address_Some in Havailable.
  rewrite (assign_btc_address_free _ user now _ Havailable) in Hnext.
  cbn in Hnext. injection Hnext as ->.
  by apply (used_not_free (store (history es s)) a).
Qed.

(** X24 on [address_A] after [create_payment] failed on a price of zero:
    user 7 buys and cancels, the job and the cleanup run, and
    [address_A] is still assigned. *)
Lemma held_address_is_never_released_witness :
  let d := (PaymentService.create_payment 7 VIP1 0%float 0 1000
              Fixtures.pool_AB).1 in
  let w := Fixtures.world_at 1500 0 0 in
  let es := [Run (InitiatePurchase 7 VIP1 w); Run (CancelPlan 7 w);
             Run (CheckPaymentsJob w); CleanupDatabase 9000 9000] in
  transactions d = ∅
  ∧ used (store (history es {| store := d; requests := [] |}))
      Fixtures.address_A.
Proof.
  cbv zeta. split; [reflexivity|].
  apply held_address_is_never_released.
  - eexists. split; [reflexivity|done].
  - intros i t Hlook _.
    change (transactions _) with (∅ : gmap Z transaction) in Hlook. done.
Defined.

End HeldLaws.

(** ** Who can change what *)

Module CallbackLaws.
Import Models Database Engine Operations Maintenance StoreFacts PoolFacts.
Import LifecycleFacts SweepFacts ConfirmFacts Notions Lifecycle Callbacks.

Lemma create_payment_keeps_rows user plan btc_price rnd now d :
  (∀ i t, transactions d !! i = Some t →
     transactions (PaymentService.create_payment user plan btc_price rnd now d).1
       !! i = Some t)
  ∧ subscriptions (PaymentService.create_payment user plan btc_price rnd now d).1
    = subscriptions d.
Proof.
  unfold PaymentService.create_payment.
  destruct (get_active_subscription user now d); [done|].
  unfold get_next_btc_address.
  destruct (pending_address user d); [done|].
  destruct (get_available_btc_address rnd d) as [address|] eqn:Havailable;
    [|done].
  apply get_available_btc_address_Some in Havailable.
  rewrite (assign_btc_address_free _ user now _ Havailable). cbn.
  destruct (PrimFloat.eqb btc_price 0); [done|]. cbn. split; [|done].
  intros i t Hlook. rewrite lookup_insert_ne; [done|].
  intros <-. by rewrite next_id_fresh in Hlook.
Qed.

Lemma initiate_purchase_others user plan w s :
  subscriptions (store (Handlers.initiate_purchase user plan w s).1)
  = subscriptions (store s)
  ∧ (∀ i t, transactions (store s) !! i = Some t → user_id t ≠ user →
       transactions (store (Handlers.initiate_purchase user plan w s).1) !! i
       = Some t).
Proof.
  unfold Handlers.initiate_purchase.
  destruct (BtcApi.get_btc_price _ _ _) as [btc_price log1].
  destruct (PrimFloat.eqb btc_price 0); [done|].
  destruct (match get_active_subscription user (now w) (store s) with
            | Some active => _ | None => _ end); [done|].
  destruct (get_pending_transaction user (store s)) as [[j u]|] eqn:Hpending.
  - rewrite PurchaseFacts.py_eq_str_plan. cbn [fst snd].
    apply get_pending_transaction_Some in Hpending as (Hu & Huser & _).
    pose proof (create_payment_keeps_rows user plan btc_price (rnd w) (now w)
                  (release_btc_address (btc_address u)
                     (update_transaction_status j CANCELLED None (store s))))
      as [Hrows Hsubs].
    destruct (PaymentService.create_payment _ _ _ _ _ _) as [d1 r]. cbn in *.
    split; [done|]. intros i t Hlook Hother. apply Hrows.
    rewrite lookup_alter_ne; [done|]. intros ->. congruence.
  - pose proof (create_payment_keeps_rows user plan btc_price (rnd w) (now w)
                  (store s)) as [Hrows Hsubs].
    destruct (PaymentService.create_payment _ _ _ _ _ _) as [d1 r]. cbn in *.
    split; [done|]. intros i t Hlook _. by apply Hrows.
Qed.

Lemma cancel_plan_others user w s :
  subscriptions (store (Handlers.cancel_plan user w s))
  = subscriptions (store s)
  ∧ (∀ i t, transactions (store s) !! i = Some t → user_id t ≠ user →
       transactions (store (Handlers.cancel_plan user w s)) !! i = Some t).
Proof.
  split.
  - unfold Handlers.cancel_plan.
    apply (loop_same (λ s', subscriptions (store s'))).
    intros s' kv. apply (cancel_one_pool w s' kv "").
  - intros i t Hlook Hother. rewrite cancel_plan_lookup, Hlook. cbn.
    destruct (pending_of user t) eqn:Hsel; [|done].
    by apply pending_of_spec in Hsel as [? _].
Qed.

Lemma prefix_cons (c : Ascii.ascii) (p s : string) :
  String.prefix (String c p) s = true →
  ∃ rest, s = String c rest ∧ String.prefix p rest = true.
Proof.
  destruct s as [|c' rest]; [done|]. cbn.
  destruct (Ascii.ascii_dec c c') as [->|]; [|done]. eauto.
Qed.

Lemma prefix_append (p rest s : string) :
  String.prefix (p ++ rest) s = true → String.prefix p s = true.
Proof.
  revert s. induction p as [|c p IH]; intros s.
  - by destruct s.
  - rewrite LoggingLaws.append_cons. destruct s as [|c' s]; [done|]. cbn.
    destruct (Ascii.ascii_dec c c'); [apply IH|done].
Qed.

Lemma force_is_not_admin (data name : string) :
  String.prefix "force_" data = true → String.prefix "admin_" name = true →
  String.eqb data name = false.
Proof.
  intros Hdata Hname.
  apply prefix_cons in Hdata as (? & -> & _).
  by apply prefix_cons in Hname as (? & -> & _).
Qed.

(** X25: who can change what through a callback.  Whatever the callback
    data: data that starts with [admin_] or [force_] goes to
    [handle_admin_callback] and to no other handler, and from anyone but
    the admin it is denied and changes nothing.  A callback of a user who
    is not the admin creates and changes no subscription, and leaves
    every transaction of every other user as it is: it can cancel and
    create only transactions of that user.  The admin's
    [force_approve_<id>] and [force_reject_<id>] run the approval and the
    rejection of that transaction. *)
Theorem callbacks_of_a_user_touch_only_their_transactions
    (upper : string → string) (int : string → option Z)
    (admin_id caller : Z) (data : string) (w : world) (s : state) :
  let a := handle_callback upper int admin_id caller data in
  let s' := perform a caller w s in
  (String.prefix "admin_" data || String.prefix "force_" data = true →
   a = ToAdmin (handle_admin_callback int admin_id caller data))
  ∧ (caller ≠ admin_id →
     (String.prefix "admin_" data || String.prefix "force_" data = true →
      a = ToAdmin Denied ∧ s' = s)
     ∧ subscriptions (store s') = subscriptions (store s)
     ∧ (∀ i t, transactions (store s) !! i = Some t → user_id t ≠ caller →
               transactions (store s') !! i = Some t))
  ∧ (caller = admin_id →
     ∀ x tx_id, segment 2 data = Some x → int x = Some tx_id →
       (String.prefix "force_approve_" data = true →
        store s' = Admin.force_approve_transaction tx_id (now w) (store s))
       ∧ (String.prefix "force_approve_" data = false →
          String.prefix "force_reject_" data = true →
          store s' = Admin.force_reject_transaction tx_id (store s))).
Proof.
  cbv zeta. split; [|split].
  - unfold handle_callback. by intros ->.
  - intros Hother.
    assert (Hdenied : handle_admin_callback int admin_id caller data = Denied).
    { unfold handle_admin_callback.
      by apply Z.eqb_neq in Hother as ->. }
    split.
    { intros Hprefix. unfold handle_callback. rewrite Hprefix, Hdenied. done. }
    unfold handle_callback.
    destruct (String.prefix "admin_" data || String.prefix "force_" data);
      [by rewrite Hdenied|].
    destruct (String.eqb data "compare_plans"); [done|].
    destruct (String.eqb data "dashboard"); [done|].
    destruct (String.eqb data "cancel_plan"); [apply cancel_plan_others|].
    destruct (String.eqb data "support"); [done|].
    destruct (String.prefix "buy_" data).
    { destruct (segment 1 data) as [x|]; [|done].
      destruct (PlanType_of_value (upper x)) as [p|]; [|done].
      apply initiate_purchase_others. }
    repeat (destruct (String.eqb data _); [done|]).
    by destruct (String.prefix "copy_address_" data).
  - intros -> x tx_id Hx Hint.
    assert (Hforce : ∀ rest, String.prefix ("force_" ++ rest) data = true →
              String.prefix "force_" data = true
              ∧ ∀ name, String.prefix "admin_" name = true →
                        String.eqb data name = false).
    { intros rest Hprefix. apply prefix_append in Hprefix.
      split; [done|]. intros name. by apply force_is_not_admin. }
    split.
    + intros Happrove.
      destruct (Hforce "approve_" Happrove) as [Hprefix Hnames].
      unfold handle_callback, handle_admin_callback.
      rewrite Hprefix, orb_true_r, Z.eqb_refl. cbn [negb].
      rewrite !Hnames by done. by rewrite Happrove, Hx, Hint.
    + intros Happrove Hreject.
      destruct (Hforce "reject_" Hreject) as [Hprefix Hnames].
      unfold handle_callback, handle_admin_callback.
      rewrite Hprefix, orb_true_r, Z.eqb_refl. cbn [negb].
      rewrite !Hnames by done. by rewrite Happrove, Hreject, Hx, Hint.
Qed.

(** X25 on the button [admin_access] of the confirmation message, pressed
    by user 7 when the admin is user 1: it is denied; and on
    [force_approve_1] pressed by the admin. *)
Lemma callbacks_of_a_user_touch_only_their_transactions_witness :
  let int := λ x : string, if String.eqb x "1" then Some 1 else None in
  let s := {| store := Fixtures.store_1 VIP1 PENDING; requests := [] |} in
  let w := Fixtures.world_at 1500 0 0 in
  handle_callback id int 1 7 "admin_access" = ToAdmin Denied
  ∧ store (perform (handle_callback id int 1 1 "force_approve_1") 1 w s)
    = Admin.force_approve_transaction 1 1500 (store s).
Proof.
  cbv zeta. split.
  - apply (callbacks_of_a_user_touch_only_their_transactions id
             (λ x : string, if String.eqb x "1" then Some 1 else None)
             1 7 "admin_access" (Fixtures.world_at 1500 0 0)
             {| store := Fixtures.store_1 VIP1 PENDING; requests := [] |});
      [lia|reflexivity].
  - apply (callbacks_of_a_user_touch_only_their_transactions id
             (λ x : string, if String.eqb x "1" then Some 1 else None)
             1 1 "force_approve_1" (Fixtures.world_at 1500 0 0)
             {| store := Fixtures.store_1 VIP1 PENDING; requests := [] |})
      with (x := "1"); reflexivity.
Defined.

End CallbackLaws.

(** ** database.py: the call that loses the race *)

Module RaceLaws.
Import Models Database Interleaving PoolFacts StoreFacts Notions.

(** X26: the call that loses the race for an address is not given another
    one.  Two calls of [get_next_btc_address], for users with no pending
    transaction, both draw the address [a]; each runs its pending check
    and its selection before either assigns.  The first assignment
    succeeds; the second call's conditional update finds the address
    taken and the call returns nothing, with every other available
    address still available: there is no second draw. *)
Theorem race_loser_gets_no_address now u1 u2 r1 r2 d a :
  pending_address u1 d = None → pending_address u2 d = None →
  get_available_btc_address r1 d = Some a →
  get_available_btc_address r2 d = Some a →
  let schedule := [true; true; false; false; true; false] in
  let r := interleave now schedule (start u1 r1) (start u2 r2) d in
  at_position r.1.1 = Returned (Some a)
  ∧ at_position r.1.2 = Returned None
  ∧ btc_addresses r.2 !! a
    = Some {| is_used := true; assigned_to := Some u1;
              assigned_at := Some now |}
  ∧ (∀ b, b ≠ a → btc_addresses r.2 !! b = btc_addresses d !! b)
  ∧ transactions r.2 = transactions d.
Proof.
  intros Hp1 Hp2 Ha1 Ha2. cbv zeta.
  pose proof (get_available_btc_address_Some r1 d a Ha1) as Hfree.
  assert (Hused : ¬ free (set_btc_addresses
                            (<[a := {| is_used := true; assigned_to := Some u1;
                                       assigned_at := Some now |}]>
                               (btc_addresses d)) d) a).
  { apply used_not_free. eexists. split; [apply lookup_insert_eq|done]. }
  unfold interleave, step, start, move. cbn [at_position caller draw].
  rewrite Hp1. cbn [at_position caller draw]. rewrite Ha1.
  cbn [at_position caller draw]. rewrite Hp2.
  cbn [at_position caller draw]. rewrite Ha2.
  cbn [at_position caller draw].
  rewrite (assign_btc_address_free a u1 now d Hfree).
  rewrite (assign_btc_address_not_free a u2 now _ Hused).
  cbn. split; [done|]. split; [done|]. split; [apply lookup_insert_eq|].
  split; [|done]. intros b Hb. by rewrite lookup_insert_ne.
Qed.

(** X26 on the pool of two addresses when both calls draw [address_A]:
    user 8 gets nothing although [address_B] is available. *)
Lemma race_loser_gets_no_address_witness :
  let r := interleave 1000 [true; true; false; false; true; false]
             (start 7 0) (start 8 0) Fixtures.pool_AB in
  at_position r.1.2 = Returned None
  ∧ btc_addresses r.2 !! Fixtures.address_B = Some Fixtures.free_row.
Proof.
  cbv zeta.
  destruct (race_loser_gets_no_address 1000 7 8 0 0 Fixtures.pool_AB
              Fixtures.address_A) as (_ & Hlost & _ & Hothers & _);
    [reflexivity..|].
  split; [exact Hlost|]. by rewrite Hothers.
Defined.

End RaceLaws.
